(** * Task-orchestration engine: circuit breaker, retry engine, executor,
      task state machine and orchestrator.

    Shallow embedding of [src/app/models.py], [src/app/retry_engine.py],
    [src/app/executor.py] and [src/app/orchestrator.py], with the tool
    registry of [src/app/tools.py] and [PlannerEngine.replan] of
    [src/app/planner.py].

    Conventions of the embedding.
    - Python [str] is [string]; the text-processing functions ([lower],
      substring search, the [\w] class of the template regex) are the
      ASCII ones.
    - Python values stored in a context or in step parameters are [PyVal];
      a [dict] nested inside a value is an association list, the task
      context (looked up and updated by key only) is a [gmap] over its
      string keys: an entry under a key that is not a string, which only a
      tool result given as a sequence of pairs can create and which the
      core never reads by key, is not represented.
    - Wall-clock stamps that never influence control flow ([created_at],
      [updated_at], [started_at], [completed_at]) and [print] calls are
      left out.  [time.time()], read by the circuit breaker, is an explicit
      argument there and a clock oracle in the retry engine.
    - A Python exception is a value of [Exn]; a call that may raise returns
      [Result]. Objects that the code mutates in place (the task, its steps,
      the breaker) are threaded through every call and returned, also when
      the call raises. *)

From Stdlib Require Import QArith Ascii.
From stdpp Require Import gmap strings list fin_maps pretty.
From Equations Require Import Equations.
From Equations.Prop Require Import Logic.

#[local] Set Warnings "-register-all,-clear-no-such-hyp".
#[local] Arguments String.append !_ _ /.

Local Open Scope string_scope.
Local Open Scope Z_scope.

(* ===================================================================== *)
(** ** Python values *)
(* ===================================================================== *)

Inductive PyVal : Type :=
| VNone
| VBool (b : bool)
| VInt (z : Z)
| VStr (s : string)
| VList (l : list PyVal)
| VDict (d : list (string * PyVal)).

(** A [dict] literal as an association list. *)
Abbreviation PyDict := (list (string * PyVal)).

(** [d.get(k)] on an association list: the entry of key [k], if any. *)
Fixpoint dict_get (d : PyDict) (k : string) : option PyVal :=
  match d with
  | [] => None
  | (k', v) :: d' => if String.eqb k' k then Some v else dict_get d' k
  end.

(** Python truthiness, as used by [if user_response.get("approved")]. *)
Definition truthy (v : PyVal) : bool :=
  match v with
  | VNone => false
  | VBool b => b
  | VInt z => negb (z =? 0)
  | VStr s => negb (String.eqb s EmptyString)
  | VList l => match l with [] => false | _ => true end
  | VDict d => match d with [] => false | _ => true end
  end.

(** [x.get(k)] where a missing key yields [None]. *)
Definition opt_val (o : option PyVal) : PyVal :=
  match o with Some v => v | None => VNone end.

(** [ctx.update(d)]: entries are written in order, later ones win. *)
Definition ctx_update (ctx : gmap string PyVal) (d : PyDict) : gmap string PyVal :=
  foldl (fun m kv => <[kv.1 := kv.2]> m) ctx d.

(* ===================================================================== *)
(** ** models.py *)
(* ===================================================================== *)

Inductive TaskStatus : Type :=
| PENDING | ANALYZING | PLANNING | EXECUTING | WAITING
| RETRYING | INTERRUPTED | VALIDATING | COMPLETED | FAILED.

Inductive StepStatus : Type :=
| STEP_PENDING | STEP_IN_PROGRESS | STEP_COMPLETED | STEP_FAILED | STEP_SKIPPED.

#[global] Instance TaskStatus_eq_dec : EqDecision TaskStatus.
Proof. solve_decision. Defined.

#[global] Instance StepStatus_eq_dec : EqDecision StepStatus.
Proof. solve_decision. Defined.

Definition all_statuses : list TaskStatus :=
  [PENDING; ANALYZING; PLANNING; EXECUTING; WAITING;
   RETRYING; INTERRUPTED; VALIDATING; COMPLETED; FAILED].

(** [TaskStatus.value] *)
Definition status_value (s : TaskStatus) : string :=
  match s with
  | PENDING => "pending" | ANALYZING => "analyzing" | PLANNING => "planning"
  | EXECUTING => "executing" | WAITING => "waiting" | RETRYING => "retrying"
  | INTERRUPTED => "interrupted" | VALIDATING => "validating"
  | COMPLETED => "completed" | FAILED => "failed"
  end.

Record OutcomeDefinition : Type := mkOutcome {
  original_goal : string;
  success_criteria : list string;
  domain : string;
  constraints : PyDict
}.

Record ExecutionStep : Type := mkStep {
  id : string;
  description : string;
  action_type : string;
  parameters : PyDict;
  dependencies : list string;
  status : StepStatus;
  result : option PyVal;
  error : option string;
  retry_count : Z;
  max_retries : Z
}.

(** One entry of [task.history]: step index, action and outcome tag. *)
Record HistoryEntry : Type := mkHistory {
  h_step : nat;
  h_action : string;
  h_result : string
}.

Record TaskState : Type := mkTask {
  task_id : string;
  user_id : string;
  task_status : TaskStatus;
  outcome : option OutcomeDefinition;
  plan : list ExecutionStep;
  current_step_index : nat;
  context : gmap string PyVal;
  history : list HistoryEntry;
  interrupt_reason : option string;
  interrupt_data : option PyDict
}.

(** Exceptions of the core. [HumanInterruptionRequired] carries [reason]
    and [data] (already normalised by [data or {}] in its constructor). *)
Inductive Exn : Type :=
| HumanInterruptionRequired (reason : string) (data : PyDict)
| ExecutionError (msg : string)
| StateTransitionError (msg : string)
| OtherError (msg : string).

Inductive Result (A : Type) : Type :=
| Ok (a : A)
| Raise (e : Exn).
Arguments Ok {A} a.
Arguments Raise {A} e.

(** [str(e)] for the exceptions above: the message they were built with. *)
Definition exn_str (e : Exn) : string :=
  match e with
  | HumanInterruptionRequired r _ => r
  | ExecutionError m => m
  | StateTransitionError m => m
  | OtherError m => m
  end.

(** [STATE_TRANSITIONS]: absent keys ([COMPLETED], [FAILED]) give [None]. *)
Definition STATE_TRANSITIONS (s : TaskStatus) : option (list TaskStatus) :=
  match s with
  | PENDING => Some [ANALYZING]
  | ANALYZING => Some [PLANNING; INTERRUPTED; FAILED]
  | PLANNING => Some [EXECUTING; INTERRUPTED; FAILED]
  | EXECUTING => Some [WAITING; RETRYING; VALIDATING; INTERRUPTED; FAILED]
  | WAITING => Some [EXECUTING; INTERRUPTED]
  | RETRYING => Some [EXECUTING; FAILED]
  | INTERRUPTED => Some [EXECUTING; FAILED]
  | VALIDATING => Some [COMPLETED; EXECUTING; FAILED]
  | COMPLETED => None
  | FAILED => None
  end.

(** The transition table as the design document prints it (section 4.1),
    one pair per allowed arrow; compared with [STATE_TRANSITIONS] below. *)
Definition spec_transition_table : list (TaskStatus * TaskStatus) :=
  [ (PENDING, ANALYZING);
    (ANALYZING, PLANNING); (ANALYZING, INTERRUPTED); (ANALYZING, FAILED);
    (PLANNING, EXECUTING); (PLANNING, INTERRUPTED); (PLANNING, FAILED);
    (EXECUTING, WAITING); (EXECUTING, RETRYING); (EXECUTING, VALIDATING);
    (EXECUTING, INTERRUPTED); (EXECUTING, FAILED);
    (WAITING, EXECUTING); (WAITING, INTERRUPTED);
    (RETRYING, EXECUTING); (RETRYING, FAILED);
    (INTERRUPTED, EXECUTING); (INTERRUPTED, FAILED);
    (VALIDATING, COMPLETED); (VALIDATING, EXECUTING); (VALIDATING, FAILED) ].

(** Field updates of the mutable task and step objects. *)
Definition set_status (t : TaskState) (s : TaskStatus) : TaskState :=
  mkTask (task_id t) (user_id t) s (outcome t) (plan t) (current_step_index t)
         (context t) (history t) (interrupt_reason t) (interrupt_data t).

Definition set_outcome (t : TaskState) (o : option OutcomeDefinition) : TaskState :=
  mkTask (task_id t) (user_id t) (task_status t) o (plan t) (current_step_index t)
         (context t) (history t) (interrupt_reason t) (interrupt_data t).

Definition set_plan (t : TaskState) (p : list ExecutionStep) : TaskState :=
  mkTask (task_id t) (user_id t) (task_status t) (outcome t) p (current_step_index t)
         (context t) (history t) (interrupt_reason t) (interrupt_data t).

Definition set_index (t : TaskState) (i : nat) : TaskState :=
  mkTask (task_id t) (user_id t) (task_status t) (outcome t) (plan t) i
         (context t) (history t) (interrupt_reason t) (interrupt_data t).

Definition set_context (t : TaskState) (c : gmap string PyVal) : TaskState :=
  mkTask (task_id t) (user_id t) (task_status t) (outcome t) (plan t)
         (current_step_index t) c (history t) (interrupt_reason t) (interrupt_data t).

Definition set_history (t : TaskState) (h : list HistoryEntry) : TaskState :=
  mkTask (task_id t) (user_id t) (task_status t) (outcome t) (plan t)
         (current_step_index t) (context t) h (interrupt_reason t) (interrupt_data t).

Definition set_interrupt (t : TaskState) (r : option string) (d : option PyDict) : TaskState :=
  mkTask (task_id t) (user_id t) (task_status t) (outcome t) (plan t)
         (current_step_index t) (context t) (history t) r d.

Definition step_set_status (s : ExecutionStep) (st : StepStatus) : ExecutionStep :=
  mkStep (id s) (description s) (action_type s) (parameters s) (dependencies s)
         st (result s) (error s) (retry_count s) (max_retries s).

Definition step_set_result (s : ExecutionStep) (r : option PyVal) : ExecutionStep :=
  mkStep (id s) (description s) (action_type s) (parameters s) (dependencies s)
         (status s) r (error s) (retry_count s) (max_retries s).

Definition step_set_error (s : ExecutionStep) (e : option string) : ExecutionStep :=
  mkStep (id s) (description s) (action_type s) (parameters s) (dependencies s)
         (status s) (result s) e (retry_count s) (max_retries s).

Definition step_set_retry_count (s : ExecutionStep) (n : Z) : ExecutionStep :=
  mkStep (id s) (description s) (action_type s) (parameters s) (dependencies s)
         (status s) (result s) (error s) n (max_retries s).

(* ===================================================================== *)
(** ** retry_engine.py: CircuitBreaker *)
(* ===================================================================== *)

Module CircuitBreaker.

Inductive CState : Type := closed | open | half_open.

#[global] Instance CState_eq_dec : EqDecision CState.
Proof. solve_decision. Defined.

(** The three dictionaries of a breaker, keyed by service (action type),
    and its two settings. Times are seconds, as rationals. *)
Record t : Type := mk {
  failure_threshold : Z;
  recovery_timeout : Q;
  failures : gmap string Z;
  last_failure_time : gmap string Q;
  state : gmap string CState
}.

(** [CircuitBreaker()] with the default settings. *)
Definition init : t := mk 5 300 ∅ ∅ ∅.

Definition set_state (cb : t) (service : string) (s : CState) : t :=
  mk (failure_threshold cb) (recovery_timeout cb) (failures cb)
     (last_failure_time cb) (<[service := s]> (state cb)).

(** [is_open(service)] at wall-clock time [now]: the answer and the
    breaker after the call (the open to half-open flip is a write). *)
Definition is_open (cb : t) (now : Q) (service : string) : bool * t :=
  match state cb !! service with
  | None => (false, cb)
  | Some open =>
      let last_fail := default 0%Q (last_failure_time cb !! service) in
      if Qlt_le_dec (recovery_timeout cb) (now - last_fail)
      then (false, set_state cb service half_open)
      else (true, cb)
  | Some _ => (false, cb)
  end.

Definition record_success (cb : t) (service : string) : t :=
  let f := Z.max 0 (default 0 (failures cb !! service) - 1) in
  let cb1 := mk (failure_threshold cb) (recovery_timeout cb)
                (<[service := f]> (failures cb))
                (last_failure_time cb) (state cb) in
  match state cb1 !! service with
  | Some half_open => set_state cb1 service closed
  | _ => cb1
  end.

Definition record_failure (cb : t) (now : Q) (service : string) : t :=
  let f := default 0 (failures cb !! service) + 1 in
  let cb1 := mk (failure_threshold cb) (recovery_timeout cb)
                (<[service := f]> (failures cb))
                (<[service := now]> (last_failure_time cb)) (state cb) in
  if Z_le_gt_dec (failure_threshold cb1) f
  then set_state cb1 service open
  else cb1.

(** The failure count the code reads: [failures.get(service, 0)]. *)
Definition count (cb : t) (service : string) : Z :=
  default 0 (failures cb !! service).

End CircuitBreaker.

(* ===================================================================== *)
(** ** Text helpers (ASCII) *)
(* ===================================================================== *)

(** [c.lower()] for one ASCII character. *)
Definition lower_ascii (c : ascii) : ascii :=
  let n := nat_of_ascii c in
  if ((65 <=? n)%nat && (n <=? 90)%nat)%bool then ascii_of_nat (n + 32) else c.

(** [s.lower()] *)
Fixpoint lower (s : string) : string :=
  match s with
  | EmptyString => EmptyString
  | String c s' => String (lower_ascii c) (lower s')
  end.

(** [s.startswith(p)] *)
Definition startswith (s p : string) : bool := String.prefix p s.

(** [x in s]: [x] occurs in [s] as a substring. *)
Fixpoint str_in (x s : string) : bool :=
  if String.prefix x s then true
  else match s with
       | EmptyString => false
       | String _ s' => str_in x s'
       end.

(** [any(x in s for x in words)] *)
Definition any_in (words : list string) (s : string) : bool :=
  existsb (fun x => str_in x s) words.

(** [str(n)] for an integer. *)
Definition str_of_Z (n : Z) : string := pretty n.

(* ===================================================================== *)
(** ** dict.update *)
(* ===================================================================== *)

(** [context.update(other)] for the values a tool result can hold under
    ["context_updates"]. A [dict] is merged. Any other value is iterated
    as a sequence of key/value pairs, each element being unpacked in turn:
    [TypeError] for a value or an element that is not iterable or for an
    unhashable key, [ValueError] for an element that is not of length 2.
    Entries are written one by one, so those before an offending element
    stay in the context when the call raises. *)

(** What one element of such a sequence unpacks to: a key and a value, or
    its length when that is not 2; [None] when it is not iterable. *)
Definition update_pair (item : PyVal) : option (PyVal * PyVal + nat) :=
  match item with
  | VNone | VBool _ | VInt _ => None
  | VStr s =>
      match s with
      | String a (String b EmptyString) =>
          Some (inl (VStr (String a EmptyString), VStr (String b EmptyString)))
      | _ => Some (inr (String.length s))
      end
  | VList l =>
      match l with
      | [k; v] => Some (inl (k, v))
      | _ => Some (inr (length l))
      end
  | VDict d =>
      match d with
      | [(k1, _); (k2, _)] => Some (inl (VStr k1, VStr k2))
      | _ => Some (inr (length d))
      end
  end.

Fixpoint update_from_sequence (ctx : gmap string PyVal) (items : list PyVal) (i : nat)
  : Result unit * gmap string PyVal :=
  match items with
  | [] => (Ok tt, ctx)
  | item :: items' =>
      match update_pair item with
      | None =>
          (Raise (OtherError ("cannot convert dictionary update sequence element #"
                              ++ str_of_Z (Z.of_nat i) ++ " to a sequence")), ctx)
      | Some (inr n) =>
          (Raise (OtherError ("dictionary update sequence element #"
                              ++ str_of_Z (Z.of_nat i) ++ " has length "
                              ++ str_of_Z (Z.of_nat n) ++ "; 2 is required")), ctx)
      | Some (inl (k, v)) =>
          match k with
          | VStr key => update_from_sequence (<[key := v]> ctx) items' (S i)
          | VList _ => (Raise (OtherError "unhashable type: 'list'"), ctx)
          | VDict _ => (Raise (OtherError "unhashable type: 'dict'"), ctx)
          | VNone | VBool _ | VInt _ => update_from_sequence ctx items' (S i)
          end
      end
  end.

Definition dict_update (ctx : gmap string PyVal) (other : PyVal)
  : Result unit * gmap string PyVal :=
  match other with
  | VDict d => (Ok tt, ctx_update ctx d)
  | VNone => (Raise (OtherError "'NoneType' object is not iterable"), ctx)
  | VBool _ => (Raise (OtherError "'bool' object is not iterable"), ctx)
  | VInt _ => (Raise (OtherError "'int' object is not iterable"), ctx)
  | VStr s =>
      update_from_sequence ctx
        (map (fun c => VStr (String c EmptyString)) (String.list_ascii_of_string s)) 0
  | VList l => update_from_sequence ctx l 0
  end.

(* ===================================================================== *)
(** ** The world outside the core *)
(* ===================================================================== *)

Inductive RetryStrategy : Type :=
| IMMEDIATE | EXPONENTIAL | LINEAR | CIRCUIT_BREAK | ALTERNATIVE | HUMAN_ESCALATE.

#[global] Instance RetryStrategy_eq_dec : EqDecision RetryStrategy.
Proof. solve_decision. Defined.

(** What looking a tool up and awaiting its handler under
    [asyncio.wait_for(..., 300)] can produce. [HUnknownTool]: the registry
    has no tool for the action type, [get_handler] raises [ValueError] and
    no handler is called. Otherwise the handler is called, and returns a
    [dict] ([HReturn]), runs out of time, asks for a human, or raises
    another exception with text [msg]. *)
Inductive HandlerOutcome : Type :=
| HReturn (res : PyDict)
| HTimeout
| HInterrupt (reason : string) (data : PyDict)
| HFail (msg : string)
| HUnknownTool.

(** The verdict of the validator: the two entries the orchestrator
    branches on, and the remaining entries of the returned [dict], among
    them the ["confidence"] it prints. *)
Record Validation : Type := mkValidation {
  completed : bool;
  needs_more_work : bool;
  v_rest : PyDict
}.

(** Observable actions, oldest first. *)
Inductive Event : Type :=
| EvBreakerWait (service : string) (seconds : Q)
| EvAttempt (step_id : string) (attempt : nat)
| EvHandler (action : string) (params : PyDict)
| EvRetrySleep (strategy : RetryStrategy) (attempt : nat) (seconds : Q)
| EvInterpret
| EvCreatePlan
| EvReplan (failure_point : nat) (err : string)
| EvValidate
| EvSave
| EvBroadcast (kind : string).

(** Everything mutable that is not the task: the engine's breaker, the
    number of oracle consultations so far and the trace. *)
Record World : Type := mkWorld {
  breaker : CircuitBreaker.t;
  tick : nat;
  trace : list Event
}.

(** The external collaborators and the sources of non-determinism. Each
    oracle is indexed by the [tick] at which it is consulted, so that two
    consultations with equal arguments may differ. *)
Record Env : Type := mkEnv {
  clock : nat -> Q;                       (* time.time() *)
  random_random : nat -> Q;               (* random.random(), in [0,1) *)
  tool : string -> PyDict -> nat -> HandlerOutcome;
  interpret : PyVal -> gmap string PyVal -> nat -> Result OutcomeDefinition;
  create_plan : option OutcomeDefinition -> gmap string PyVal -> nat ->
                Result (list ExecutionStep);
  replan : TaskState -> nat -> string -> nat -> Result (list ExecutionStep);
  validate_completion : option OutcomeDefinition -> gmap string PyVal ->
                        list HistoryEntry -> nat -> Result Validation
}.

Definition log (w : World) (e : Event) : World :=
  mkWorld (breaker w) (tick w) (trace w ++ [e]).

Definition next_tick (w : World) : World :=
  mkWorld (breaker w) (S (tick w)) (trace w).

Definition set_breaker (w : World) (cb : CircuitBreaker.t) : World :=
  mkWorld cb (tick w) (trace w).

(** What [execute_step] returns when it does not raise: the handler's
    result and the value of its [context_updates] entry ([{}] when the
    result has none). *)
Record ExecResult : Type := mkExecResult {
  er_result : PyDict;
  er_context_updates : PyVal
}.

(** A callable [executor(step, context)]: it may mutate the step and the
    world, and returns or raises. *)
Definition Executor : Type :=
  ExecutionStep -> gmap string PyVal -> World ->
  Result ExecResult * ExecutionStep * World.

(* ===================================================================== *)
(** ** retry_engine.py: RetryEngine *)
(* ===================================================================== *)

Module RetryEngine.

(** The three shapes of the returned [dict]. *)
Inductive RetryResult : Type :=
| Success (result : ExecResult) (attempts : Z)
| NeedsReplan (error : string) (attempts : Z)
| Exhausted (error : string) (attempts : Z).

Definition base_delay : Q := 2.

(** [_select_strategy]; [error_str] is [str(error)], the step argument of
    the method is not used by its body. *)
Definition _select_strategy (error_str : string) (attempt : nat) : RetryStrategy :=
  let error_str := lower error_str in
  if any_in ["timeout"; "connection"; "network"; "503"; "502"; "504"] error_str
  then EXPONENTIAL
  else if any_in ["rate limit"; "429"; "too many requests"] error_str
  then EXPONENTIAL
  else if any_in ["auth"; "unauthorized"; "401"; "403"; "forbidden"] error_str
  then (if (attempt <? 2)%nat then IMMEDIATE else HUMAN_ESCALATE)
  else if any_in ["not found"; "404"; "unavailable"; "no longer available"] error_str
  then ALTERNATIVE
  else if any_in ["insufficient funds"; "invalid"; "rejected"; "declined"] error_str
  then HUMAN_ESCALATE
  else if any_in ["temporarily"; "unavailable"; "maintenance"; "busy"] error_str
  then EXPONENTIAL
  else EXPONENTIAL.

(** [_calculate_delay]; only the exponential strategy draws a random
    number. The code computes in floats; the rationals here give the
    same value only up to rounding, and attempts at which the code's float
    arithmetic overflows are outside the embedding. A delay is recorded in
    the trace as the duration of a sleep; no property below depends on its
    value. *)
Definition _calculate_delay (env : Env) (cb : CircuitBreaker.t)
    (strategy : RetryStrategy) (attempt : nat) (t : nat) : Q :=
  match strategy with
  | IMMEDIATE => 1 # 2
  | EXPONENTIAL =>
      let delay := (inject_Z (2 ^ Z.of_nat attempt) * base_delay)%Q in
      let jitter := (delay * (1 # 4) * (2 * random_random env t - 1))%Q in
      (delay + jitter)%Q
  | LINEAR => (inject_Z (Z.of_nat attempt) * base_delay)%Q
  | CIRCUIT_BREAK => CircuitBreaker.recovery_timeout cb
  | _ => base_delay
  end.

(** The [HumanInterruptionRequired] built on escalation. *)
Definition escalation (step : ExecutionStep) (attempt : nat) (e : Exn)
    (ctx : gmap string PyVal) : Exn :=
  HumanInterruptionRequired
    ("Step failed after " ++ str_of_Z (Z.of_nat attempt + 1) ++ " attempts: " ++ exn_str e)
    [("step", VStr (id step)); ("error", VStr (exn_str e));
     ("context", VDict (map_to_list ctx))].

(** [str(last_error)], ["None"] while no attempt has failed. *)
Definition str_last_error (last_error : option Exn) : string :=
  match last_error with Some e => exn_str e | None => "None" end.

(** The [for attempt in range(step.max_retries + 1)] loop, from
    iteration [attempt] on, with [n] iterations left. *)
Fixpoint retry_loop (env : Env) (executor : Executor) (service_name : string)
    (ctx : gmap string PyVal) (n attempt : nat) (last_error : option Exn)
    (step : ExecutionStep) (w : World)
  : Result RetryResult * ExecutionStep * World :=
  match n with
  | O => (Ok (Exhausted (str_last_error last_error) (max_retries step + 1)), step, w)
  | S n' =>
      let step := step_set_retry_count step (Z.of_nat attempt) in
      let '(is_open, cb) :=
        CircuitBreaker.is_open (breaker w) (clock env (tick w)) service_name in
      let w := next_tick (set_breaker w cb) in
      let w := if is_open
               then log w (EvBreakerWait service_name (CircuitBreaker.recovery_timeout cb))
               else w in
      let w := log w (EvAttempt (id step) attempt) in
      match executor step ctx w with
      | (Ok r, step, w) =>
          let w := set_breaker w (CircuitBreaker.record_success (breaker w) service_name) in
          (Ok (Success r (Z.of_nat attempt + 1)), step, w)
      | (Raise (HumanInterruptionRequired reason data), step, w) =>
          (Raise (HumanInterruptionRequired reason data), step, w)
      | (Raise e, step, w) =>
          let cb := CircuitBreaker.record_failure (breaker w) (clock env (tick w))
                      service_name in
          let w := next_tick (set_breaker w cb) in
          let strategy := _select_strategy (exn_str e) attempt in
          match strategy with
          | HUMAN_ESCALATE => (Raise (escalation step attempt e ctx), step, w)
          | ALTERNATIVE => (Ok (NeedsReplan (exn_str e) (Z.of_nat attempt + 1)), step, w)
          | _ =>
              let w :=
                if Z.of_nat attempt <? max_retries step
                then
                  let delay := _calculate_delay env (breaker w) strategy attempt (tick w) in
                  log (next_tick w) (EvRetrySleep strategy attempt delay)
                else w in
              retry_loop env executor service_name ctx n' (S attempt) (Some e) step w
          end
      end
  end.

Definition execute_with_retry (env : Env) (step : ExecutionStep)
    (executor : Executor) (ctx : gmap string PyVal) (w : World)
  : Result RetryResult * ExecutionStep * World :=
  retry_loop env executor (action_type step) ctx
             (Z.to_nat (max_retries step + 1)) 0 None step w.

End RetryEngine.

(* ===================================================================== *)
(** ** [repr] and [str] of Python values *)
(* ===================================================================== *)

Definition hex_digit (n : nat) : ascii :=
  match n with
  | 0 => "0" | 1 => "1" | 2 => "2" | 3 => "3" | 4 => "4" | 5 => "5" | 6 => "6"
  | 7 => "7" | 8 => "8" | 9 => "9" | 10 => "a" | 11 => "b" | 12 => "c"
  | 13 => "d" | 14 => "e" | _ => "f"
  end%nat%char.

Definition backslash : ascii := ascii_of_nat 92.
Definition dquote : ascii := ascii_of_nat 34.
Definition squote : ascii := ascii_of_nat 39.

Definition str1 (c : ascii) : string := String c EmptyString.

(** One character inside a quoted [repr], [q] being the chosen quote. *)
Definition repr_char (q : ascii) (c : ascii) : string :=
  let n := nat_of_ascii c in
  if (Ascii.eqb c q || Ascii.eqb c backslash)%bool then String backslash (str1 c)
  else if (n =? 9)%nat then String backslash "t"
  else if (n =? 10)%nat then String backslash "n"
  else if (n =? 13)%nat then String backslash "r"
  else if ((n <? 32) || (n =? 127))%nat%bool
  then String backslash (String "x" (String (hex_digit (n / 16)) (str1 (hex_digit (n mod 16)))))
  else str1 c.

Fixpoint repr_chars (q : ascii) (s : string) : string :=
  match s with
  | EmptyString => EmptyString
  | String c s' => repr_char q c ++ repr_chars q s'
  end.

(** [repr(s)] for a string: single quotes, unless the string has a single
    quote and no double quote. *)
Definition py_repr_str (s : string) : string :=
  let q := if (str_in (str1 squote) s && negb (str_in (str1 dquote) s))%bool
           then dquote else squote in
  String q (repr_chars q s ++ str1 q).

(** [", ".join(l)] *)
Fixpoint join_comma (l : list string) : string :=
  match l with
  | [] => EmptyString
  | [x] => x
  | x :: l' => x ++ ", " ++ join_comma l'
  end.

(** [repr(l)] for a list whose items are already rendered. *)
Definition py_repr_list (items : list string) : string :=
  "[" ++ join_comma items ++ "]".

Fixpoint py_repr (v : PyVal) : string :=
  match v with
  | VNone => "None"
  | VBool b => if b then "True" else "False"
  | VInt z => str_of_Z z
  | VStr s => py_repr_str s
  | VList l => py_repr_list (map py_repr l)
  | VDict d =>
      "{" ++ join_comma
               ((fix entries (d : PyDict) : list string :=
                   match d with
                   | [] => []
                   | (k, x) :: d' => (py_repr_str k ++ ": " ++ py_repr x) :: entries d'
                   end) d) ++ "}"
  end.

(** [str(v)] *)
Definition py_str (v : PyVal) : string :=
  match v with
  | VStr s => s
  | _ => py_repr v
  end.

(* ===================================================================== *)
(** ** executor.py: ExecutorEngine *)
(* ===================================================================== *)

(** The regex class [\w], ASCII: letters, digits and the underscore. *)
Definition is_word_char (c : ascii) : bool :=
  let n := nat_of_ascii c in
  (((48 <=? n) && (n <=? 57)) || ((65 <=? n) && (n <=? 90)) ||
   ((97 <=? n) && (n <=? 122)) || (n =? 95))%nat%bool.

(** The longest prefix of word characters, and what follows it. *)
Fixpoint span_word (s : string) : string * string :=
  match s with
  | EmptyString => (EmptyString, EmptyString)
  | String c s' =>
      if is_word_char c
      then let '(w, r) := span_word s' in (String c w, r)
      else (EmptyString, s)
  end.

(** [s.endswith(p)] *)
Definition endswith (s p : string) : bool :=
  let ls := String.length s in
  let lp := String.length p in
  ((lp <=? ls)%nat && String.eqb (String.substring (ls - lp) lp s) p)%bool.

(** [value[2:-2]] *)
Definition slice_2_m2 (s : string) : string :=
  String.substring 2 (String.length s - 4) s.

(** A match of [\{\{(\w+)\}\}] at the head of [s]: group 1 and the text
    after the match. The greedy [\w+] takes the whole run of word
    characters; a shorter run is followed by a word character, never by a
    closing brace, so backtracking finds nothing more. *)
Definition match_template (s : string) : option (string * string) :=
  match s with
  | String "{" (String "{" s1) =>
      match span_word s1 with
      | (String c w, String "}" (String "}" rest)) => Some (String c w, rest)
      | _ => None
      end
  | _ => None
  end.

(** A match consumes at least one character: the scan below terminates. *)
Lemma span_word_length (s a b : string) :
  span_word s = (a, b) -> (String.length a + String.length b = String.length s)%nat.
Proof.
  revert a b. induction s as [|c s IH]; simpl; intros a b H.
  - inversion H; reflexivity.
  - destruct (is_word_char c).
    + destruct (span_word s) as [a' b'] eqn:E. inversion H; subst.
      simpl. rewrite (IH _ _ eq_refl). reflexivity.
    + inversion H; subst. reflexivity.
Qed.

Lemma match_template_shape (s w rest : string) :
  match_template s = Some (w, rest) ->
  exists s1, s = "{{" ++ s1 /\ span_word s1 = (w, "}}" ++ rest) /\ w <> EmptyString.
Proof.
  unfold match_template. intros H.
  destruct s as [|c s]; [discriminate|].
  destruct c as [[] [] [] [] [] [] [] []]; try discriminate.
  destruct s as [|c1 s1]; [discriminate|].
  destruct c1 as [[] [] [] [] [] [] [] []]; try discriminate.
  destruct (span_word s1) as [w0 r0] eqn:Hs.
  destruct w0 as [|c0 w0]; [discriminate|].
  destruct r0 as [|d0 r0]; [discriminate|].
  destruct d0 as [[] [] [] [] [] [] [] []]; try discriminate.
  destruct r0 as [|d1 r1]; [discriminate|].
  destruct d1 as [[] [] [] [] [] [] [] []]; try discriminate.
  inversion H; subst. exists s1. repeat split; [exact Hs | discriminate].
Qed.

Lemma match_template_shorter (s w rest : string) :
  match_template s = Some (w, rest) -> (String.length rest < String.length s)%nat.
Proof.
  intros H. destruct (match_template_shape _ _ _ H) as (s1 & -> & Hs & _).
  apply span_word_length in Hs. simpl in *. lia.
Qed.

Section Resolve.

Variable ctx : gmap string PyVal.

(** [replace_var(match)]: [str(context.get(var_name, match.group(0)))]. *)
Definition replace_var (var_name : string) : string :=
  py_str (default (VStr ("{{" ++ var_name ++ "}}")) (ctx !! var_name)).

(** [re.sub(r'\{\{(\w+)\}\}', replace_var, s)]: leftmost matches, not
    overlapping, scanning resumes after each match. *)
Equations? re_sub (s : string) : string by wf (String.length s) lt :=
  re_sub EmptyString := EmptyString;
  re_sub (String c s') with inspect (match_template (String c s')) := {
    | exist _ (Some (w, rest)) Hm => replace_var w ++ re_sub rest;
    | exist _ None _ => String c (re_sub s') }.
Proof. exact (match_template_shorter (String c s') w rest Hm). Defined.

(** One string value of a parameter dictionary. *)
Definition resolve_str (value : string) : PyVal :=
  if (startswith value "{{" && endswith value "}}")%bool
  then opt_val (ctx !! slice_2_m2 value)
  else if (str_in "{{" value && str_in "}}" value)%bool
  then VStr (re_sub value)
  else VStr value.

(** One item of a list value: only a whole-string template is resolved. *)
Definition resolve_item (item : PyVal) : PyVal :=
  match item with
  | VStr s =>
      if (startswith s "{{" && endswith s "}}")%bool
      then opt_val (ctx !! slice_2_m2 s)
      else item
  | _ => item
  end.

(** One value of a parameter dictionary; nested dictionaries recurse. *)
Fixpoint resolve_value (value : PyVal) : PyVal :=
  match value with
  | VStr s => resolve_str s
  | VDict d =>
      VDict ((fix entries (d : PyDict) : PyDict :=
                match d with
                | [] => []
                | (k, x) :: d' => (k, resolve_value x) :: entries d'
                end) d)
  | VList l => VList (map resolve_item l)
  | _ => value
  end.

(** [_resolve_parameters(params, context)] *)
Definition _resolve_parameters (params : PyDict) : PyDict :=
  map (fun kv => (kv.1, resolve_value kv.2)) params.

End Resolve.

Module ExecutorEngine.

(** [result.get("context_updates", {})]: the entry as it is, whatever
    its type. *)
Definition context_updates_of (res : PyDict) : PyVal :=
  default (VDict []) (dict_get res "context_updates").

(** [execute_step(step, context)]. The registry is asked for the handler
    first; when it has one, the handler is called once with the resolved
    parameters. The step object comes back with its new [status],
    [result] and [error]. *)
Definition execute_step (env : Env) : Executor :=
  fun step ctx w =>
    let step := step_set_status step STEP_IN_PROGRESS in
    let params := _resolve_parameters ctx (parameters step) in
    let out := tool env (action_type step) params (tick w) in
    let w := match out with
             | HUnknownTool => w
             | _ => log w (EvHandler (action_type step) params)
             end in
    let w := next_tick w in
    match out with
    | HReturn res =>
        let step := step_set_result (step_set_status step STEP_COMPLETED)
                                    (Some (VDict res)) in
        (Ok (mkExecResult res (context_updates_of res)), step, w)
    | HTimeout =>
        let step := step_set_error (step_set_status step STEP_FAILED)
                                   (Some "Step execution timed out (5 minutes)") in
        (Raise (ExecutionError ("Step " ++ id step ++ " timed out")), step, w)
    | HInterrupt reason data =>
        (Raise (HumanInterruptionRequired reason data), step, w)
    | HFail msg =>
        let step := step_set_error (step_set_status step STEP_FAILED) (Some msg) in
        (Raise (ExecutionError ("Step " ++ id step ++ " failed: " ++ msg)), step, w)
    | HUnknownTool =>
        let msg := "Tool '" ++ action_type step ++ "' not found" in
        let step := step_set_error (step_set_status step STEP_FAILED) (Some msg) in
        (Raise (ExecutionError ("Step " ++ id step ++ " failed: " ++ msg)), step, w)
    end.

(** What [execute_plan] returns: the success or the batch-failure
    dictionary. *)
Inductive PlanResult : Type :=
| PlanSuccess (completed_steps : nat)
| PlanFailure (failed_step : nat) (error : Exn) (step_index : nat).

(** [{step.id: i for i, step in enumerate(plan)}]: for a repeated id the
    last position wins. *)
Definition step_index_map (plan : list ExecutionStep) : gmap string nat :=
  foldl (fun m '(i, s) => <[id s := i]> m) ∅ (imap pair plan).

(** The condition of the [ready_steps] comprehension. *)
Definition is_ready (completed_steps : gset string) (s : ExecutionStep) : bool :=
  (negb (bool_decide (id s ∈ completed_steps))
   && negb (bool_decide (status s = STEP_COMPLETED))
   && forallb (fun dep => bool_decide (dep ∈ completed_steps)) (dependencies s))%bool.

(** Positions, in plan order, of the steps selected by a comprehension
    over [plan]. Steps are objects shared with the plan, so a selection
    is kept as positions. *)
Definition positions (p : ExecutionStep -> bool) (plan : list ExecutionStep) : list nat :=
  map fst (filter (fun '(_, s) => p s = true) (imap pair plan)).

Definition ready_steps (plan : list ExecutionStep) (completed_steps : gset string)
  : list nat :=
  positions (is_ready completed_steps) plan.

(** [pending]: the steps whose id is not in [completed_steps]. *)
Definition pending (plan : list ExecutionStep) (completed_steps : gset string)
  : list ExecutionStep :=
  filter (fun s => id s ∉ completed_steps) plan.

(** [f"{s.id} (depends on: {s.dependencies})"] *)
Definition pending_info (s : ExecutionStep) : string :=
  id s ++ " (depends on: " ++ py_repr_list (map py_repr_str (dependencies s)) ++ ")".

(** [f"Deadlock detected: {pending_info}"] *)
Definition deadlock_message (infos : list string) : string :=
  "Deadlock detected: " ++ py_repr_list (map py_repr_str infos).

(** [asyncio.gather] with [return_exceptions=True] over the ready
    steps: every member runs [execute_step] against the shared context,
    raised exceptions are collected as results. The members are run one
    after the other, in list order. *)
Fixpoint gather (env : Env) (ctx : gmap string PyVal) (ready : list nat)
    (plan : list ExecutionStep) (w : World)
  : list (nat * Result ExecResult) * list ExecutionStep * World :=
  match ready with
  | [] => ([], plan, w)
  | i :: ready' =>
      match plan !! i with
      | None => gather env ctx ready' plan w
      | Some step =>
          let '(r, step', w1) := execute_step env step ctx w in
          let '(rs, plan', w2) := gather env ctx ready' (<[i := step']> plan) w1 in
          ((i, r) :: rs, plan', w2)
      end
  end.

(** The mutable state of one [execute_plan] call. *)
Record PlanState : Type := mkPlanState {
  ps_plan : list ExecutionStep;
  ps_context : gmap string PyVal;
  ps_completed : gset string;
  ps_world : World
}.

Definition callback (progress_callback : bool) (w : World) (kind : string) : World :=
  if progress_callback then log w (EvBroadcast kind) else w.

(** The [for (step, _), result in zip(tasks, results)] loop. [Some (Ok r)]
    is the early [return] of the failure dictionary, [Some (Raise e)] the
    exception of a [context.update] that cannot merge the updates of a
    returned result: the step's id is already in [completed_steps] then,
    and the progress callback has not been called for it. *)
Fixpoint process_results (progress_callback : bool)
    (results : list (nat * Result ExecResult)) (st : PlanState)
  : option (Result PlanResult) * PlanState :=
  match results with
  | [] => (None, st)
  | (i, r) :: results' =>
      match ps_plan st !! i with
      | None => process_results progress_callback results' st
      | Some step =>
          let step_index := default 0%nat (step_index_map (ps_plan st) !! id step) in
          match r with
          | Raise e =>
              let step' := step_set_error (step_set_status step STEP_FAILED)
                                          (Some (exn_str e)) in
              let w := callback progress_callback (ps_world st) "step_failed" in
              (Some (Ok (PlanFailure i e step_index)),
               mkPlanState (<[i := step']> (ps_plan st)) (ps_context st)
                           (ps_completed st) w)
          | Ok res =>
              let completed := {[id step]} ∪ ps_completed st in
              match dict_update (ps_context st) (er_context_updates res) with
              | (Raise e, ctx) =>
                  (Some (Raise e),
                   mkPlanState (ps_plan st) ctx completed (ps_world st))
              | (Ok _, ctx) =>
                  let w := callback progress_callback (ps_world st) "step_complete" in
                  process_results progress_callback results'
                    (mkPlanState (ps_plan st) ctx completed w)
              end
          end
      end
  end.

(** The [while len(completed_steps) < len(plan)] loop; [None] when the
    fuel runs out before the loop ends. *)
Fixpoint plan_loop (fuel : nat) (env : Env) (progress_callback : bool)
    (st : PlanState) : option (Result PlanResult * PlanState) :=
  match fuel with
  | O => None
  | S fuel' =>
      if (size (ps_completed st) <? length (ps_plan st))%nat
      then
        match ready_steps (ps_plan st) (ps_completed st) with
        | [] =>
            match pending (ps_plan st) (ps_completed st) with
            | [] => Some (Ok (PlanSuccess (size (ps_completed st))), st)
            | pend =>
                Some (Raise (ExecutionError
                               (deadlock_message (map pending_info pend))), st)
            end
        | ready =>
            let '(results, plan1, w1) :=
              gather env (ps_context st) ready (ps_plan st) (ps_world st) in
            let st1 := mkPlanState plan1 (ps_context st) (ps_completed st) w1 in
            match process_results progress_callback results st1 with
            | (Some r, st2) => Some (r, st2)
            | (None, st2) => plan_loop fuel' env progress_callback st2
            end
        end
      else Some (Ok (PlanSuccess (size (ps_completed st))), st)
  end.

(** [execute_plan(plan, context, progress_callback)] *)
Definition execute_plan (fuel : nat) (env : Env) (plan : list ExecutionStep)
    (ctx : gmap string PyVal) (progress_callback : bool) (w : World)
  : option (Result PlanResult * PlanState) :=
  plan_loop fuel env progress_callback (mkPlanState plan ctx ∅ w).

(** What [execute_step_at_index] returns: [{"success": True, "result": ...}]
    or [{"success": False, "error": ...}]. *)
Inductive AtIndexResult : Type :=
| AtIndexOk (result : ExecResult)
| AtIndexError (error : string).

(** [task.plan[step_index]] for a Python integer index below [len]: a
    negative index counts from the end, [IndexError] below [-len]. *)
Definition plan_position (plan : list ExecutionStep) (step_index : Z) : option nat :=
  if step_index <? 0
  then (if 0 <=? Z.of_nat (length plan) + step_index
        then Some (Z.to_nat (Z.of_nat (length plan) + step_index)) else None)
  else Some (Z.to_nat step_index).

(** [execute_step_at_index(task, step_index, progress_callback)] *)
Definition execute_step_at_index (env : Env) (task : TaskState) (step_index : Z)
    (progress_callback : bool) (w : World)
  : Result AtIndexResult * TaskState * World :=
  if Z.of_nat (length (plan task)) <=? step_index
  then (Ok (AtIndexError "Step index out of range"), task, w)
  else
    match plan_position (plan task) step_index with
    | None => (Raise (OtherError "list index out of range"), task, w)
    | Some pos =>
        match plan task !! pos with
        | None => (Raise (OtherError "list index out of range"), task, w)
        | Some step =>
            let '(r, step', w) := execute_step env step (context task) w in
            let task := set_plan task (<[pos := step']> (plan task)) in
            match r with
            | Ok res =>
                match dict_update (context task) (er_context_updates res) with
                | (Ok _, ctx) =>
                    (Ok (AtIndexOk res), set_context task ctx,
                     callback progress_callback w "step_complete")
                | (Raise e, ctx) =>
                    (Ok (AtIndexError (exn_str e)), set_context task ctx,
                     callback progress_callback w "step_failed")
                end
            | Raise e =>
                (Ok (AtIndexError (exn_str e)), task,
                 callback progress_callback w "step_failed")
            end
        end
    end.

End ExecutorEngine.

(* ===================================================================== *)
(** ** orchestrator.py: AgentOrchestrator *)
(* ===================================================================== *)

Module AgentOrchestrator.

(** A run of the driver: [None] when the fuel ran out, otherwise how the
    call ended, the world and the task object after it. *)
Definition Run : Type := option (Result unit * World * TaskState).

Definition _broadcast_update (w : World) (kind : string) : World :=
  log w (EvBroadcast kind).

(** [state_manager.save_state(task)] *)
Definition save_state (w : World) : World := log w EvSave.

(** [_transition_state(task, new_state)] *)
Definition _transition_state (task : TaskState) (new_state : TaskStatus)
  : Result unit * TaskState :=
  let allowed := default [] (STATE_TRANSITIONS (task_status task)) in
  if bool_decide (new_state ∈ allowed)
  then (Ok tt, set_status task new_state)
  else (Raise (StateTransitionError
                 ("Invalid transition: " ++ status_value (task_status task)
                  ++ " → " ++ status_value new_state)), task).

(** [d[k] = v] on an association list. *)
Fixpoint dict_set (d : PyDict) (k : string) (v : PyVal) : PyDict :=
  match d with
  | [] => [(k, v)]
  | (k', v') :: d' =>
      if String.eqb k' k then (k, v) :: d' else (k', v') :: dict_set d' k v
  end.

(** The dictionary returned by the validator. *)
Definition validation_dict (v : Validation) : PyDict :=
  ("completed", VBool (completed v)) ::
  ("needs_more_work", VBool (needs_more_work v)) :: v_rest v.

Definition forced_note : string := "Forced completion after max retries".

(** [_build_result_summary(task)]; in the healthcare branch the chained
    [.get] raises [AttributeError] on a truthy value that is no [dict]. *)
Definition _build_result_summary (task : TaskState) : Result PyDict :=
  let ctx := context task in
  let get k := opt_val (ctx !! k) in
  let summary :=
    [("task_id", VStr (task_id task));
     ("goal", match outcome task with
              | Some o => VStr (original_goal o)
              | None => get "goal"
              end);
     ("domain", VStr (match outcome task with Some o => domain o | None => "unknown" end));
     ("total_steps", VInt (Z.of_nat (length (plan task))));
     ("completed_steps",
       VInt (Z.of_nat (length (filter (fun s => status s = STEP_COMPLETED) (plan task)))))] in
  match outcome task with
  | None => Ok summary
  | Some o =>
      if String.eqb (domain o) "travel" then
        Ok (summary ++
            [("confirmation_number", get "confirmation_number");
             ("flight_details", get "confirmation_details");
             ("amount_paid", get "amount_paid");
             ("calendar_updated", default (VBool false) (ctx !! "calendar_updated"))])%list
      else if String.eqb (domain o) "healthcare" then
        let details := get "appointment_details" in
        let provider :=
          if truthy details
          then match details with
               | VDict d => Ok (opt_val (dict_get d "provider"))
               | _ => Raise (OtherError "AttributeError")
               end
          else Ok VNone in
        match provider with
        | Raise e => Raise e
        | Ok p =>
            Ok (summary ++
                [("appointment_id", get "appointment_id");
                 ("appointment_details", details);
                 ("provider", p)])%list
        end
      else if String.eqb (domain o) "business" then
        Ok (summary ++
            [("approvals_obtained", default (VBool true) (ctx !! "approvals_obtained"));
             ("final_action", default (VStr "completed") (ctx !! "final_action"))])%list
      else Ok summary
  end.

(** [_notify_completion(task, validation)] *)
Definition _notify_completion (w : World) (task : TaskState) (validation : PyDict)
  : Run :=
  match _build_result_summary task with
  | Raise e => Some (Raise e, w, task)
  | Ok result_summary =>
      let ctx := <["validation_result" := VDict validation]>
                   (<["final_result" := VDict result_summary]> (context task)) in
      Some (Ok tt, _broadcast_update w "completed", set_context task ctx)
  end.

(** [_notify_failure(task, error)] *)
Definition _notify_failure (w : World) : World := _broadcast_update w "failed".

(** [_handle_interruption(task, e)] for [e] carrying [reason], [data]. *)
Definition _handle_interruption (w : World) (task : TaskState)
    (reason : string) (data : PyDict) : World * TaskState :=
  let task :=
    match _transition_state task INTERRUPTED with
    | (Ok _, task') => task'
    | (Raise _, task') => set_status task' INTERRUPTED
    end in
  let task := set_interrupt task (Some reason) (Some data) in
  (_broadcast_update (save_state w) "interrupted", task).

(** [_request_clarification(task, question)] *)
Definition _request_clarification (w : World) (task : TaskState) (question : PyVal)
  : World * TaskState :=
  let task := set_status task INTERRUPTED in
  let task := set_interrupt task (Some "clarification_needed")
                            (Some [("question", question)]) in
  (_broadcast_update (save_state w) "interrupted", task).

(** The integer read by [replan_count >= 3] and [replan_count + 1];
    [None] when the stored value supports neither. *)
Definition replan_count_of (ctx : gmap string PyVal) : option Z :=
  match ctx !! "_replan_count" with
  | None => Some 0
  | Some (VInt n) => Some n
  | Some (VBool b) => Some (if b then 1 else 0)
  | Some _ => None
  end.

(** [f"{validation['confidence']:.2%}"], evaluated for the report printed
    once the validator has answered: [KeyError] when the verdict has no
    such entry, [TypeError] or [ValueError] when the entry is no number. *)
Definition format_confidence (validation : Validation) : Result unit :=
  match dict_get (v_rest validation) "confidence" with
  | None => Raise (OtherError "'confidence'")
  | Some (VInt _) | Some (VBool _) => Ok tt
  | Some VNone =>
      Raise (OtherError "unsupported format string passed to NoneType.__format__")
  | Some (VStr _) =>
      Raise (OtherError "Unknown format code '%' for object of type 'str'")
  | Some (VList _) =>
      Raise (OtherError "unsupported format string passed to list.__format__")
  | Some (VDict _) =>
      Raise (OtherError "unsupported format string passed to dict.__format__")
  end.

(** [_validate_and_complete(task)]; [rec] is the recursive call
    [self._execute_plan(task)]. *)
Definition _validate_and_complete (rec : World -> TaskState -> Run)
    (env : Env) (w : World) (task : TaskState) : Run :=
  match _transition_state task VALIDATING with
  | (Raise e, task) => Some (Raise e, w, task)
  | (Ok _, task) =>
      let w := log (_broadcast_update w "status_change") EvValidate in
      let r := validate_completion env (outcome task) (context task) (history task)
                                   (tick w) in
      let w := next_tick w in
      match r with
      | Raise e => Some (Raise e, w, task)
      | Ok validation =>
          match format_confidence validation with
          | Raise e => Some (Raise e, w, task)
          | Ok _ =>
          if completed validation then
            match _transition_state task COMPLETED with
            | (Raise e, task) => Some (Raise e, w, task)
            | (Ok _, task) => _notify_completion w task (validation_dict validation)
            end
          else
            match replan_count_of (context task) with
            | None => Some (Raise (OtherError "TypeError"), w, task)
            | Some replan_count =>
                if 3 <=? replan_count then
                  match _transition_state task COMPLETED with
                  | (Raise e, task) => Some (Raise e, w, task)
                  | (Ok _, task) =>
                      _notify_completion w task
                        (dict_set (validation_dict validation) "note" (VStr forced_note))
                  end
                else if needs_more_work validation then
                  let task := set_context task
                                (<["_replan_count" := VInt (replan_count + 1)]>
                                   (context task)) in
                  let w := log w EvCreatePlan in
                  let p := create_plan env (outcome task) (context task) (tick w) in
                  let w := next_tick w in
                  match p with
                  | Raise e => Some (Raise e, w, task)
                  | Ok new_steps =>
                      let task := set_plan task (plan task ++ new_steps)%list in
                      let task := set_status task EXECUTING in
                      rec (save_state w) task
                  end
                else
                  match _transition_state task FAILED with
                  | (Raise e, task) => Some (Raise e, w, task)
                  | (Ok _, task) => Some (Ok tt, _notify_failure w, task)
                  end
            end
          end
      end
  end.

(** [_execute_plan(task)]: one unit of fuel per iteration of the [while]
    loop and per recursive call through [_validate_and_complete]. *)
Fixpoint _execute_plan (fuel : nat) (env : Env) (w : World) (task : TaskState) : Run :=
  match fuel with
  | O => None
  | S fuel' =>
      let step_idx := current_step_index task in
      match plan task !! step_idx with
      | None => _validate_and_complete (_execute_plan fuel' env) env w task
      | Some step =>
          if bool_decide (status step = STEP_COMPLETED)
          then _execute_plan fuel' env w (set_index task (S step_idx))
          else
            let '(r, step', w) :=
              RetryEngine.execute_with_retry env step (ExecutorEngine.execute_step env)
                                             (context task) w in
            let task := set_plan task (<[step_idx := step']> (plan task)) in
            match r with
            | Raise e => Some (Raise e, w, task)
            | Ok (RetryEngine.Success res _) =>
                match dict_update (context task) (er_context_updates res) with
                | (Raise e, ctx) => Some (Raise e, w, set_context task ctx)
                | (Ok _, ctx) =>
                    let task := set_context task ctx in
                    let task := set_history task
                                  (history task ++
                                   [mkHistory step_idx (action_type step') "success"])%list in
                    let w := _broadcast_update w "step_complete" in
                    let task := set_index task (S step_idx) in
                    _execute_plan fuel' env (save_state w) task
                end
            | Ok (RetryEngine.NeedsReplan err _) =>
                let w := log w (EvReplan step_idx err) in
                let p := replan env task step_idx err (tick w) in
                let w := next_tick w in
                match p with
                | Raise e => Some (Raise e, w, task)
                | Ok new_plan =>
                    _execute_plan fuel' env (save_state w) (set_plan task new_plan)
                end
            | Ok (RetryEngine.Exhausted err _) =>
                Some (Raise (OtherError
                               ("Step " ++ str_of_Z (Z.of_nat step_idx + 1)
                                ++ " exhausted all retries: " ++ err)), w, task)
            end
      end
  end.

(** The [except] clauses and the [finally] of [_process_task], applied
    to how its [try] block ended. *)
Definition process_handlers (r : Result unit * World * TaskState)
  : World * TaskState :=
  let '(res, w, task) := r in
  let '(w, task) :=
    match res with
    | Ok _ => (w, task)
    | Raise (HumanInterruptionRequired reason data) =>
        _handle_interruption w task reason data
    | Raise (StateTransitionError _) => (_notify_failure w, task)
    | Raise _ =>
        let task :=
          match _transition_state task FAILED with
          | (Ok _, task') => task'
          | (Raise _, task') => set_status task' FAILED
          end in
        (_notify_failure w, task)
    end in
  (save_state w, task).

(** The [try] block of [_process_task]. *)
Definition process_body (fuel : nat) (env : Env) (w : World) (task : TaskState) : Run :=
  match _transition_state task ANALYZING with
  | (Raise e, task) => Some (Raise e, w, task)
  | (Ok _, task) =>
      let w := _broadcast_update w "status_change" in
      match context task !! "goal" with
      | None => Some (Raise (OtherError "KeyError: 'goal'"), w, task)
      | Some goal =>
          let w := log w EvInterpret in
          let o := interpret env goal (context task) (tick w) in
          let w := next_tick w in
          match o with
          | Raise e => Some (Raise e, w, task)
          | Ok oc =>
              let task := set_outcome task (Some oc) in
              if truthy (opt_val (dict_get (constraints oc) "needs_clarification"))
              then
                let '(w, task) :=
                  _request_clarification w task
                    (opt_val (dict_get (constraints oc) "clarification_question")) in
                Some (Ok tt, w, task)
              else
                let w := save_state w in
                match _transition_state task PLANNING with
                | (Raise e, task) => Some (Raise e, w, task)
                | (Ok _, task) =>
                    let w := log (_broadcast_update w "status_change") EvCreatePlan in
                    let p := create_plan env (outcome task) (context task) (tick w) in
                    let w := next_tick w in
                    match p with
                    | Raise e => Some (Raise e, w, task)
                    | Ok new_plan =>
                        let task := set_plan task new_plan in
                        let w := save_state w in
                        match _transition_state task EXECUTING with
                        | (Raise e, task) => Some (Raise e, w, task)
                        | (Ok _, task) =>
                            _execute_plan fuel env
                              (_broadcast_update w "status_change") task
                        end
                    end
                end
          end
      end
  end.

(** [_process_task], for a task present in the store. *)
Definition _process_task (fuel : nat) (env : Env) (w : World) (task : TaskState)
  : option (World * TaskState) :=
  process_handlers <$> process_body fuel env w task.

(** [_resume_execution], for a task present in the store. *)
Definition _resume_execution (fuel : nat) (env : Env) (w : World) (task : TaskState)
  : option (World * TaskState) :=
  match _execute_plan fuel env (_broadcast_update w "status_change") task with
  | None => None
  | Some (Ok _, w, task) => Some (w, task)
  | Some (Raise (HumanInterruptionRequired reason data), w, task) =>
      Some (_handle_interruption w task reason data)
  | Some (Raise _, w, task) =>
      Some (_notify_failure (save_state w), set_status task FAILED)
  end.

(** What [resume_after_interruption] returns, and the coroutine it
    leaves scheduled with [asyncio.create_task], if any. *)
Inductive ResumeResponse : Type :=
| Resumed
| ResumeError (error : string).

Inductive Scheduled : Type :=
| NothingScheduled
| ScheduledResumeExecution
| ScheduledProcessTask.

(** [current_step.status = COMPLETED; current_step.result = ...;
    task.current_step_index += 1], guarded by the index test. *)
Definition complete_current_step (task : TaskState) (res : PyDict) : TaskState :=
  match plan task !! current_step_index task with
  | None => task
  | Some current_step =>
      let current_step := step_set_result (step_set_status current_step STEP_COMPLETED)
                                          (Some (VDict res)) in
      set_index (set_plan task (<[current_step_index task := current_step]> (plan task)))
                (S (current_step_index task))
  end.

Definition ctx_set (task : TaskState) (k : string) (v : PyVal) : TaskState :=
  set_context task (<[k := v]> (context task)).

(** The tail of [resume_after_interruption], from the comment
    "Clear interruption state" on. *)
Definition resume_tail (w : World) (task : TaskState)
  : ResumeResponse * Scheduled * World * TaskState :=
  let task := set_interrupt task None None in
  match plan task with
  | _ :: _ =>
      (Resumed, ScheduledResumeExecution, save_state w, set_status task EXECUTING)
  | [] =>
      (Resumed, ScheduledProcessTask, save_state w, set_status task PENDING)
  end.

(** [resume_after_interruption], for a task present in the store. *)
Definition resume_after_interruption (w : World) (task : TaskState)
    (user_response : PyDict) : ResumeResponse * Scheduled * World * TaskState :=
  if negb (bool_decide (task_status task = INTERRUPTED))
  then (ResumeError ("Task not interrupted (status: "
                     ++ status_value (task_status task) ++ ")"),
        NothingScheduled, w, task)
  else
    let task := ctx_set task "user_response" (VDict user_response) in
    let approved := truthy (opt_val (dict_get user_response "approved")) in
    if bool_decide (interrupt_reason task = Some "payment_required") then
      if approved then
        let task := ctx_set task "user_payment_method"
                      (default (VStr "default") (dict_get user_response "payment_method")) in
        let task := ctx_set task "payment_approved" (VBool true) in
        let task := complete_current_step task
                      [("approved", VBool true);
                       ("method", opt_val (dict_get user_response "payment_method"))] in
        resume_tail w task
      else
        let task := set_status task FAILED in
        let task := ctx_set task "failure_reason" (VStr "Payment declined by user") in
        (ResumeError "Payment declined", NothingScheduled,
         _notify_failure (save_state w), task)
    else if bool_decide (interrupt_reason task = Some "approval_needed") then
      if approved then
        let task := ctx_set task "approval_response" (VDict user_response) in
        let task := ctx_set task "approval_received" (VBool true) in
        let task := complete_current_step task [("approved", VBool true)] in
        resume_tail w task
      else
        let task := set_status task FAILED in
        (ResumeError "Approval denied", NothingScheduled,
         _notify_failure (save_state w), task)
    else if bool_decide (interrupt_reason task = Some "clarification_needed") then
      let answer := dict_get user_response "answer" in
      let task := ctx_set task "clarification_answer" (opt_val answer) in
      let task := ctx_set task "goal"
                    (VStr (py_str (default (VStr EmptyString) (context task !! "goal"))
                           ++ " - Additional info: "
                           ++ py_str (default (VStr EmptyString) answer))) in
      let task :=
        match plan task !! current_step_index task with
        | Some current_step =>
            if String.eqb (action_type current_step) "request_user_help"
            then complete_current_step task [("user_response", opt_val answer)]
            else task
        | None => task
        end in
      resume_tail w task
    else resume_tail w task.

(** [resume_after_interruption(task_id, user_response)] on the store of
    the state manager: a task that cannot be loaded is answered with an
    error, a loaded one is handled as above and is the stored object. *)
Definition resume_after_interruption_by_id (w : World) (store : gmap string TaskState)
    (the_task_id : string) (user_response : PyDict)
  : ResumeResponse * Scheduled * World * gmap string TaskState :=
  match store !! the_task_id with
  | None => (ResumeError "Task not found", NothingScheduled, w, store)
  | Some task =>
      let '(resp, sched, w, task) := resume_after_interruption w task user_response in
      (resp, sched, w, <[the_task_id := task]> store)
  end.

(** A resume followed by the coroutine it scheduled. *)
Definition resume_and_continue (fuel : nat) (env : Env) (w : World) (task : TaskState)
    (user_response : PyDict) : option (ResumeResponse * World * TaskState) :=
  let '(resp, sched, w, task) := resume_after_interruption w task user_response in
  match sched with
  | NothingScheduled => Some (resp, w, task)
  | ScheduledResumeExecution =>
      (fun '(w, task) => (resp, w, task)) <$> _resume_execution fuel env w task
  | ScheduledProcessTask =>
      (fun '(w, task) => (resp, w, task)) <$> _process_task fuel env w task
  end.

(** The characters removed by [str.strip()] (ASCII): tab, line feed,
    vertical tab, form feed, carriage return, the four separators 28-31 and
    the space. *)
Definition is_space_char (c : ascii) : bool :=
  let n := nat_of_ascii c in
  (((9 <=? n) && (n <=? 13)) || ((28 <=? n) && (n <=? 32)))%nat%bool.

Fixpoint lstrip (s : string) : string :=
  match s with
  | EmptyString => EmptyString
  | String c s' => if is_space_char c then lstrip s' else s
  end.

Fixpoint rstrip (s : string) : string :=
  match s with
  | EmptyString => EmptyString
  | String c s' =>
      match rstrip s' with
      | EmptyString => if is_space_char c then EmptyString else String c EmptyString
      | r => String c r
      end
  end.

(** [s.strip()] *)
Definition strip (s : string) : string := rstrip (lstrip s).

(** [create_task(user_id, goal, context)]: [new_id] is the [uuid4] drawn
    for the task; a [None] context is an empty one. On success the task is
    saved and [_process_task] is left scheduled. *)
Definition create_task (new_id user_id goal : string)
    (ctx : option (gmap string PyVal)) (w : World) : Result TaskState * World :=
  if (String.eqb goal EmptyString || String.eqb (strip goal) EmptyString)%bool
  then (Raise (OtherError "Goal cannot be empty. Please describe what you need done."), w)
  else if (String.length (strip goal) <? 10)%nat
  then (Raise (OtherError "Please provide more details about what you need done."), w)
  else
    let task := mkTask new_id user_id PENDING None [] 0
                       (<["goal" := VStr (strip goal)]> (default ∅ ctx)) [] None None in
    (Ok task, save_state w).

End AgentOrchestrator.

(* ===================================================================== *)
(** ** tools.py: ToolRegistry *)
(* ===================================================================== *)

Module ToolRegistry.

Section Registry.

(** The handlers; the registry is a [dict] from tool name to tool, kept
    with its insertion order, which the fallback search follows. *)
Variable Handler : Type.

Definition t : Type := list (string * Handler).

(** [self.tools.get(name)] *)
Fixpoint get (tools : t) (name : string) : option Handler :=
  match tools with
  | [] => None
  | (n, h) :: tools' => if String.eqb n name then Some h else get tools' name
  end.

(** [register(tool)]: [self.tools[tool.name] = tool]; a name already
    present keeps its place. *)
Fixpoint register (tools : t) (name : string) (h : Handler) : t :=
  match tools with
  | [] => [(name, h)]
  | (n, h') :: tools' =>
      if String.eqb n name then (name, h) :: tools'
      else (n, h') :: register tools' name h
  end.

(** The condition of the fallback search. *)
Definition similar (tool_name name : string) : bool :=
  (str_in tool_name name || str_in name tool_name)%bool.

(** [get_handler(tool_name)]: the exact entry, else the first registered
    tool whose name contains the requested one or is contained in it, else
    [ValueError]. *)
Definition get_handler (tools : t) (tool_name : string) : Result Handler :=
  match get tools tool_name with
  | Some h => Ok h
  | None =>
      match find (fun entry => similar tool_name entry.1) tools with
      | Some entry => Ok entry.2
      | None => Raise (OtherError ("Tool '" ++ tool_name ++ "' not found"))
      end
  end.

End Registry.

End ToolRegistry.

(* ===================================================================== *)
(** ** planner.py: PlannerEngine.replan *)
(* ===================================================================== *)

Module PlannerEngine.

(** The replacement step built by [replan]; [new_id] is the [uuid4] drawn
    for it. *)
Definition alternative_step (new_id : string) (completed_steps : list ExecutionStep)
    (failed_step : ExecutionStep) (error : string) : ExecutionStep :=
  mkStep new_id
         ("Ask user for valid inputs to proceed. Error: " ++ error)
         "request_user_help"
         [("error", VStr error);
          ("step_description", VStr (description failed_step));
          ("original_params", VDict (parameters failed_step))]
         (match reverse (id <$> filter (fun s => status s = STEP_COMPLETED)
                                       completed_steps) with
          | [] => []
          | last_id :: _ => [last_id]
          end)
         STEP_PENDING None None 0 2.

(** The copy of a later step, its dependencies on the failed step
    re-pointed to the replacement. *)
Definition rewire (old_failed_id new_help_id : string) (step : ExecutionStep)
  : ExecutionStep :=
  mkStep (id step) (description step) (action_type step) (parameters step)
         (if bool_decide (old_failed_id ∈ dependencies step)
          then (fun d => if String.eqb d old_failed_id then new_help_id else d)
                 <$> dependencies step
          else dependencies step)
         (status step) (result step) (error step) (retry_count step) (max_retries step).

(** [replan(task_state, failure_point, error)]; [IndexError] when there
    is no step at [failure_point]. *)
Definition replan (new_id : string) (task_state : TaskState) (failure_point : nat)
    (error : string) : Result (list ExecutionStep) :=
  let completed_steps := take failure_point (plan task_state) in
  match plan task_state !! failure_point with
  | None => Raise (OtherError "list index out of range")
  | Some failed_step =>
      Ok (completed_steps
          ++ [alternative_step new_id completed_steps failed_step error]
          ++ (rewire (id failed_step) new_id
                <$> drop (S failure_point) (plan task_state)))%list
  end.

End PlannerEngine.

(* ===================================================================== *)
(** ** Vocabulary of the properties, documented tables and sample inputs *)
(* ===================================================================== *)

Definition sample_task (st : TaskStatus) : TaskState :=
  mkTask "t-1" "u-1" st None [] 0 ∅ [] None None.

(** Five failures of ["search_flights"] at time 0 on a fresh breaker. *)
Definition cb_opened : CircuitBreaker.t :=
  Nat.iter 5 (fun cb => CircuitBreaker.record_failure cb 0 "search_flights")
           CircuitBreaker.init.

(** ... followed by two successes recorded while the breaker is open. *)
Definition cb_flapped : CircuitBreaker.t :=
  CircuitBreaker.record_success
    (CircuitBreaker.record_success cb_opened "search_flights") "search_flights".

Definition w0 : World := mkWorld CircuitBreaker.init 0 [].

Definition sample_step (sid action : string) (deps : list string) : ExecutionStep :=
  mkStep sid ("step " ++ sid) action [] deps STEP_PENDING None None 0 3.

(** A task paused on its payment step, and one paused on an approval. *)
Definition task_awaiting (reason : string) : TaskState :=
  mkTask "t-1" "u-1" INTERRUPTED None
         [sample_step "s6" "request_payment_approval" []] 0
         (<["goal" := VStr "Book a flight to Tokyo next week under $800"]> ∅) []
         (Some reason) (Some [("amount", VInt 680)]).

(** Two verdicts as the validator words them: satisfied with full
    confidence, and not satisfied, asking for more work. *)
Definition verdict_done : Validation :=
  mkValidation true false [("confidence", VInt 1)].

Definition verdict_rework : Validation :=
  mkValidation false true [("confidence", VInt 0)].

(** An environment whose tools all answer [out]: the clock reads the tick
    as seconds, [random.random()] is always 1/2, the validator is
    satisfied and the planner has nothing to add. *)
Definition env_const (out : HandlerOutcome) : Env :=
  mkEnv (fun t => inject_Z (Z.of_nat t)) (fun _ => 1 # 2)
        (fun _ _ _ => out)
        (fun _ _ _ => Raise (OtherError "no interpreter"))
        (fun _ _ _ => Ok [])
        (fun _ _ _ _ => Ok [])
        (fun _ _ _ _ => Ok verdict_done).

(** The number of executions attempted, of handler invocations and of
    back-off sleeps in a trace. *)
Definition count_attempts (tr : list Event) : nat :=
  length (List.filter (fun e => match e with EvAttempt _ _ => true | _ => false end) tr).

Definition count_handler_calls (tr : list Event) : nat :=
  length (List.filter (fun e => match e with EvHandler _ _ => true | _ => false end) tr).

Definition count_retry_sleeps (tr : list Event) : nat :=
  length (List.filter (fun e => match e with EvRetrySleep _ _ _ => true | _ => false end) tr).

(** The classification rules as the design document lists them (section
    4.3, step 4), in their priority order, and the first-match reading of
    the list; compared with [RetryEngine._select_strategy] below. *)
Definition classification_rules : list (list string * (nat -> RetryStrategy)) :=
  [ (["timeout"; "connection"; "network"; "502"; "503"; "504"], fun _ => EXPONENTIAL);
    (["rate limit"; "429"; "too many requests"], fun _ => EXPONENTIAL);
    (["auth"; "unauthorized"; "401"; "403"; "forbidden"],
      fun attempt => if (attempt <? 2)%nat then IMMEDIATE else HUMAN_ESCALATE);
    (["not found"; "404"; "unavailable"; "no longer available"], fun _ => ALTERNATIVE);
    (["insufficient funds"; "invalid"; "rejected"; "declined"], fun _ => HUMAN_ESCALATE);
    (["temporarily"; "unavailable"; "maintenance"; "busy"], fun _ => EXPONENTIAL) ].

Definition classify_first_match (message : string) (attempt : nat) : RetryStrategy :=
  match find (fun rule => any_in rule.1 (lower message)) classification_rules with
  | Some rule => rule.2 attempt
  | None => EXPONENTIAL
  end.

(** A template variable name: a non-empty run of word characters. *)
Fixpoint all_word (s : string) : bool :=
  match s with
  | EmptyString => true
  | String c s' => (is_word_char c && all_word s')%bool
  end.

Definition is_var_name (s : string) : bool :=
  (negb (String.eqb s EmptyString) && all_word s)%bool.

(** What an attempt leaves behind when the handler raises the signal:
    the circuit-breaker accounting is as before, exactly one execution
    and one handler call were added to the trace and no back-off sleep,
    and the step is still in progress, not failed. *)
Definition untouched_by_signal (step step' : ExecutionStep) (w w' : World) : Prop :=
  CircuitBreaker.failures (breaker w') = CircuitBreaker.failures (breaker w)
  ∧ CircuitBreaker.last_failure_time (breaker w')
    = CircuitBreaker.last_failure_time (breaker w)
  ∧ count_attempts (trace w') = S (count_attempts (trace w))
  ∧ count_handler_calls (trace w') = S (count_handler_calls (trace w))
  ∧ count_retry_sleeps (trace w') = count_retry_sleeps (trace w)
  ∧ status step' = STEP_IN_PROGRESS
  ∧ error step' = error step.

(** A task about to execute its payment step, whose handler raises the
    interruption signal. *)
Definition payment_signal : HandlerOutcome :=
  HInterrupt "payment_required" [("amount", VInt 680)].

Definition task_executing : TaskState :=
  mkTask "t-1" "u-1" EXECUTING None
         [sample_step "s6" "request_payment_approval" []] 0
         (<["goal" := VStr "Book a flight to Tokyo next week under $800"]> ∅) []
         None None.

(** What the scheduler never changes in a step. *)
Definition step_shape (s : ExecutionStep) : string * string * PyDict * list string :=
  (id s, action_type s, parameters s, dependencies s).

(** The handler invocation made by one execution of a step. *)
Definition handler_event (ctx : gmap string PyVal) (s : ExecutionStep) : Event :=
  EvHandler (action_type s) (_resolve_parameters ctx (parameters s)).

(** What one execution of a step at tick [t] adds to the trace: the
    handler invocation, or nothing when the registry has no tool for the
    step's action type. *)
Definition call_events (env : Env) (ctx : gmap string PyVal) (s : ExecutionStep)
    (t : nat) : list Event :=
  match tool env (action_type s) (_resolve_parameters ctx (parameters s)) t with
  | HUnknownTool => []
  | _ => [handler_event ctx s]
  end.

(** The handler invocations of one scheduling wave that starts at tick
    [t]: the steps at the positions [ready] of [plan] are executed one
    after the other, each against the same context [ctx]. *)
Fixpoint wave_events (env : Env) (ctx : gmap string PyVal) (plan : list ExecutionStep)
    (ready : list nat) (t : nat) : list Event :=
  match ready with
  | [] => []
  | i :: ready' =>
      match plan !! i with
      | None => wave_events env ctx plan ready' t
      | Some s => call_events env ctx s t ++ wave_events env ctx plan ready' (S t)
      end
  end.

(** The events that belong to the retry engine. *)
Definition is_retry_event (e : Event) : bool :=
  match e with
  | EvBreakerWait _ _ | EvAttempt _ _ | EvRetrySleep _ _ _ => true
  | _ => false
  end.

Definition retry_events (tr : list Event) : list Event := List.filter is_retry_event tr.

(** A one-step plan whose tool keeps failing with a retryable error. *)
Definition flaky_env : Env := env_const (HFail "connection timeout").

Definition flaky_step : ExecutionStep := sample_step "s1" "search_flights" [].

(** Dependency structure of a plan. [depends_on plan a b]: a step with id
    [a] lists [b] among its dependencies. A step is on a cycle when its id
    reaches itself through one or more dependency arrows; it is dangling
    when one of its dependencies is the id of no step of the plan. *)
Definition depends_on (plan : list ExecutionStep) (a b : string) : Prop :=
  ∃ s, s ∈ plan ∧ id s = a ∧ b ∈ dependencies s.

Definition on_cycle (plan : list ExecutionStep) (a : string) : Prop :=
  tc (depends_on plan) a a.

Definition dangling (plan : list ExecutionStep) (s : ExecutionStep) : Prop :=
  ∃ d, d ∈ dependencies s ∧ d ∉ (id <$> plan).

(** The deadlock report as the design document words it: each pending
    step with its unmet dependency ids only. *)
Definition unmet_dependencies (completed_steps : gset string) (s : ExecutionStep)
  : list string :=
  filter (fun d => d ∉ completed_steps) (dependencies s).

Definition pending_info_unmet (completed_steps : gset string) (s : ExecutionStep)
  : string :=
  id s ++ " (depends on: "
       ++ py_repr_list (map py_repr_str (unmet_dependencies completed_steps s)) ++ ")".

(** Two plans for the deadlock report: step [C] waits for the completed
    [A] and for an id [X] that no step carries; in the second plan the
    runnable step is executed by a failing tool. *)
Definition plan_dangling : list ExecutionStep :=
  [sample_step "A" "search_flights" []; sample_step "C" "book_flight" ["A"; "X"]].

Definition env_ok : Env := env_const (HReturn []).

(** The ids that can never complete: those that reach, along dependency
    arrows, a step on a cycle or a dangling step. *)
Definition stuck (plan : list ExecutionStep) (x : string) : Prop :=
  ∃ y, rtc (depends_on plan) x y
       ∧ (on_cycle plan y ∨ ∃ s, s ∈ plan ∧ id s = y ∧ dangling plan s).

(** The invariant of the scheduler loop on a plan [plan0] with a set [B]
    of ids that cannot complete: the steps keep their ids, actions,
    parameters and dependencies, and only ids of [plan0] outside [B] are
    ever marked completed. *)
Definition scheduler_invariant (plan0 : list ExecutionStep) (B : string -> Prop)
    (st : ExecutorEngine.PlanState) : Prop :=
  step_shape <$> ExecutorEngine.ps_plan st = step_shape <$> plan0
  ∧ ∀ x, x ∈ ExecutorEngine.ps_completed st -> ¬ B x ∧ x ∈ (id <$> plan0).

(** The number of validator consultations and of planner consultations
    ([create_plan] or [replan]) in a trace. *)
Definition count_validations (tr : list Event) : nat :=
  length (List.filter (fun e => match e with EvValidate => true | _ => false end) tr).

Definition count_planner_calls (tr : list Event) : nat :=
  length (List.filter (fun e => match e with
                                | EvCreatePlan | EvReplan _ _ => true
                                | _ => false
                                end) tr).

(** The validation dictionary carrying the forced-completion annotation. *)
Definition annotated (v : Validation) : PyDict :=
  AgentOrchestrator.dict_set (AgentOrchestrator.validation_dict v) "note"
                             (VStr AgentOrchestrator.forced_note).

(** A verdict whose confidence the orchestrator can print as a
    percentage. *)
Definition confidence_printable (v : Validation) : Prop :=
  AgentOrchestrator.format_confidence v = Ok tt.

(** A tool result whose context updates are a dictionary, or absent. *)
Definition updates_dict (res : PyDict) (d : PyDict) : Prop :=
  ExecutorEngine.context_updates_of res = VDict d.

(** The standing assumptions of the endless-rework scenario: the
    validator keeps answering "not completed, needs more work" with a
    printable confidence, every tool call returns a result whose context
    updates are a dictionary that does not write the replan counter, and
    the planner keeps supplying steps with a non-negative retry budget. *)
Definition validator_never_satisfied (env : Env) : Prop :=
  ∀ o c h t, ∃ v, validate_completion env o c h t = Ok v
                  ∧ completed v = false ∧ needs_more_work v = true
                  ∧ confidence_printable v.

Definition tools_always_return (env : Env) : Prop :=
  ∀ a p t, ∃ res d, tool env a p t = HReturn res
                    ∧ updates_dict res d
                    ∧ Forall (fun kv => kv.1 <> "_replan_count") d.

Definition planner_always_answers (env : Env) : Prop :=
  ∀ o c t, ∃ steps, create_plan env o c t = Ok steps
                    ∧ Forall (fun s => 0 <= max_retries s) steps.

(** An environment for that scenario: tools return an empty result, the
    validator is never satisfied, the planner adds one step each time. *)
Definition env_rework : Env :=
  mkEnv (fun t => inject_Z (Z.of_nat t)) (fun _ => 1 # 2)
        (fun _ _ _ => HReturn [])
        (fun _ _ _ => Raise (OtherError "no interpreter"))
        (fun _ _ _ => Ok [sample_step "extra" "search_flights" []])
        (fun _ _ _ _ => Ok [])
        (fun _ _ _ _ => Ok verdict_rework).

Definition task_replanned_thrice : TaskState :=
  mkTask "t-1" "u-1" EXECUTING None [] 0 (<["_replan_count" := VInt 3]> ∅) []
         None None.

(** [runs_to env w task w' task']: after some iterations of the driver
    loop, the run from [(w, task)] continues as the run from [(w', task')]. *)
Definition runs_to (env : Env) (w : World) (task : TaskState)
    (w' : World) (task' : TaskState) : Prop :=
  ∃ k, ∀ fuel,
    AgentOrchestrator._execute_plan (k + fuel) env w task
    = AgentOrchestrator._execute_plan fuel env w' task'.

(** A task in the middle of the rework scenario, after [n] replans. *)
Definition rework_state (n : Z) (task : TaskState) : Prop :=
  task_status task = EXECUTING
  ∧ Forall (fun s => 0 <= max_retries s) (plan task)
  ∧ (context task !! "_replan_count" = Some (VInt n)
     ∨ (n = 0 ∧ context task !! "_replan_count" = None)).

(** The events added between two worlds, counted. *)
Definition events_added (w w' : World) (validations planner_calls : nat) : Prop :=
  count_validations (trace w') = (count_validations (trace w) + validations)%nat
  ∧ count_planner_calls (trace w') = (count_planner_calls (trace w) + planner_calls)%nat.

(** The breakers an engine can hold: the fresh one, and what the three
    operations make of a breaker it can hold. *)
Inductive breaker_reachable : CircuitBreaker.t -> Prop :=
| reach_init : breaker_reachable CircuitBreaker.init
| reach_is_open cb now service :
    breaker_reachable cb ->
    breaker_reachable (CircuitBreaker.is_open cb now service).2
| reach_success cb service :
    breaker_reachable cb ->
    breaker_reachable (CircuitBreaker.record_success cb service)
| reach_failure cb now service :
    breaker_reachable cb ->
    breaker_reachable (CircuitBreaker.record_failure cb now service).

(** An environment whose every tool call fails with the same message. *)
Definition tools_always_fail (env : Env) (msg : string) : Prop :=
  ∀ a p t, tool env a p t = HFail msg.

(** The message of the [ExecutionError] that [execute_step] raises for a
    handler failure. *)
Definition step_failure_message (step : ExecutionStep) (msg : string) : string :=
  "Step " ++ id step ++ " failed: " ++ msg.

(** A strategy after which the retry loop goes on. *)
Definition retryable (strategy : RetryStrategy) : Prop :=
  strategy <> HUMAN_ESCALATE ∧ strategy <> ALTERNATIVE.

(** A step whose retry budget is negative. *)
Definition step_without_budget : ExecutionStep :=
  mkStep "s1" "step s1" "search_flights" [] [] STEP_PENDING None None 0 (-1).

(** An interpreted outcome that asks the user a question, an environment
    whose interpreter returns it, and a fresh task for it. *)
Definition outcome_unclear : OutcomeDefinition :=
  mkOutcome "Book it" [] "travel"
            [("needs_clarification", VBool true);
             ("clarification_question", VStr "Which city are you flying to?")].

Definition env_unclear : Env :=
  mkEnv (fun t => inject_Z (Z.of_nat t)) (fun _ => 1 # 2)
        (fun _ _ _ => HReturn [])
        (fun _ _ _ => Ok outcome_unclear)
        (fun _ _ _ => Ok [])
        (fun _ _ _ _ => Ok [])
        (fun _ _ _ _ => Ok verdict_done).

Definition task_pending : TaskState :=
  mkTask "t-1" "u-1" PENDING None [] 0
         (<["goal" := VStr "Book a flight to Tokyo next week under $800"]> ∅) []
         None None.

(** A task waiting for the answer to a clarification question, before any
    plan exists. *)
Definition task_unclear : TaskState :=
  mkTask "t-1" "u-1" INTERRUPTED (Some outcome_unclear) [] 0
         (<["goal" := VStr "Book it"]> ∅) []
         (Some "clarification_needed")
         (Some [("question", VStr "Which city are you flying to?")]).

(** A set of completed ids respects the dependencies of a plan when each
    of its members is the id of a step all of whose dependencies are in
    the set. *)
Definition dependency_closed (plan : list ExecutionStep) (done : gset string) : Prop :=
  ∀ x, x ∈ done ->
       ∃ s, s ∈ plan ∧ id s = x ∧ ∀ d, d ∈ dependencies s -> d ∈ done.

(** Tools that always return a result whose context updates are a
    dictionary or absent, and a plan in dependency order: every dependency
    of a step is the id of a step placed before it. *)
Definition tools_never_raise (env : Env) : Prop :=
  ∀ a p t, ∃ res d, tool env a p t = HReturn res ∧ updates_dict res d.

Definition dependency_ordered (plan : list ExecutionStep) : Prop :=
  ∀ i s d, plan !! i = Some s -> d ∈ dependencies s ->
           ∃ j s', (j < i)%nat ∧ plan !! j = Some s' ∧ id s' = d.

Definition plan_chain : list ExecutionStep :=
  [sample_step "A" "search_flights" []; sample_step "B" "book_flight" ["A"];
   sample_step "C" "send_notification" ["A"; "B"]].

(** A string that the resolver treats as one whole template. *)
Definition whole_template (s : string) : bool :=
  (startswith s "{{" && endswith s "}}")%bool.

(** Parameter values that contain nothing for the resolver to do: strings
    without ["{{"]; lists none of whose string items is a whole template
    (other items, nested lists and dictionaries included, are not looked
    into); dictionaries of such values. *)
Fixpoint resolution_inert (v : PyVal) : bool :=
  match v with
  | VStr s => negb (str_in "{{" s)
  | VList l =>
      forallb (fun item => match item with
                           | VStr s => negb (whole_template s)
                           | _ => true
                           end) l
  | VDict d =>
      (fix entries (d : PyDict) : bool :=
         match d with
         | [] => true
         | (_, x) :: d' => (resolution_inert x && entries d')%bool
         end) d
  | _ => true
  end.

(** Parameters with a nested dictionary inside a list: the inner template
    is out of the resolver's reach. *)
Definition params_nested : PyDict :=
  [("city", VStr "Tokyo");
   ("passengers", VList [VDict [("name", VStr "{{traveller}}")]; VStr "see {{note}}"]);
   ("options", VDict [("class", VStr "economy"); ("bags", VInt 2)])].

(** A registry of three tools (handlers are plain numbers here), and a
    three-step plan whose second step failed after the first completed. *)
Definition sample_registry : ToolRegistry.t nat :=
  [("search_flights", 1%nat); ("book_flight", 2%nat); ("send_notification", 3%nat)].

Definition task_failed_booking : TaskState :=
  mkTask "t-1" "u-1" EXECUTING None
         [step_set_status (sample_step "A" "search_flights" []) STEP_COMPLETED;
          step_set_status (sample_step "B" "book_flight" ["A"]) STEP_FAILED;
          sample_step "C" "send_notification" ["A"; "B"]]
         1 ∅ [] None None.

(** A two-step plan resubmitted after its first step had completed. *)
Definition plan_resubmitted : list ExecutionStep :=
  [step_set_status (sample_step "A" "search_flights" []) STEP_COMPLETED;
   sample_step "B" "book_flight" ["A"]].

(** A healthcare task whose plan is done and whose context holds the
    appointment details as text, not as a dictionary. *)
Definition task_healthcare : TaskState :=
  mkTask "t-2" "u-1" EXECUTING
         (Some (mkOutcome "Book a dentist appointment" [] "healthcare" []))
         [] 0
         (<["appointment_details" := VStr "Dr. Rao, Monday 10:00"]> ∅) []
         None None.

(** An environment whose validator answers without a confidence entry. *)
Definition env_silent : Env :=
  mkEnv (fun t => inject_Z (Z.of_nat t)) (fun _ => 1 # 2)
        (fun _ _ _ => HReturn [])
        (fun _ _ _ => Raise (OtherError "no interpreter"))
        (fun _ _ _ => Ok [])
        (fun _ _ _ _ => Ok [])
        (fun _ _ _ _ => Ok (mkValidation true false [])).

(** The same task after three replans. *)
Definition task_healthcare_replanned : TaskState :=
  set_context task_healthcare (<["_replan_count" := VInt 3]> (context task_healthcare)).

(* ===================================================================== *)
(** * Properties *)
(* ===================================================================== *)

(** ** Task state machine *)

(** The code's table and the documented table allow the same arrows. *)
Lemma transition_tables_agree (a b : TaskStatus) :
  bool_decide (b ∈ default [] (STATE_TRANSITIONS a))
  = bool_decide ((a, b) ∈ spec_transition_table).
Proof. destruct a, b; vm_compute; reflexivity. Qed.

Lemma transition_allowed (task : TaskState) (new_state : TaskStatus) :
  (task_status task, new_state) ∈ spec_transition_table ->
  AgentOrchestrator._transition_state task new_state
  = (Ok tt, set_status task new_state).
Proof.
  intros Hin. unfold AgentOrchestrator._transition_state.
  rewrite transition_tables_agree, bool_decide_eq_true_2 by exact Hin.
  reflexivity.
Qed.

(** C2. A transition request for a pair that the documented table does not
    list (in particular any request made in status COMPLETED or FAILED,
    which have no outgoing arrow) raises [StateTransitionError] and leaves
    the task, hence its status, as it was. *)
Theorem invalid_transition_rejected (task : TaskState) (new_state : TaskStatus) :
  (task_status task, new_state) ∉ spec_transition_table
  ∨ task_status task = COMPLETED ∨ task_status task = FAILED ->
  ∃ msg,
    AgentOrchestrator._transition_state task new_state
    = (Raise (StateTransitionError msg), task)
    ∧ task_status (AgentOrchestrator._transition_state task new_state).2
      = task_status task.
Proof.
  intros H.
  assert (Hnot : (task_status task, new_state) ∉ spec_transition_table).
  { destruct H as [H | [H | H]]; [exact H | |];
      rewrite H; destruct new_state; apply (bool_decide_eq_false_1 _);
      vm_compute; reflexivity. }
  unfold AgentOrchestrator._transition_state.
  rewrite transition_tables_agree, bool_decide_eq_false_2 by exact Hnot.
  eexists; split; reflexivity.
Qed.

Lemma invalid_transition_rejected_witness :
  ∃ msg,
    AgentOrchestrator._transition_state (sample_task COMPLETED) EXECUTING
    = (Raise (StateTransitionError msg), sample_task COMPLETED)
    ∧ task_status (AgentOrchestrator._transition_state (sample_task COMPLETED) EXECUTING).2
      = task_status (sample_task COMPLETED).
Proof.
  apply (invalid_transition_rejected (sample_task COMPLETED) EXECUTING).
  right; left; reflexivity.
Defined.

(** ** Circuit breaker *)

Section Breaker.

Import CircuitBreaker.

Implicit Types (cb : CircuitBreaker.t) (service : string) (now : Q).

Lemma set_state_failures cb service s :
  failures (set_state cb service s) = failures cb.
Proof. reflexivity. Qed.

Lemma set_state_lookup cb service s :
  state (set_state cb service s) !! service = Some s.
Proof. apply lookup_insert_eq. Qed.

Lemma set_state_count cb service s service' :
  count (set_state cb service s) service' = count cb service'.
Proof. reflexivity. Qed.

Lemma record_failure_count cb now service :
  count (record_failure cb now service) service = count cb service + 1.
Proof.
  unfold record_failure, count. simpl.
  destruct (Z_le_gt_dec _ _); simpl; rewrite lookup_insert_eq; reflexivity.
Qed.

Lemma record_failure_last cb now service :
  last_failure_time (record_failure cb now service) !! service = Some now.
Proof.
  unfold record_failure. simpl.
  destruct (Z_le_gt_dec _ _); simpl; apply lookup_insert_eq.
Qed.

Lemma record_failure_state cb now service :
  state (record_failure cb now service) !! service
  = if failure_threshold cb <=? count cb service + 1
    then Some open else state cb !! service.
Proof.
  unfold record_failure, count. simpl.
  destruct (Z_le_gt_dec _ _) as [Hle | Hgt]; simpl.
  - rewrite lookup_insert_eq.
    destruct (Z.leb_spec (failure_threshold cb) (default 0 (failures cb !! service) + 1));
      [reflexivity | lia].
  - destruct (Z.leb_spec (failure_threshold cb) (default 0 (failures cb !! service) + 1));
      [lia | reflexivity].
Qed.

Lemma record_failure_threshold cb now service :
  failure_threshold (record_failure cb now service) = failure_threshold cb.
Proof. unfold record_failure. simpl. destruct (Z_le_gt_dec _ _); reflexivity. Qed.

Lemma record_success_count cb service :
  count (record_success cb service) service = Z.max 0 (count cb service - 1).
Proof.
  unfold record_success, count. simpl.
  destruct (state cb !! service) as [[]|]; simpl; rewrite lookup_insert_eq; reflexivity.
Qed.

Lemma record_success_state cb service :
  state (record_success cb service) !! service
  = match state cb !! service with
    | Some half_open => Some closed
    | other => other
    end.
Proof.
  unfold record_success. simpl.
  destruct (state cb !! service) as [[]|] eqn:E; simpl; try exact E.
  apply lookup_insert_eq.
Qed.

Lemma is_open_when_open cb now service :
  state cb !! service = Some open ->
  is_open cb now service
  = if Qlt_le_dec (recovery_timeout cb)
                  (now - default 0%Q (last_failure_time cb !! service))
    then (false, set_state cb service half_open) else (true, cb).
Proof. intros H. unfold is_open. rewrite H. reflexivity. Qed.

(** [is_open] writes nothing but the state entry of its service. *)
Lemma is_open_failures cb now service :
  failures (is_open cb now service).2 = failures cb
  ∧ last_failure_time (is_open cb now service).2 = last_failure_time cb
  ∧ failure_threshold (is_open cb now service).2 = failure_threshold cb
  ∧ recovery_timeout (is_open cb now service).2 = recovery_timeout cb.
Proof.
  unfold is_open. destruct (state cb !! service) as [[]|]; simpl; auto.
  destruct (Qlt_le_dec _ _); simpl; auto.
Qed.

(** C4. For every service key of a breaker with the default settings
    (threshold 5, recovery window 300 s): a recorded failure adds one to
    the count, stamps the time and opens the breaker once the count has
    reached 5; an open breaker answers [true] while no more than 300 s
    have passed since the last failure, and after that flips to half-open
    and answers [false]; a success recorded in half-open closes it; and a
    recorded success lowers the count by one, not below 0, so a count of
    2 or more is never reset to 0. Five failures on a fresh breaker open
    it. *)
Theorem breaker_lifecycle cb service now :
  failure_threshold cb = 5 ->
  recovery_timeout cb = 300%Q ->
  (count (record_failure cb now service) service = count cb service + 1
   ∧ last_failure_time (record_failure cb now service) !! service = Some now
   ∧ (5 <= count cb service + 1 ->
      state (record_failure cb now service) !! service = Some open)
   ∧ (count cb service + 1 < 5 ->
      state (record_failure cb now service) !! service = state cb !! service))
  ∧ (state cb !! service = Some open ->
     let last_fail := default 0%Q (last_failure_time cb !! service) in
     ((300 < now - last_fail)%Q ->
      is_open cb now service = (false, set_state cb service half_open)
      ∧ state (is_open cb now service).2 !! service = Some half_open)
     ∧ ((now - last_fail <= 300)%Q -> is_open cb now service = (true, cb)))
  ∧ (state cb !! service = Some half_open ->
     state (record_success cb service) !! service = Some closed)
  ∧ count (record_success cb service) service = Z.max 0 (count cb service - 1)
  ∧ (2 <= count cb service -> 0 < count (record_success cb service) service)
  ∧ (∀ t1 t2 t3 t4 t5,
       state (record_failure (record_failure (record_failure (record_failure
                (record_failure init t1 service) t2 service) t3 service)
                t4 service) t5 service) !! service = Some open).
Proof.
  intros Hth Hrt. repeat split.
  - apply record_failure_count.
  - apply record_failure_last.
  - intros H. rewrite record_failure_state, Hth.
    destruct (Z.leb_spec 5 (count cb service + 1)); [reflexivity | lia].
  - intros H. rewrite record_failure_state, Hth.
    destruct (Z.leb_spec 5 (count cb service + 1)); [lia | reflexivity].
  - rewrite (is_open_when_open _ _ _ H), Hrt.
    destruct (Qlt_le_dec _ _) as [Hlt | Hle]; [reflexivity |].
    exfalso. exact (Qlt_not_le _ _ H0 Hle).
  - rewrite (is_open_when_open _ _ _ H), Hrt.
    destruct (Qlt_le_dec _ _) as [Hlt | Hle]; [apply set_state_lookup |].
    exfalso. exact (Qlt_not_le _ _ H0 Hle).
  - intros Hle. rewrite (is_open_when_open _ _ _ H), Hrt.
    destruct (Qlt_le_dec _ _) as [Hlt | Hle']; [| reflexivity].
    exfalso. exact (Qlt_not_le _ _ Hlt Hle).
  - intros H. rewrite record_success_state, H. reflexivity.
  - apply record_success_count.
  - intros H. rewrite record_success_count. lia.
  - intros t1 t2 t3 t4 t5.
    rewrite record_failure_state, !record_failure_count, !record_failure_threshold.
    reflexivity.
Qed.

Lemma breaker_lifecycle_witness :
  state (record_failure cb_opened 1 "search_flights") !! "search_flights" = Some open
  ∧ is_open cb_opened 10 "search_flights" = (true, cb_opened)
  ∧ state (is_open cb_opened 301 "search_flights").2 !! "search_flights"
    = Some half_open.
Proof.
  pose proof (breaker_lifecycle cb_opened "search_flights" 1 eq_refl eq_refl)
    as (Hfail & _).
  pose proof (breaker_lifecycle cb_opened "search_flights" 10 eq_refl eq_refl)
    as (_ & Hopen10 & _).
  pose proof (breaker_lifecycle cb_opened "search_flights" 301 eq_refl eq_refl)
    as (_ & Hopen301 & _).
  split; [| split].
  - destruct Hfail as (_ & _ & Hopen & _). apply Hopen. vm_compute. discriminate.
  - destruct (Hopen10 eq_refl) as [_ Hstay]. apply Hstay. vm_compute. discriminate.
  - destruct (Hopen301 eq_refl) as [Hflip _].
    destruct Hflip as [_ Hst]; [vm_compute; reflexivity | exact Hst].
Defined.

(** C9, as stated, fails. Five failures open the breaker; two successes
    recorded while it is open bring the count to 3 without closing it;
    after the recovery window [is_open] flips to half-open with the
    count at 3, below the threshold 5; a failure recorded during the
    probe raises the count to 4 and the breaker stays half-open. *)
Lemma half_open_failure_not_reopening :
  state cb_flapped !! "search_flights" = Some open
  ∧ (is_open cb_flapped 301 "search_flights").1 = false
  ∧ state (is_open cb_flapped 301 "search_flights").2 !! "search_flights"
    = Some half_open
  ∧ count (is_open cb_flapped 301 "search_flights").2 "search_flights" = 3
  ∧ failure_threshold (is_open cb_flapped 301 "search_flights").2 = 5
  ∧ state (record_failure (is_open cb_flapped 301 "search_flights").2 302
                          "search_flights") !! "search_flights"
    = Some half_open.
Proof. vm_compute. repeat split; reflexivity. Qed.

(** C9, amended. [is_open] never changes a failure count, so at the flip
    to half-open the count is what it was while open: at or above the
    threshold when the breaker has just been opened by a failure. Whenever
    the count at the probe is at least the threshold minus one, a single
    recorded failure re-opens the breaker. A success recorded while the
    state is open leaves it open. *)
Theorem half_open_reopens_when_count_high cb service now now' :
  failure_threshold cb - 1 <= count cb service ->
  count (is_open cb now service).2 service = count cb service
  ∧ state (record_failure (is_open cb now service).2 now' service) !! service
    = Some open
  ∧ (failure_threshold cb <= count cb service + 1 ->
     failure_threshold cb
     <= count (is_open (record_failure cb now service) now' service).2 service)
  ∧ (state cb !! service = Some open ->
     state (record_success cb service) !! service = Some open).
Proof.
  intros Hc.
  destruct (is_open_failures cb now service) as (Hf & _ & Hth & _).
  assert (Hcount : count (is_open cb now service).2 service = count cb service).
  { unfold count. rewrite Hf. reflexivity. }
  repeat split.
  - exact Hcount.
  - rewrite record_failure_state, Hcount, Hth.
    destruct (Z.leb_spec (failure_threshold cb) (count cb service + 1));
      [reflexivity | lia].
  - intros H.
    destruct (is_open_failures (record_failure cb now service) now' service)
      as (Hf' & _).
    unfold count at 1. rewrite Hf'. fold (count (record_failure cb now service) service).
    rewrite record_failure_count. exact H.
  - intros H. rewrite record_success_state, H. reflexivity.
Qed.

Lemma half_open_reopens_when_count_high_witness :
  state (record_failure (is_open cb_opened 301 "search_flights").2 302
                        "search_flights") !! "search_flights" = Some open.
Proof.
  refine (proj1 (proj2 (half_open_reopens_when_count_high
                          cb_opened "search_flights" 301 302 _))).
  vm_compute. discriminate.
Defined.

End Breaker.

(** ** Interruption fields on resume *)

(** C7 at its failing input. A task interrupted for payment (or for an
    approval) is resumed with [approved] false: the early [return] leaves
    the task in status FAILED with [interrupt_reason] and [interrupt_data]
    still set, while the approving resume reaches the code that clears
    both. *)
Lemma declined_resume_keeps_interrupt_fields :
  let declined := [("approved", VBool false)] in
  let approved := [("approved", VBool true)] in
  let '(resp1, _, _, t1) :=
    AgentOrchestrator.resume_after_interruption w0 (task_awaiting "payment_required")
                                                declined in
  let '(resp2, _, _, t2) :=
    AgentOrchestrator.resume_after_interruption w0 (task_awaiting "approval_needed")
                                                declined in
  let '(resp3, _, _, t3) :=
    AgentOrchestrator.resume_after_interruption w0 (task_awaiting "payment_required")
                                                approved in
  (resp1 = AgentOrchestrator.ResumeError "Payment declined"
   ∧ task_status t1 = FAILED
   ∧ interrupt_reason t1 = Some "payment_required"
   ∧ interrupt_data t1 = Some [("amount", VInt 680)])
  ∧ (resp2 = AgentOrchestrator.ResumeError "Approval denied"
     ∧ task_status t2 = FAILED
     ∧ interrupt_reason t2 = Some "approval_needed"
     ∧ interrupt_data t2 = Some [("amount", VInt 680)])
  ∧ (resp3 = AgentOrchestrator.Resumed
     ∧ task_status t3 = EXECUTING
     ∧ interrupt_reason t3 = None
     ∧ interrupt_data t3 = None).
Proof. vm_compute. repeat split; reflexivity. Qed.

(** ** Failure classification *)

Section Classification.

Import RetryEngine.

(** The method is the first-match reading of the documented rule list. *)
Lemma select_strategy_first_match (message : string) (attempt : nat) :
  _select_strategy message attempt = classify_first_match message attempt.
Proof.
  unfold _select_strategy, classify_first_match, classification_rules, any_in.
  cbn [find existsb fst snd].
  repeat match goal with
         | |- context [str_in ?k (lower message)] =>
             destruct (str_in k (lower message)); cbn [orb]
         end; reflexivity.
Qed.

Lemma count_attempts_app l1 l2 :
  count_attempts (l1 ++ l2) = (count_attempts l1 + count_attempts l2)%nat.
Proof. unfold count_attempts. rewrite List.filter_app, length_app. reflexivity. Qed.

Lemma count_handler_calls_app l1 l2 :
  count_handler_calls (l1 ++ l2)
  = (count_handler_calls l1 + count_handler_calls l2)%nat.
Proof. unfold count_handler_calls. rewrite List.filter_app, length_app. reflexivity. Qed.

Lemma count_retry_sleeps_app l1 l2 :
  count_retry_sleeps (l1 ++ l2)
  = (count_retry_sleeps l1 + count_retry_sleeps l2)%nat.
Proof. unfold count_retry_sleeps. rewrite List.filter_app, length_app. reflexivity. Qed.

(** One iteration of the retry loop on a step whose handler raises an
    error, the text of the resulting [ExecutionError] being classified as
    ALTERNATIVE: the replan result is returned at once. *)
Lemma retry_loop_alternative (env : Env) (service : string)
    (ctx : gmap string PyVal) (n attempt : nat) (last_error : option Exn)
    (step : ExecutionStep) (w : World) (msg : string) :
  (∀ t, tool env (action_type step) (_resolve_parameters ctx (parameters step)) t
        = HFail msg) ->
  _select_strategy (step_failure_message step msg) attempt = ALTERNATIVE ->
  ∃ step' w',
    retry_loop env (ExecutorEngine.execute_step env) service ctx (S n) attempt
               last_error step w
    = (Ok (NeedsReplan (step_failure_message step msg) (Z.of_nat attempt + 1)),
       step', w')
    ∧ count_attempts (trace w') = S (count_attempts (trace w))
    ∧ count_handler_calls (trace w') = S (count_handler_calls (trace w))
    ∧ count_retry_sleeps (trace w') = count_retry_sleeps (trace w)
    ∧ status step' = STEP_FAILED
    ∧ error step' = Some msg.
Proof.
  intros Htool Hsel. cbn [retry_loop].
  destruct (CircuitBreaker.is_open (breaker w) (clock env (tick w)) service)
    as [b cb].
  unfold ExecutorEngine.execute_step.
  cbn [action_type parameters step_set_status step_set_retry_count id].
  rewrite Htool.
  cbn [exn_str id step_set_error step_set_status step_set_retry_count].
  fold (step_failure_message step msg). rewrite Hsel.
  eexists _, _. split; [reflexivity |].
  destruct b; unfold log, next_tick, set_breaker;
    cbn [trace status error step_set_error step_set_status];
    rewrite ?count_attempts_app, ?count_handler_calls_app, ?count_retry_sleeps_app;
    cbn; repeat split; lia.
Qed.

(** C8, as stated, fails: a message containing "unavailable" that also
    matches the earlier network rule (here through "503") is classified
    EXPONENTIAL, and the step is retried to exhaustion, four attempts and
    three back-off sleeps, instead of returning the replan result. *)
Lemma unavailable_retried_when_network_rule_matches :
  let msg := "503 Service Unavailable" in
  let env := env_const (HFail msg) in
  let step := sample_step "s1" "search_flights" [] in
  let '(r, _, w) :=
    execute_with_retry env step (ExecutorEngine.execute_step env) ∅ w0 in
  str_in "unavailable" (lower msg) = true
  ∧ _select_strategy msg 0 = EXPONENTIAL
  ∧ r = Ok (Exhausted "Step s1 failed: 503 Service Unavailable" 4)
  ∧ count_attempts (trace w) = 4%nat
  ∧ count_retry_sleeps (trace w) = 3%nat.
Proof. vm_compute. repeat split; reflexivity. Qed.

(** C8, amended. Classification is a case-insensitive substring match,
    first match wins in the documented order. For every failure message
    that contains "unavailable" and matches none of the three earlier
    rules (network, rate limit, authentication), the "not found" rule
    wins over the later "temporarily unavailable" rule: the strategy is
    ALTERNATIVE. The message classified is the text of the error that
    [execute_step] raises, "Step <id> failed: <text raised by the
    handler>": when that is the message, the retry loop returns the
    replan result carrying it at that very attempt, after one execution
    and one handler call, without a back-off sleep, the step being left
    failed. *)
Theorem unavailable_needs_replan (message : string) (attempt : nat) :
  str_in "unavailable" (lower message) = true ->
  any_in ["timeout"; "connection"; "network"; "503"; "502"; "504"] (lower message)
  = false ->
  any_in ["rate limit"; "429"; "too many requests"] (lower message) = false ->
  any_in ["auth"; "unauthorized"; "401"; "403"; "forbidden"] (lower message) = false ->
  _select_strategy message attempt = classify_first_match message attempt
  ∧ _select_strategy message attempt = ALTERNATIVE
  ∧ ∀ env service ctx n last_error step (w : World) msg,
      step_failure_message step msg = message ->
      (∀ t, tool env (action_type step) (_resolve_parameters ctx (parameters step)) t
            = HFail msg) ->
      ∃ step' w',
        retry_loop env (ExecutorEngine.execute_step env) service ctx (S n) attempt
                   last_error step w
        = (Ok (NeedsReplan message (Z.of_nat attempt + 1)), step', w')
        ∧ count_attempts (trace w') = S (count_attempts (trace w))
        ∧ count_handler_calls (trace w') = S (count_handler_calls (trace w))
        ∧ count_retry_sleeps (trace w') = count_retry_sleeps (trace w)
        ∧ status step' = STEP_FAILED
        ∧ error step' = Some msg.
Proof.
  intros Hun H1 H2 H3.
  assert (Hsel : _select_strategy message attempt = ALTERNATIVE).
  { unfold _select_strategy. rewrite H1, H2, H3.
    unfold any_in. cbn [existsb]. rewrite Hun.
    rewrite !orb_true_r. reflexivity. }
  split; [apply select_strategy_first_match |].
  split; [exact Hsel |].
  intros env service ctx n last_error step w msg <- Htool.
  apply retry_loop_alternative; assumption.
Qed.

Lemma unavailable_needs_replan_witness :
  let msg := "Flight UA-7 is UNAVAILABLE on that date" in
  let env := env_const (HFail msg) in
  let step := sample_step "s1" "search_flights" [] in
  ∃ step' w',
    execute_with_retry env step (ExecutorEngine.execute_step env) ∅ w0
    = (Ok (NeedsReplan "Step s1 failed: Flight UA-7 is UNAVAILABLE on that date" 1),
       step', w')
    ∧ count_handler_calls (trace w') = 1%nat
    ∧ count_retry_sleeps (trace w') = 0%nat.
Proof.
  intros msg env step.
  destruct (unavailable_needs_replan
              "Step s1 failed: Flight UA-7 is UNAVAILABLE on that date" 0
              eq_refl eq_refl eq_refl eq_refl)
    as (_ & _ & Hrun).
  destruct (Hrun env "search_flights" ∅ 3%nat None step w0 msg eq_refl
              (fun _ => eq_refl))
    as (step' & w' & Hloop & _ & Hh & Hs & _).
  exists step', w'. split; [exact Hloop |]. split; [exact Hh | exact Hs].
Defined.

End Classification.

(** ** Template parameters *)

Section Templates.

Implicit Types (s pre post var w rest : string) (ctx : gmap string PyVal).

Lemma append_assoc s1 s2 s3 : (s1 ++ s2) ++ s3 = s1 ++ (s2 ++ s3).
Proof. induction s1 as [|c s1 IH]; simpl; [reflexivity | rewrite IH; reflexivity]. Qed.

Lemma append_length s1 s2 :
  String.length (s1 ++ s2) = (String.length s1 + String.length s2)%nat.
Proof. induction s1 as [|c s1 IH]; simpl; [reflexivity | rewrite IH; reflexivity]. Qed.

Lemma append_nil_r s : s ++ EmptyString = s.
Proof. induction s as [|c s IH]; simpl; [reflexivity | rewrite IH; reflexivity]. Qed.

Lemma prefix_refl_app s t : String.prefix s (s ++ t) = true.
Proof.
  induction s as [|c s IH]; simpl; [destruct t; reflexivity |].
  destruct (ascii_dec c c); [exact IH | congruence].
Qed.

Lemma substring_app_skip s t n :
  String.substring (String.length s) n (s ++ t) = String.substring 0 n t.
Proof. induction s as [|c s IH]; simpl; [reflexivity | exact IH]. Qed.

Lemma substring_whole_app s t :
  String.substring 0 (String.length s) (s ++ t) = s.
Proof.
  induction s as [|c s IH]; simpl; [destruct t; reflexivity | rewrite IH; reflexivity].
Qed.

Lemma substring_whole s : String.substring 0 (String.length s) s = s.
Proof. induction s as [|c s IH]; simpl; [reflexivity | rewrite IH; reflexivity]. Qed.

Lemma startswith_app s t : startswith (s ++ t) s = true.
Proof. apply prefix_refl_app. Qed.

Lemma endswith_app s t : endswith (s ++ t) t = true.
Proof.
  unfold endswith. rewrite append_length.
  replace (String.length s + String.length t - String.length t)%nat
    with (String.length s) by lia.
  rewrite substring_app_skip, substring_whole.
  rewrite String.eqb_refl, andb_true_r. apply Nat.leb_le. lia.
Qed.

Lemma slice_of_template var : slice_2_m2 ("{{" ++ var ++ "}}") = var.
Proof.
  unfold slice_2_m2. simpl. rewrite append_length. simpl.
  replace (String.length var + 2 - 2)%nat with (String.length var) by lia.
  apply substring_whole_app.
Qed.

Lemma str_in_prefix x s : String.prefix x s = true -> str_in x s = true.
Proof. intros H. destruct s; cbn [str_in]; rewrite H; reflexivity. Qed.

Lemma str_in_app pre x post : str_in x (pre ++ x ++ post) = true.
Proof.
  induction pre as [|c pre IH].
  - change (EmptyString ++ x ++ post) with (x ++ post).
    apply str_in_prefix, prefix_refl_app.
  - change (String c pre ++ x ++ post) with (String c (pre ++ x ++ post)).
    cbn [str_in]. rewrite IH. destruct (String.prefix _ _); reflexivity.
Qed.

(** A whole-string template resolves to the context entry, [None] when
    the key is absent; no case of the resolver raises. *)
Lemma resolve_exact_template ctx var :
  resolve_str ctx ("{{" ++ var ++ "}}") = opt_val (ctx !! var).
Proof.
  unfold resolve_str.
  rewrite (startswith_app "{{" (var ++ "}}")).
  replace ("{{" ++ var ++ "}}") with (("{{" ++ var) ++ "}}") at 1
    by apply append_assoc.
  rewrite endswith_app. cbn [andb].
  rewrite slice_of_template. reflexivity.
Qed.

Lemma span_word_app s w r z :
  span_word s = (w, r) -> r <> EmptyString -> span_word (s ++ z) = (w, r ++ z).
Proof.
  revert w r. induction s as [|c s IH]; intros w r H Hr.
  - simpl in H. inversion H; subst. congruence.
  - change (String c s ++ z) with (String c (s ++ z)).
    cbn [span_word] in *. destruct (is_word_char c).
    + destruct (span_word s) as [w' r'] eqn:E. inversion H; subst.
      rewrite (IH _ _ eq_refl Hr). reflexivity.
    + inversion H; subst. reflexivity.
Qed.

Lemma span_word_all_word var t :
  all_word var = true -> span_word t = (EmptyString, t) ->
  span_word (var ++ t) = (var, t).
Proof.
  intros Hv Ht. induction var as [|c var IH]; [exact Ht |].
  change (String c var ++ t) with (String c (var ++ t)).
  cbn [span_word all_word] in *. apply andb_true_iff in Hv as [Hc Hv].
  rewrite Hc, (IH Hv). reflexivity.
Qed.

Lemma match_template_intro s1 w rest :
  span_word s1 = (w, "}}" ++ rest) -> w <> EmptyString ->
  match_template ("{{" ++ s1) = Some (w, rest).
Proof.
  intros Hs Hw. simpl. rewrite Hs. destruct w; [congruence | reflexivity].
Qed.

Lemma match_template_nil : match_template EmptyString = None.
Proof. reflexivity. Qed.

(** A match found in [x] is found, unchanged, in any extension of [x]. *)
Lemma match_template_app x w r z :
  match_template x = Some (w, r) -> match_template (x ++ z) = Some (w, r ++ z).
Proof.
  intros H. destruct (match_template_shape _ _ _ H) as (s1 & -> & Hs & Hw).
  rewrite append_assoc.
  apply match_template_intro; [| exact Hw].
  rewrite (span_word_app _ _ _ z Hs); [reflexivity | discriminate].
Qed.

Lemma span_word_before_template a y w r :
  span_word (a ++ "{{" ++ y) = (w, "}}" ++ r) ->
  ∃ r', span_word a = (w, "}}" ++ r').
Proof.
  revert w. induction a as [|c a IH]; intros w H.
  - simpl in H. inversion H.
  - change (String c a ++ "{{" ++ y) with (String c (a ++ "{{" ++ y)) in H.
    cbn [span_word] in *. destruct (is_word_char c) eqn:Hc.
    + destruct (span_word (a ++ "{{" ++ y)) as [w' r0] eqn:E.
      inversion H; subst.
      destruct (IH _ eq_refl) as [r' Hr']. rewrite Hr'. eauto.
    + simpl in H. inversion H as [[Hw Hc' Hrest]]. subst.
      destruct a as [|c' a]; simpl in Hrest; inversion Hrest; subst.
      exists a. reflexivity.
Qed.

(** No match starts inside [x] and runs into a following ["{{"]. *)
Lemma match_template_none_app x y :
  match_template x = None -> x <> EmptyString ->
  match_template (x ++ "{{" ++ y) = None.
Proof.
  intros Hnone Hx.
  destruct (match_template (x ++ "{{" ++ y)) as [[w r]|] eqn:E; [| reflexivity].
  exfalso.
  destruct (match_template_shape _ _ _ E) as (s1 & Heq & Hs & Hw).
  destruct x as [|c1 x]; [congruence |].
  destruct x as [|c2 x].
  - simpl in Heq. inversion Heq; subst. simpl in Hs. inversion Hs.
  - simpl in Heq. inversion Heq; subst.
    destruct (span_word_before_template _ _ _ _ Hs) as [r' Hr'].
    pose proof (match_template_intro _ _ _ Hr' Hw) as Hm.
    simpl in Hm, Hnone. rewrite Hm in Hnone. discriminate.
Qed.

Lemma re_sub_match ctx s w rest :
  match_template s = Some (w, rest) ->
  re_sub ctx s = replace_var ctx w ++ re_sub ctx rest.
Proof.
  intros H. destruct s as [|c s']; [discriminate |].
  rewrite re_sub_equation_2.
  destruct (Logic.inspect (match_template (String c s'))) as [[[w' r']|] E].
  - rewrite re_sub_clause_2_equation_1.
    assert (Heq : Some (w, rest) = Some (w', r')) by (rewrite <- H; exact E).
    inversion Heq; subst. reflexivity.
  - exfalso. congruence.
Qed.

Lemma re_sub_nomatch ctx c s' :
  match_template (String c s') = None ->
  re_sub ctx (String c s') = String c (re_sub ctx s').
Proof.
  intros H. rewrite re_sub_equation_2.
  destruct (Logic.inspect (match_template (String c s'))) as [[[w' r']|] E].
  - exfalso. congruence.
  - rewrite re_sub_clause_2_equation_2. reflexivity.
Qed.

(** Substitution in front of a ["{{"] is substitution of the front. *)
Lemma re_sub_app_template ctx pre y :
  re_sub ctx (pre ++ "{{" ++ y) = re_sub ctx pre ++ re_sub ctx ("{{" ++ y).
Proof.
  remember (String.length pre) as n eqn:Hn.
  revert pre Hn. induction n as [n IH] using lt_wf_ind. intros pre Hn.
  destruct pre as [|c pre'].
  - rewrite re_sub_equation_1. reflexivity.
  - destruct (match_template (String c pre')) as [[w r]|] eqn:E.
    + rewrite (re_sub_match _ _ _ _ (match_template_app _ _ _ ("{{" ++ y) E)).
      rewrite (re_sub_match _ _ _ _ E).
      pose proof (match_template_shorter _ _ _ E) as Hlt.
      rewrite (IH (String.length r)); [| lia | reflexivity].
      rewrite append_assoc. reflexivity.
    + pose proof (match_template_none_app _ y E ltac:(discriminate)) as Hnone.
      change (String c pre' ++ "{{" ++ y) with (String c (pre' ++ "{{" ++ y)) in *.
      rewrite (re_sub_nomatch _ _ _ Hnone), (re_sub_nomatch _ _ _ E).
      rewrite (IH (String.length pre')); [| simpl in Hn; lia | reflexivity].
      reflexivity.
Qed.

(** An unresolvable template at the head of a string is copied. *)
Lemma re_sub_unresolved_head ctx var post :
  is_var_name var = true -> ctx !! var = None ->
  re_sub ctx ("{{" ++ var ++ "}}" ++ post) = "{{" ++ var ++ "}}" ++ re_sub ctx post.
Proof.
  intros Hv Hctx. apply andb_true_iff in Hv as [Hne Hw].
  assert (Hm : match_template ("{{" ++ var ++ "}}" ++ post) = Some (var, post)).
  { apply match_template_intro.
    - apply span_word_all_word; [exact Hw | reflexivity].
    - intros ->. discriminate. }
  rewrite (re_sub_match _ _ _ _ Hm). unfold replace_var. rewrite Hctx.
  cbn [default py_str]. rewrite !append_assoc. reflexivity.
Qed.

(** A string without ["{{"] is left as it is. *)
Lemma re_sub_no_open ctx s : str_in "{{" s = false -> re_sub ctx s = s.
Proof.
  induction s as [|c s IH]; intros H; [apply re_sub_equation_1 |].
  cbn [str_in] in H.
  destruct (String.prefix "{{" (String c s)) eqn:Hp; [discriminate |].
  rewrite re_sub_nomatch, (IH H); [reflexivity |].
  destruct (match_template (String c s)) as [[w r]|] eqn:E; [| reflexivity].
  destruct (match_template_shape _ _ _ E) as (s1 & Heq & _).
  rewrite Heq, (prefix_refl_app "{{" s1) in Hp. discriminate.
Qed.




End Templates.

(** ** Interruption signals *)

Section Interruption.

Import RetryEngine.

(** Any iteration of the retry loop in which the handler raises the
    signal re-raises it, whatever the attempt number. *)
Lemma retry_loop_interrupt (env : Env) (service : string) (ctx : gmap string PyVal)
    (n attempt : nat) (last_error : option Exn) (step : ExecutionStep) (w : World)
    (reason : string) (data : PyDict) :
  tool env (action_type step) (_resolve_parameters ctx (parameters step)) (S (tick w))
  = HInterrupt reason data ->
  ∃ step' w',
    retry_loop env (ExecutorEngine.execute_step env) service ctx (S n) attempt
               last_error step w
    = (Raise (HumanInterruptionRequired reason data), step', w')
    ∧ untouched_by_signal step step' w w'.
Proof.
  intros Htool. cbn [retry_loop].
  pose proof (is_open_failures (breaker w) (clock env (tick w)) service)
    as (Hf & Hl & _).
  destruct (CircuitBreaker.is_open (breaker w) (clock env (tick w)) service)
    as [b cb] eqn:Hopen.
  cbn [snd] in Hf, Hl.
  unfold ExecutorEngine.execute_step.
  cbn [action_type parameters step_set_status step_set_retry_count id].
  destruct b; cbn [log next_tick set_breaker tick trace breaker];
    rewrite Htool; eexists _, _; (split; [reflexivity |]);
    unfold untouched_by_signal, log, next_tick, set_breaker;
    cbn [breaker trace tick status error step_set_status step_set_retry_count];
    rewrite ?count_attempts_app, ?count_handler_calls_app, ?count_retry_sleeps_app;
    cbn; repeat split; try assumption; lia.
Qed.

Lemma handle_interruption_spec (w : World) (task : TaskState)
    (reason : string) (data : PyDict) :
  let '(w', task') := AgentOrchestrator._handle_interruption w task reason data in
  task_status task' = INTERRUPTED
  ∧ interrupt_reason task' = Some reason
  ∧ interrupt_data task' = Some data
  ∧ plan task' = plan task
  ∧ breaker w' = breaker w
  ∧ trace w' = (trace w ++ [EvSave; EvBroadcast "interrupted"])%list.
Proof.
  unfold AgentOrchestrator._handle_interruption,
    AgentOrchestrator._transition_state.
  destruct (bool_decide _); cbn; rewrite <- app_assoc; repeat split; reflexivity.
Qed.



End Interruption.

(** ** The executor's scheduling waves *)

Section Waves.

Import ExecutorEngine.

Implicit Types (plan : list ExecutionStep) (ready : list nat) (w : World)
               (ctx : gmap string PyVal) (st : PlanState).

Lemma retry_events_app l1 l2 :
  retry_events (l1 ++ l2) = (retry_events l1 ++ retry_events l2)%list.
Proof. apply List.filter_app. Qed.

Lemma execute_step_spec env (step : ExecutionStep) ctx w :
  step_shape (execute_step env step ctx w).1.2 = step_shape step
  ∧ trace (execute_step env step ctx w).2
    = (trace w ++ call_events env ctx step (tick w))%list
  ∧ breaker (execute_step env step ctx w).2 = breaker w
  ∧ tick (execute_step env step ctx w).2 = S (tick w).
Proof.
  unfold execute_step, call_events, handler_event.
  cbn [action_type parameters step_set_status].
  destruct (tool env _ _ _); cbn; rewrite ?app_nil_r; repeat split; reflexivity.
Qed.

Lemma insert_same_shape plan i (s s' : ExecutionStep) :
  plan !! i = Some s -> step_shape s' = step_shape s ->
  step_shape <$> <[i := s']> plan = step_shape <$> plan.
Proof.
  intros Hl Hs. rewrite list_fmap_insert, Hs.
  apply list_insert_id. rewrite list_lookup_fmap, Hl. reflexivity.
Qed.

Lemma lookup_same_shape plan plan' i :
  step_shape <$> plan' = step_shape <$> plan ->
  step_shape <$> (plan' !! i) = step_shape <$> (plan !! i).
Proof. intros H. rewrite <- !list_lookup_fmap, H. reflexivity. Qed.

Lemma call_events_shape env ctx (s s' : ExecutionStep) t :
  step_shape s' = step_shape s -> call_events env ctx s' t = call_events env ctx s t.
Proof.
  unfold step_shape, call_events, handler_event. intros H.
  inversion H as [[H1 H2 H3 H4]]. rewrite H2, H3. reflexivity.
Qed.

Lemma wave_events_shape env ctx plan plan' ready : ∀ t,
  step_shape <$> plan' = step_shape <$> plan ->
  wave_events env ctx plan' ready t = wave_events env ctx plan ready t.
Proof.
  induction ready as [|i ready IH]; intros t Hsh; [reflexivity |].
  cbn [wave_events].
  pose proof (lookup_same_shape plan plan' i Hsh) as Hi.
  destruct (plan' !! i) as [s'|], (plan !! i) as [s|]; try discriminate.
  - assert (Hs : step_shape s' = step_shape s) by (cbn in Hi; congruence).
    rewrite (call_events_shape _ _ _ _ _ Hs), (IH _ Hsh). reflexivity.
  - apply IH, Hsh.
Qed.

(** The value [execute_step] returns or raises depends on the step's id,
    action and parameters, on the context and on the tick only. *)
Lemma execute_step_result_shape env (s s' : ExecutionStep) ctx w w' :
  step_shape s' = step_shape s -> tick w' = tick w ->
  (execute_step env s' ctx w').1.1 = (execute_step env s ctx w).1.1.
Proof.
  unfold step_shape, execute_step. intros H Ht.
  inversion H as [[H1 H2 H3 H4]].
  cbn [action_type parameters step_set_status id step_set_error step_set_result].
  rewrite H1, H2, H3, Ht.
  destruct (tool env _ _ _); reflexivity.
Qed.

(** A wave: every listed position is executed once, in order, whatever
    the other members do; the breaker is not touched. *)
Lemma gather_spec env ctx ready : ∀ plan w,
  Forall (fun i => is_Some (plan !! i)) ready ->
  (gather env ctx ready plan w).1.1.*1 = ready
  ∧ step_shape <$> (gather env ctx ready plan w).1.2 = step_shape <$> plan
  ∧ trace (gather env ctx ready plan w).2
    = (trace w ++ wave_events env ctx plan ready (tick w))%list
  ∧ breaker (gather env ctx ready plan w).2 = breaker w
  ∧ tick (gather env ctx ready plan w).2 = (tick w + length ready)%nat.
Proof.
  induction ready as [|i ready IH]; intros plan w Hvalid.
  - cbn. rewrite app_nil_r. repeat split; try reflexivity. lia.
  - apply Forall_cons in Hvalid as [[s Hs] Hvalid].
    cbn [gather wave_events]. rewrite Hs.
    destruct (execute_step_spec env s ctx w) as (Hshape & Htrace & Hbreaker & Htick).
    destruct (execute_step env s ctx w) as [[r s'] w1].
    cbn [fst snd] in Hshape, Htrace, Hbreaker, Htick.
    pose proof (insert_same_shape plan i s s' Hs Hshape) as Hplan.
    assert (Hvalid' : Forall (fun j => is_Some (<[i := s']> plan !! j)) ready).
    { eapply Forall_impl; [exact Hvalid |]. intros j [x Hx].
      apply lookup_lt_is_Some. rewrite length_insert.
      eapply lookup_lt_Some; exact Hx. }
    destruct (IH (<[i := s']> plan) w1 Hvalid') as (Hfst & Hsh & Htr & Hbr & Htk).
    destruct (gather env ctx ready (<[i := s']> plan) w1) as [[rs plan'] w2].
    cbn [fst snd] in *.
    repeat split.
    + cbn. rewrite Hfst. reflexivity.
    + rewrite Hsh. exact Hplan.
    + rewrite Htr, Htrace, <- app_assoc, Htick.
      rewrite (wave_events_shape env ctx plan (<[i := s']> plan) ready _ Hplan).
      reflexivity.
    + rewrite Hbr. exact Hbreaker.
    + rewrite Htk, Htick. cbn [length]. lia.
Qed.

(** The [k]-th member of a wave: its result is that of one call of
    [execute_step] on its step, made [k] ticks after the wave started. *)
Lemma gather_member env ctx ready : ∀ plan w k i,
  Forall (fun i => is_Some (plan !! i)) ready ->
  ready !! k = Some i ->
  ∃ s res wk,
    plan !! i = Some s
    ∧ (gather env ctx ready plan w).1.1 !! k = Some (i, res)
    ∧ tick wk = (tick w + k)%nat
    ∧ res = (execute_step env s ctx wk).1.1.
Proof.
  induction ready as [|j ready IH]; intros plan w k i Hvalid Hk; [discriminate |].
  apply Forall_cons in Hvalid as [[s Hs] Hvalid].
  cbn [gather]. rewrite Hs.
  destruct (execute_step_spec env s ctx w) as (Hshape & _ & _ & Htick).
  destruct (execute_step env s ctx w) as [[r s'] w1] eqn:Hex.
  cbn [fst snd] in Hshape, Htick.
  pose proof (insert_same_shape plan j s s' Hs Hshape) as Hplan.
  assert (Hvalid' : Forall (fun x => is_Some (<[j := s']> plan !! x)) ready).
  { eapply Forall_impl; [exact Hvalid |]. intros x [y Hy].
    apply lookup_lt_is_Some. rewrite length_insert.
    eapply lookup_lt_Some; exact Hy. }
  destruct k as [|k].
  - inversion Hk; subst j.
    destruct (gather env ctx ready (<[i := s']> plan) w1) as [[rs plan'] w2].
    exists s, r, w. cbn [fst snd]. rewrite Hex.
    repeat split; [exact Hs | lia].
  - cbn in Hk.
    destruct (IH (<[j := s']> plan) w1 k i Hvalid' Hk)
      as (x & res & wk & Hx & Hres & Hwk & Heq).
    destruct (gather env ctx ready (<[j := s']> plan) w1) as [[rs plan'] w2].
    cbn [fst snd] in *.
    pose proof (lookup_same_shape plan (<[j := s']> plan) i Hplan) as Hi.
    rewrite Hx in Hi. destruct (plan !! i) as [y|] eqn:Hy; [| discriminate].
    assert (Hxy : step_shape x = step_shape y) by (cbn in Hi; congruence).
    exists y, res, wk. repeat split; [exact Hres | lia |].
    rewrite Heq. apply execute_step_result_shape; [exact Hxy | reflexivity].
Qed.

Lemma retry_events_call env ctx (s : ExecutionStep) t :
  retry_events (call_events env ctx s t) = [].
Proof. unfold call_events. destruct (tool env _ _ _); reflexivity. Qed.

Lemma retry_events_wave env ctx plan ready : ∀ t,
  retry_events (wave_events env ctx plan ready t) = [].
Proof.
  induction ready as [|i ready IH]; intros t; [reflexivity |].
  cbn [wave_events]. destruct (plan !! i); [| apply IH].
  rewrite retry_events_app, retry_events_call, IH. reflexivity.
Qed.

Lemma positions_valid (p : ExecutionStep -> bool) plan :
  Forall (fun i => ∃ s, plan !! i = Some s ∧ p s = true) (positions p plan).
Proof.
  apply Forall_forall. intros i Hi. unfold positions in Hi.
  apply list_elem_of_fmap in Hi as ([j s] & -> & Hin).
  apply list_elem_of_filter in Hin as [Hp Hin].
  apply elem_of_lookup_imap in Hin as (k & y & Heq & Hk).
  inversion Heq; subst. eauto.
Qed.

Lemma ready_steps_valid plan done :
  Forall (fun i => is_Some (plan !! i)) (ready_steps plan done).
Proof.
  eapply Forall_impl; [apply positions_valid |].
  intros i (s & Hs & _). eauto.
Qed.

Lemma callback_spec cbk w kind :
  breaker (callback cbk w kind) = breaker w
  ∧ retry_events (trace (callback cbk w kind)) = retry_events (trace w).
Proof.
  destruct cbk; cbn; [| auto]. rewrite retry_events_app. cbn.
  rewrite app_nil_r. auto.
Qed.

Lemma callback_extends cbk w kind :
  (∃ rest, trace (callback cbk w kind) = (trace w ++ rest)%list)
  ∧ tick (callback cbk w kind) = tick w.
Proof.
  destruct cbk; cbn; split; try reflexivity; [eauto |].
  exists []. rewrite app_nil_r. reflexivity.
Qed.

Lemma process_results_world cbk results : ∀ st,
  breaker (ps_world (process_results cbk results st).2) = breaker (ps_world st)
  ∧ retry_events (trace (ps_world (process_results cbk results st).2))
    = retry_events (trace (ps_world st))
  ∧ (∃ rest, trace (ps_world (process_results cbk results st).2)
             = (trace (ps_world st) ++ rest)%list)
  ∧ tick (ps_world (process_results cbk results st).2) = tick (ps_world st).
Proof.
  induction results as [|[i r] results IH]; intros st.
  { cbn. repeat split; try reflexivity. exists []. rewrite app_nil_r. reflexivity. }
  cbn [process_results]. destruct (ps_plan st !! i) as [s|]; [| apply IH].
  destruct r as [res | e].
  - destruct (dict_update (ps_context st) (er_context_updates res)) as [[u | e] c'].
    + destruct (IH (mkPlanState (ps_plan st) c' ({[id s]} ∪ ps_completed st)
                      (callback cbk (ps_world st) "step_complete")))
        as (H1 & H2 & [rest H3] & H4).
      rewrite H1, H2, H3, H4. cbn [ps_world].
      destruct (callback_spec cbk (ps_world st) "step_complete") as [Hb Hr].
      destruct (callback_extends cbk (ps_world st) "step_complete") as [[rest' Ht] Htk].
      repeat split; try assumption.
      exists (rest' ++ rest)%list. rewrite Ht, <- app_assoc. reflexivity.
    + cbn [snd ps_world]. repeat split; try reflexivity.
      exists []. rewrite app_nil_r. reflexivity.
  - cbn [snd ps_world].
    destruct (callback_spec cbk (ps_world st) "step_failed") as [Hb Hr].
    destruct (callback_extends cbk (ps_world st) "step_failed") as [Ht Htk].
    repeat split; assumption.
Qed.

(** A whole run of the scheduler neither consults nor updates the
    breaker, and adds no retry-engine event to the trace; it only adds to
    the trace and to the count of oracle consultations. *)
Lemma plan_loop_no_retry env cbk fuel : ∀ st r st',
  plan_loop fuel env cbk st = Some (r, st') ->
  breaker (ps_world st') = breaker (ps_world st)
  ∧ retry_events (trace (ps_world st')) = retry_events (trace (ps_world st))
  ∧ (∃ rest, trace (ps_world st') = (trace (ps_world st) ++ rest)%list)
  ∧ (tick (ps_world st) <= tick (ps_world st'))%nat.
Proof.
  assert (Hnil : ∀ w : World, ∃ rest, trace w = (trace w ++ rest)%list).
  { intros w. exists []. rewrite app_nil_r. reflexivity. }
  induction fuel as [|fuel IH]; intros st r st' H; [discriminate |].
  cbn [plan_loop] in H.
  destruct (size (ps_completed st) <? length (ps_plan st))%nat;
    [| inversion H; subst; auto].
  pose proof (ready_steps_valid (ps_plan st) (ps_completed st)) as Hvalid.
  destruct (ready_steps (ps_plan st) (ps_completed st)) as [|i ready] eqn:Hready.
  - destruct (pending _ _); inversion H; subst; auto.
  - destruct (gather_spec env (ps_context st) (i :: ready) (ps_plan st) (ps_world st)
                Hvalid) as (_ & _ & Htr & Hbr & Htk).
    destruct (gather env (ps_context st) (i :: ready) (ps_plan st) (ps_world st))
      as [[results plan1] w1].
    cbn [fst snd] in Htr, Hbr, Htk.
    pose proof (process_results_world cbk results
                  (mkPlanState plan1 (ps_context st) (ps_completed st) w1))
      as (Hb & Ht & [rest Hx] & Hk).
    destruct (process_results cbk results _) as [[res|] st2];
      cbn [snd ps_world] in Hb, Ht, Hx, Hk.
    + inversion H; subst.
      rewrite Hb, Ht, Hx, Hk, Hbr, Htr, Htk, retry_events_app, retry_events_wave,
        app_nil_r.
      repeat split; [| lia]. rewrite <- app_assoc. eauto.
    + destruct (IH _ _ _ H) as (Hb' & Ht' & [rest' Hx'] & Hk').
      rewrite Hb', Ht', Hx', Hb, Ht, Hx, Hbr, Htr, retry_events_app,
        retry_events_wave, app_nil_r.
      repeat split; [| lia]. rewrite <- !app_assoc. eauto.
Qed.




(** C1. The scheduler of [execute_plan] on the one-step plan whose
    handler raises the interruption signal ["payment_required"] with data
    [{"amount": 680}]. [gather] collects the signal with the other
    exceptions: the step is marked failed with the signal's text as its
    error and the call returns the batch-failure dictionary, so no
    signal reaches the caller. On the same step the orchestrator's own
    driver, which goes through the retry engine and not through this
    function, lets the signal through: the task ends INTERRUPTED with the
    reason and data stored and the step is not marked failed. *)
Theorem scheduler_collects_signal_as_failure :
  let env := env_const payment_signal in
  let step := sample_step "s6" "request_payment_approval" [] in
  let signal := HumanInterruptionRequired "payment_required" [("amount", VInt 680)] in
  (∃ st step',
     execute_plan 2 env [step] ∅ false w0 = Some (Ok (PlanFailure 0 signal 0), st)
     ∧ ps_plan st = [step']
     ∧ status step' = STEP_FAILED
     ∧ error step' = Some "payment_required"
     ∧ count_handler_calls (trace (ps_world st)) = 1%nat)
  ∧ (∃ w' task' step',
       AgentOrchestrator._resume_execution 1 env w0 task_executing = Some (w', task')
       ∧ plan task_executing = [step]
       ∧ task_status task' = INTERRUPTED
       ∧ interrupt_reason task' = Some "payment_required"
       ∧ interrupt_data task' = Some [("amount", VInt 680)]
       ∧ plan task' = [step']
       ∧ status step' = STEP_IN_PROGRESS
       ∧ error step' = None
       ∧ count_handler_calls (trace w') = 1%nat).
Proof.
  intros env step signal. split.
  - eexists _, _. split; [vm_compute; reflexivity |].
    repeat split; vm_compute; reflexivity.
  - eexists _, _, _. split; [vm_compute; reflexivity |].
    repeat split; vm_compute; reflexivity.
Qed.

End Waves.

(** ** Deadlock detection *)

Section Deadlock.

Import ExecutorEngine.

Implicit Types (plan : list ExecutionStep) (st : PlanState) (done : gset string).

Lemma size_list_to_set_le (l : list string) :
  (size (list_to_set l : gset string) <= length l)%nat.
Proof.
  induction l as [|x l IH]; [rewrite list_to_set_nil, size_empty; lia |].
  rewrite list_to_set_cons, size_union_alt, size_singleton. cbn [length].
  assert (size (list_to_set l ∖ {[x]} : gset string)
          <= size (list_to_set l : gset string))%nat
    by (apply subseteq_size; set_solver).
  lia.
Qed.

Lemma is_ready_true done (s : ExecutionStep) :
  is_ready done s = true ->
  (id s ∉ done) ∧ (∀ d, d ∈ dependencies s -> d ∈ done).
Proof.
  unfold is_ready. intros H.
  apply andb_true_iff in H as [H Hdeps]. apply andb_true_iff in H as [Hid _].
  split.
  - apply negb_true_iff, bool_decide_eq_false in Hid. exact Hid.
  - intros d Hd. rewrite forallb_forall in Hdeps.
    apply list_elem_of_In in Hd. apply Hdeps in Hd.
    apply bool_decide_eq_true in Hd. exact Hd.
Qed.

Lemma step_shape_inv (s s' : ExecutionStep) :
  Some (step_shape s) = Some (step_shape s') ->
  id s = id s' ∧ dependencies s = dependencies s'.
Proof. unfold step_shape. intros H. inversion H. auto. Qed.

Lemma same_shape_pending plan plan' done :
  step_shape <$> plan' = step_shape <$> plan ->
  pending_info <$> pending plan' done = pending_info <$> pending plan done.
Proof.
  revert plan'. induction plan as [|s plan IH]; intros [|s' plan'] H;
    try discriminate; [reflexivity |].
  cbn in H. inversion H as [[Hid Hact Hpar Hdeps Hrest]].
  unfold pending in *. rewrite !filter_cons.
  specialize (IH plan' Hrest).
  rewrite Hid. destruct (decide (id s ∉ done)); [| exact IH].
  cbn. rewrite IH. unfold pending_info. rewrite Hid, Hdeps. reflexivity.
Qed.

Lemma process_results_spec cbk (P : string -> Prop) results : ∀ st,
  (∀ x, x ∈ ps_completed st -> P x) ->
  Forall (fun ir => ∀ s, ps_plan st !! ir.1 = Some s -> P (id s)) results ->
  step_shape <$> ps_plan (process_results cbk results st).2
  = step_shape <$> ps_plan st
  ∧ (∀ x, x ∈ ps_completed (process_results cbk results st).2 -> P x)
  ∧ ps_completed st ⊆ ps_completed (process_results cbk results st).2
  ∧ ((process_results cbk results st).1 = None ->
     Forall (fun ir => ∀ s, ps_plan st !! ir.1 = Some s ->
                            id s ∈ ps_completed (process_results cbk results st).2)
            results)
  ∧ (∀ r, (process_results cbk results st).1 = Some r ->
          (∃ i e k, r = Ok (PlanFailure i e k) ∧ (i, Raise e) ∈ results)
          ∨ (∃ i res c e, r = Raise e ∧ (i, Ok res) ∈ results
                          ∧ (dict_update c (er_context_updates res)).1 = Raise e)).
Proof.
  induction results as [|[i r] results IH]; intros st Hdone Hres.
  - cbn. split; [| split; [| split; [| split]]]; auto.
    intros fr H; discriminate.
  - apply Forall_cons in Hres as [Hi Hres]. cbn [fst] in Hi.
    cbn [process_results].
    destruct (ps_plan st !! i) as [s|] eqn:Hs.
    + destruct r as [res | e].
      * assert (Hdone1 : ∀ x, x ∈ {[id s]} ∪ ps_completed st -> P x).
        { intros x Hx. apply elem_of_union in Hx as [Hx | Hx].
          - apply elem_of_singleton in Hx as ->. apply Hi. reflexivity.
          - apply Hdone. exact Hx. }
        destruct (dict_update (ps_context st) (er_context_updates res))
          as [[u | e] c'] eqn:Hupd.
        -- set (st1 := mkPlanState (ps_plan st) c' ({[id s]} ∪ ps_completed st)
                         (callback cbk (ps_world st) "step_complete")).
           destruct (IH st1 Hdone1 Hres) as (H1 & H2 & H3 & H4 & H5).
           split; [| split; [| split; [| split]]].
           ++ exact H1.
           ++ exact H2.
           ++ etrans; [| exact H3]. cbn. set_solver.
           ++ intros Hnone. constructor; [| apply H4; exact Hnone].
              cbn [fst]. intros s' Hs'. rewrite Hs in Hs'. inversion Hs'; subst s'.
              apply H3. cbn. set_solver.
           ++ intros fr Hr.
              destruct (H5 fr Hr) as [(j & e & k & -> & Hin)
                                     | (j & res' & c & e & -> & Hin & Hraise)].
              ** left. exists j, e, k. split; [reflexivity |]. right. exact Hin.
              ** right. exists j, res', c, e.
                 split; [reflexivity |]. split; [right; exact Hin | exact Hraise].
        -- cbn [fst snd ps_plan ps_completed].
           split; [| split; [| split; [| split]]].
           ++ reflexivity.
           ++ exact Hdone1.
           ++ set_solver.
           ++ intros Hnone; discriminate.
           ++ intros fr Hr. inversion Hr; subst. right.
              exists i, res, (ps_context st), e.
              split; [reflexivity |]. split; [left |]. rewrite Hupd. reflexivity.
      * cbn [fst snd ps_plan ps_completed].
        split; [| split; [| split; [| split]]].
        -- apply (insert_same_shape _ _ s); [exact Hs | reflexivity].
        -- exact Hdone.
        -- reflexivity.
        -- intros Hnone; discriminate.
        -- intros fr Hr. inversion Hr; subst. left. eexists _, _, _.
           split; [reflexivity | left].
    + destruct (IH st Hdone Hres) as (H1 & H2 & H3 & H4 & H5).
      split; [| split; [| split; [| split]]]; auto.
      * intros Hnone. constructor; [| apply H4; exact Hnone].
        cbn [fst]. intros s' Hs'. rewrite Hs in Hs'. discriminate.
      * intros fr Hr.
        destruct (H5 fr Hr) as [(j & e & k & -> & Hin)
                               | (j & res' & c & e & -> & Hin & Hraise)].
        -- left. exists j, e, k. split; [reflexivity |]. right. exact Hin.
        -- right. exists j, res', c, e.
           split; [reflexivity |]. split; [right; exact Hin | exact Hraise].
Qed.

(** With tools that return a result whose context updates are a
    dictionary or absent, a step execution returns, and the context
    accepts its updates. *)
Lemma execute_step_returns env (s : ExecutionStep) ctx (w : World) :
  tools_never_raise env ->
  ∃ res d, (execute_step env s ctx w).1.1 = Ok res ∧ er_context_updates res = VDict d.
Proof.
  intros Hall. unfold execute_step.
  destruct (Hall (action_type (step_set_status s STEP_IN_PROGRESS))
              (_resolve_parameters ctx (parameters (step_set_status s STEP_IN_PROGRESS)))
              (tick w)) as (res & d & Hres & Hd).
  rewrite Hres. exists (mkExecResult res (context_updates_of res)), d.
  split; [reflexivity | exact Hd].
Qed.

(** Every collected result is what [execute_step] returned or raised. *)
Lemma gather_results env ctx ready : ∀ plan w,
  Forall (fun ir => ∃ s w1, ir.2 = (execute_step env s ctx w1).1.1)
         (gather env ctx ready plan w).1.1.
Proof.
  induction ready as [|i ready IH]; intros plan w; [constructor |].
  cbn [gather]. destruct (plan !! i) as [s|]; [| apply IH].
  destruct (execute_step env s ctx w) as [[r s'] w1] eqn:E.
  specialize (IH (<[i := s']> plan) w1).
  destruct (gather env ctx ready (<[i := s']> plan) w1) as [[rs plan'] w2].
  cbn [fst] in *. constructor; [| exact IH].
  exists s, w. rewrite E. reflexivity.
Qed.

Section Blocked.

Variables (env : Env) (cbk : bool) (plan0 : list ExecutionStep).

(** A set of ids that can never complete: every step carrying one of
    them waits for another of them or for an id that no step carries. *)
Variable B : string -> Prop.
Hypothesis B_closed : ∀ s, s ∈ plan0 -> B (id s) ->
  ∃ d, d ∈ dependencies s ∧ (B d ∨ d ∉ (id <$> plan0)).
Hypothesis B_inhabited : ∃ s, s ∈ plan0 ∧ B (id s).

#[local] Abbreviation plan_inv := (scheduler_invariant plan0 B).

Lemma same_shape_ids plan :
  step_shape <$> plan = step_shape <$> plan0 -> id <$> plan = id <$> plan0.
Proof.
  intros H.
  assert (Hf : ∀ l : list ExecutionStep,
             id <$> l = (fun sh => sh.1.1.1) <$> (step_shape <$> l)).
  { intros l. rewrite <- list_fmap_compose. reflexivity. }
  rewrite !Hf, H. reflexivity.
Qed.

Lemma same_shape_step plan i (s : ExecutionStep) :
  step_shape <$> plan = step_shape <$> plan0 -> plan !! i = Some s ->
  ∃ s0, plan0 !! i = Some s0 ∧ s0 ∈ plan0
        ∧ id s0 = id s ∧ dependencies s0 = dependencies s.
Proof.
  intros Hsh Hs.
  pose proof (lookup_same_shape plan0 plan i Hsh) as Hi.
  rewrite Hs in Hi. destruct (plan0 !! i) as [s0|] eqn:H0; [| discriminate].
  exists s0. split; [reflexivity |].
  split; [eapply list_elem_of_lookup_2; exact H0 |].
  destruct (step_shape_inv _ _ Hi). auto.
Qed.

(** A ready step is not blocked. *)
Lemma ready_not_blocked st i (s : ExecutionStep) :
  plan_inv st -> ps_plan st !! i = Some s ->
  is_ready (ps_completed st) s = true ->
  ¬ B (id s) ∧ id s ∈ (id <$> plan0).
Proof.
  intros [Hsh Hdone] Hs Hready.
  destruct (same_shape_step _ _ _ Hsh Hs) as (s0 & _ & Hin & Hid & Hdeps).
  apply is_ready_true in Hready as [_ Hall].
  split.
  - intros HB. rewrite <- Hid in HB.
    destruct (B_closed s0 Hin HB) as (d & Hd & Hbad).
    rewrite Hdeps in Hd. destruct (Hdone d (Hall d Hd)) as [HnB Hind].
    destruct Hbad; contradiction.
  - rewrite <- Hid. apply list_elem_of_fmap. eauto.
Qed.

Lemma completed_lt_length st :
  plan_inv st -> (size (ps_completed st) < length plan0)%nat.
Proof.
  intros [_ Hdone]. destruct B_inhabited as (sb & Hsb & HB).
  assert (Hsub : ps_completed st ⊂ (list_to_set (id <$> plan0) : gset string)).
  { split.
    - intros x Hx. apply elem_of_list_to_set. apply Hdone. exact Hx.
    - intros Hsup.
      assert (Hin : id sb ∈ ps_completed st).
      { apply Hsup, elem_of_list_to_set, list_elem_of_fmap. eauto. }
      destruct (Hdone _ Hin) as [HnB _]. contradiction. }
  apply subset_size in Hsub.
  pose proof (size_list_to_set_le (id <$> plan0)) as Hle.
  rewrite length_fmap in Hle. lia.
Qed.

(** With a blocked step in the plan, a run with enough fuel ends, and
    ends either with the failure of a step that was executed or with
    the deadlock error built from all pending steps. *)
Lemma plan_loop_blocked fuel : ∀ st,
  plan_inv st ->
  (length plan0 - size (ps_completed st) < fuel)%nat ->
  ∃ r st',
    plan_loop fuel env cbk st = Some (r, st')
    ∧ plan_inv st'
    ∧ ((∃ i e k s ctx w, r = Ok (PlanFailure i e k)
                         ∧ (execute_step env s ctx w).1.1 = Raise e)
       ∨ (∃ s ctx w res c e, r = Raise e
                             ∧ (execute_step env s ctx w).1.1 = Ok res
                             ∧ (dict_update c (er_context_updates res)).1 = Raise e)
       ∨ r = Raise (ExecutionError
                      (deadlock_message
                         (pending_info <$> pending plan0 (ps_completed st'))))).
Proof.
  induction fuel as [|fuel IH]; intros st Hinv Hfuel; [lia |].
  pose proof (completed_lt_length st Hinv) as Hlt.
  destruct Hinv as [Hsh Hdone].
  assert (Hlen : length (ps_plan st) = length plan0).
  { rewrite <- (length_fmap step_shape (ps_plan st)), Hsh, length_fmap. reflexivity. }
  cbn [plan_loop]. rewrite Hlen.
  destruct (Nat.ltb_spec (size (ps_completed st)) (length plan0)) as [_ | Hge];
    [| lia].
  pose proof (positions_valid (is_ready (ps_completed st)) (ps_plan st)) as Hready.
  fold (ready_steps (ps_plan st) (ps_completed st)) in Hready.
  destruct (ready_steps (ps_plan st) (ps_completed st)) as [|i0 ready] eqn:Er.
  - (* nothing is ready *)
    destruct B_inhabited as (sb & Hsb & HB).
    assert (Hpend : pending_info <$> pending (ps_plan st) (ps_completed st)
                    = pending_info <$> pending plan0 (ps_completed st))
      by (apply same_shape_pending; exact Hsh).
    destruct (pending (ps_plan st) (ps_completed st)) as [|p pend] eqn:Ep.
    + exfalso.
      assert (Hin : sb ∈ pending plan0 (ps_completed st)).
      { apply list_elem_of_filter. split; [| exact Hsb].
        intros Hc. destruct (Hdone _ Hc). contradiction. }
      destruct (pending plan0 (ps_completed st)); [| discriminate].
      inversion Hin.
    + eexists _, st. split; [reflexivity |]. split; [split; assumption |].
      right. right. rewrite <- Hpend. reflexivity.
  - (* a wave *)
    assert (Hvalid : Forall (fun i => is_Some (ps_plan st !! i)) (i0 :: ready)).
    { eapply Forall_impl; [exact Hready |]. intros i (s & Hs & _). eauto. }
    destruct (gather_spec env (ps_context st) (i0 :: ready) (ps_plan st)
                (ps_world st) Hvalid) as (Hfst & Hsh1 & _).
    pose proof (gather_results env (ps_context st) (i0 :: ready) (ps_plan st)
                  (ps_world st)) as Hres.
    destruct (gather env (ps_context st) (i0 :: ready) (ps_plan st) (ps_world st))
      as [[results plan1] w1].
    cbn [fst snd] in Hfst, Hsh1, Hres.
    set (st1 := mkPlanState plan1 (ps_context st) (ps_completed st) w1).
    assert (Hok : Forall (fun ir => ∀ s, ps_plan st1 !! ir.1 = Some s ->
                            ¬ B (id s) ∧ id s ∈ (id <$> plan0)) results).
    { apply Forall_forall. intros [i r] Hir s Hs. cbn [fst ps_plan st1] in Hs.
      assert (Hi : i ∈ i0 :: ready).
      { rewrite <- Hfst. apply list_elem_of_fmap. exists (i, r). auto. }
      rewrite Forall_forall in Hready.
      destruct (Hready i Hi) as (s' & Hs' & Hrdy).
      pose proof (lookup_same_shape (ps_plan st) plan1 i Hsh1) as Hii.
      rewrite Hs, Hs' in Hii. destruct (step_shape_inv _ _ Hii) as [Hid _].
      destruct (ready_not_blocked st i s' (conj Hsh Hdone) Hs' Hrdy) as [H1 H2].
      rewrite Hid. auto. }
    destruct (process_results_spec cbk
                (fun x => ¬ B x ∧ x ∈ (id <$> plan0)) results st1 Hdone Hok)
      as (Hp1 & Hp2 & Hp3 & Hp4 & Hp5).
    destruct (process_results cbk results st1) as [[failure|] st2] eqn:Ep;
      cbn [fst snd] in Hp1, Hp2, Hp3, Hp4, Hp5.
    + rewrite Forall_forall in Hres.
      exists failure, st2. split; [reflexivity |].
      split; [split; [rewrite Hp1; cbn [ps_plan st1]; rewrite Hsh1; exact Hsh
                     | exact Hp2] |].
      destruct (Hp5 failure eq_refl) as [(i & e & k & -> & Hin)
                                        | (i & res & c & e & -> & Hin & Hraise)].
      * destruct (Hres _ Hin) as (s & w' & Hexec). cbn [snd] in Hexec.
        left. exists i, e, k, s, (ps_context st), w'. auto.
      * destruct (Hres _ Hin) as (s & w' & Hexec). cbn [snd] in Hexec.
        right. left. exists s, (ps_context st), w', res, c, e. auto.
    + assert (Hinv2 : plan_inv st2).
      { split; [rewrite Hp1; cbn [ps_plan st1]; rewrite Hsh1; exact Hsh | exact Hp2]. }
      assert (Hgrow : (size (ps_completed st) < size (ps_completed st2))%nat).
      { apply subset_size. split; [exact Hp3 |].
        intros Hsup.
        rewrite Forall_forall in Hready.
        destruct (Hready i0 ltac:(left)) as (s0 & Hs0 & Hrdy).
        apply is_ready_true in Hrdy as [Hnot _].
        assert (Hin0 : i0 ∈ results.*1) by (rewrite Hfst; left).
        apply list_elem_of_fmap in Hin0 as ([j r] & Hj & Hin0). cbn in Hj. subst j.
        specialize (Hp4 eq_refl). rewrite Forall_forall in Hp4.
        pose proof (lookup_same_shape (ps_plan st) plan1 i0 Hsh1) as Hii.
        rewrite Hs0 in Hii. destruct (plan1 !! i0) as [s1|] eqn:Hs1; [| discriminate].
        destruct (step_shape_inv _ _ Hii) as [Hid _].
        specialize (Hp4 _ Hin0 s1 Hs1). rewrite Hid in Hp4.
        apply Hnot, Hsup, Hp4. }
      pose proof (completed_lt_length st2 Hinv2) as Hlt2.
      destruct (IH st2 Hinv2 ltac:(lia)) as (r & st' & Hrun & Hinv' & Hout).
      exists r, st'. auto.
Qed.

End Blocked.

Lemma NoDup_id_eq plan (s s' : ExecutionStep) :
  NoDup (id <$> plan) -> s ∈ plan -> s' ∈ plan -> id s = id s' -> s = s'.
Proof.
  induction plan as [|a plan IH]; intros Hnd Hs Hs' Heq; [inversion Hs |].
  cbn in Hnd. apply NoDup_cons in Hnd as [Hna Hnd].
  apply elem_of_cons in Hs as [-> | Hs]; apply elem_of_cons in Hs' as [-> | Hs'].
  - reflexivity.
  - exfalso. apply Hna. rewrite Heq. apply list_elem_of_fmap. eauto.
  - exfalso. apply Hna. rewrite <- Heq. apply list_elem_of_fmap. eauto.
  - apply IH; assumption.
Qed.

Lemma stuck_closed plan (s : ExecutionStep) :
  NoDup (id <$> plan) -> s ∈ plan -> stuck plan (id s) ->
  ∃ d, d ∈ dependencies s ∧ (stuck plan d ∨ d ∉ (id <$> plan)).
Proof.
  intros Hnd Hs (y & Hrtc & Hy).
  assert (Hedge : ∀ z, depends_on plan (id s) z -> z ∈ dependencies s).
  { intros z (s' & Hs' & Hid & Hz).
    rewrite (NoDup_id_eq plan s s' Hnd Hs Hs' (eq_sym Hid)). exact Hz. }
  apply rtc_inv in Hrtc as [<- | (z & Hxz & Hzy)].
  - destruct Hy as [Hcyc | (s' & Hs' & Hid & d & Hd & Hnot)].
    + unfold on_cycle in Hcyc.
      inversion Hcyc as [x1 y1 HR | x1 z y1 HR Htc]; subst.
      * exists (id s). split; [apply Hedge; exact HR |].
        left. exists (id s). split; [apply rtc_refl | left; exact Hcyc].
      * exists z. split; [apply Hedge; exact HR |].
        left. exists (id s). split; [apply tc_rtc; exact Htc | left; exact Hcyc].
    + rewrite <- (NoDup_id_eq plan s s' Hnd Hs Hs' (eq_sym Hid)) in Hd.
      exists d. auto.
  - exists z. split; [apply Hedge; exact Hxz |].
    left. exists y. auto.
Qed.




End Deadlock.

(** ** Bounded validate-and-replan loop *)

Section Replanning.

Import AgentOrchestrator.

Lemma count_planner_calls_app l1 l2 :
  count_planner_calls (l1 ++ l2)
  = (count_planner_calls l1 + count_planner_calls l2)%nat.
Proof. unfold count_planner_calls. rewrite List.filter_app, length_app. reflexivity. Qed.

Lemma count_validations_app l1 l2 :
  count_validations (l1 ++ l2) = (count_validations l1 + count_validations l2)%nat.
Proof. unfold count_validations. rewrite List.filter_app, length_app. reflexivity. Qed.

Ltac count_events :=
  unfold _notify_failure, _broadcast_update, save_state, log, next_tick, set_breaker;
  cbn [trace];
  rewrite ?count_planner_calls_app, ?count_validations_app; cbn; lia.

Lemma dict_get_set (d : PyDict) (k : string) (x : PyVal) :
  dict_get (dict_set d k x) k = Some x.
Proof.
  induction d as [|[k' x'] d IH]; cbn.
  - rewrite String.eqb_refl. reflexivity.
  - destruct (String.eqb k' k) eqn:E; cbn.
    + rewrite String.eqb_refl. reflexivity.
    + rewrite E. exact IH.
Qed.

Lemma build_result_summary_status (task : TaskState) (s : TaskStatus) :
  _build_result_summary (set_status task s) = _build_result_summary task.
Proof. reflexivity. Qed.

(** Building the result summary raises in the healthcare branch only. *)
Lemma build_result_summary_raises (task : TaskState) (e : Exn) :
  _build_result_summary task = Raise e ->
  e = OtherError "AttributeError"
  ∧ ∃ o, outcome task = Some o ∧ domain o = "healthcare".
Proof.
  unfold _build_result_summary. destruct (outcome task) as [o|]; [| discriminate].
  destruct (String.eqb (domain o) "travel"); [discriminate |].
  destruct (String.eqb (domain o) "healthcare") eqn:Hh.
  - apply String.eqb_eq in Hh. intros H. split; [| eauto].
    destruct (truthy _); [| discriminate].
    destruct (opt_val _); inversion H; reflexivity.
  - destruct (String.eqb (domain o) "business"); discriminate.
Qed.

Lemma notify_completion_spec (w : World) (task : TaskState) (validation : PyDict) :
  ∃ res w' task',
    _notify_completion w task validation = Some (res, w', task')
    ∧ task_status task' = task_status task
    ∧ outcome task' = outcome task
    ∧ plan task' = plan task
    ∧ count_planner_calls (trace w') = count_planner_calls (trace w)
    ∧ count_validations (trace w') = count_validations (trace w)
    ∧ context task' !! "_replan_count" = context task !! "_replan_count"
    ∧ match _build_result_summary task with
      | Ok summary =>
          res = Ok tt
          ∧ context task'
            = <["validation_result" := VDict validation]>
                (<["final_result" := VDict summary]> (context task))
          ∧ trace w' = (trace w ++ [EvBroadcast "completed"])%list
      | Raise e => res = Raise e ∧ task' = task ∧ w' = w
      end.
Proof.
  unfold _notify_completion.
  destruct (_build_result_summary task) as [summary | e].
  - eexists _, _, _. split; [reflexivity |].
    split; [reflexivity |]. split; [reflexivity |]. split; [reflexivity |].
    split; [count_events |]. split; [count_events |].
    split; [cbn; rewrite !lookup_insert_ne by discriminate; reflexivity |].
    repeat split; reflexivity.
  - eexists _, _, _. split; [reflexivity |]. repeat split; reflexivity.
Qed.

(** Validation of a task whose replan counter has reached 3. *)
Lemma validate_forces_completion (rec : World -> TaskState -> Run) (env : Env)
    (w : World) (task : TaskState) (v : Validation) (n : Z) :
  task_status task = EXECUTING ->
  validate_completion env (outcome task) (context task) (history task) (tick w) = Ok v ->
  confidence_printable v ->
  completed v = false ->
  context task !! "_replan_count" = Some (VInt n) ->
  3 <= n ->
  ∃ res w' task',
    _validate_and_complete rec env w task = Some (res, w', task')
    ∧ task_status task' = COMPLETED
    ∧ outcome task' = outcome task
    ∧ plan task' = plan task
    ∧ count_planner_calls (trace w') = count_planner_calls (trace w)
    ∧ count_validations (trace w') = S (count_validations (trace w))
    ∧ context task' !! "_replan_count" = Some (VInt n)
    ∧ dict_get (annotated v) "note" = Some (VStr forced_note)
    ∧ match _build_result_summary task with
      | Ok summary =>
          res = Ok tt
          ∧ context task'
            = <["validation_result" := VDict (annotated v)]>
                (<["final_result" := VDict summary]> (context task))
          ∧ trace w'
            = (trace w ++ [EvBroadcast "status_change"; EvValidate;
                           EvBroadcast "completed"])%list
      | Raise e =>
          res = Raise e
          ∧ context task' = context task
          ∧ trace w' = (trace w ++ [EvBroadcast "status_change"; EvValidate])%list
      end.
Proof.
  intros Hst Hval Hconf Hc Hn Hge.
  unfold _validate_and_complete.
  rewrite transition_allowed
    by (rewrite Hst; apply (bool_decide_eq_true_1 _); reflexivity).
  cbn [set_status context outcome history task_status tick log _broadcast_update
       next_tick].
  rewrite Hval, Hconf, Hc. unfold replan_count_of. rewrite Hn.
  destruct (Z.leb_spec 3 n) as [_ | Hlt]; [| lia].
  rewrite transition_allowed by (apply (bool_decide_eq_true_1 _); reflexivity).
  match goal with
  | |- context [_notify_completion ?w1 ?t1 ?d] =>
      destruct (notify_completion_spec w1 t1 d)
        as (res & w' & task' & Hrun & H1 & H2 & H3 & H4 & H5 & H6 & H7)
  end.
  rewrite !build_result_summary_status in H7.
  exists res, w', task'. split; [exact Hrun |].
  split; [rewrite H1; reflexivity |].
  split; [rewrite H2; reflexivity |].
  split; [rewrite H3; reflexivity |].
  split; [rewrite H4; count_events |].
  split; [rewrite H5; count_events |].
  split; [rewrite H6; exact Hn |].
  split; [apply dict_get_set |].
  destruct (_build_result_summary task) as [summary | e].
  - destruct H7 as (Hres & Hctx & Htr).
    split; [exact Hres |]. split; [exact Hctx |].
    rewrite Htr. unfold _broadcast_update, next_tick, log. cbn [trace].
    rewrite <- ?app_assoc. reflexivity.
  - destruct H7 as (Hres & -> & ->).
    split; [exact Hres |]. split; [reflexivity |].
    unfold _broadcast_update, next_tick, log. cbn [trace].
    rewrite <- ?app_assoc. reflexivity.
Qed.

Lemma runs_to_refl env w task : runs_to env w task w task.
Proof. exists 0%nat. reflexivity. Qed.

Lemma runs_to_trans env w task w1 task1 w2 task2 :
  runs_to env w task w1 task1 -> runs_to env w1 task1 w2 task2 ->
  runs_to env w task w2 task2.
Proof.
  intros [k1 H1] [k2 H2]. exists (k1 + k2)%nat. intros fuel.
  rewrite <- Nat.add_assoc, H1, H2. reflexivity.
Qed.

Lemma events_added_refl w : events_added w w 0 0.
Proof. unfold events_added. lia. Qed.

Lemma events_added_trans w w1 w2 a b c d :
  events_added w w1 a b -> events_added w1 w2 c d ->
  events_added w w2 (a + c) (b + d).
Proof. unfold events_added. intros [H1 H2] [H3 H4]. lia. Qed.

Lemma ctx_update_lookup_ne (d : PyDict) (k : string) : ∀ ctx : gmap string PyVal,
  Forall (fun kv => kv.1 <> k) d -> ctx_update ctx d !! k = ctx !! k.
Proof.
  unfold ctx_update. induction d as [|[k' x] d IH]; intros ctx Hd; [reflexivity |].
  apply Forall_cons in Hd as [Hk Hd]. cbn [foldl].
  rewrite (IH _ Hd). apply lookup_insert_ne. exact Hk.
Qed.

Section Rework.

Variable env : Env.
Hypothesis Hval : validator_never_satisfied env.
Hypothesis Htool : tools_always_return env.
Hypothesis Hplan : planner_always_answers env.

(** With tools that return, the first attempt of a step succeeds. *)
Lemma retry_first_attempt_succeeds (step : ExecutionStep)
    (ctx : gmap string PyVal) (w : World) :
  0 <= max_retries step ->
  ∃ res d step' w',
    RetryEngine.execute_with_retry env step (ExecutorEngine.execute_step env) ctx w
    = (Ok (RetryEngine.Success (mkExecResult res (VDict d)) 1), step', w')
    ∧ max_retries step' = max_retries step
    ∧ Forall (fun kv => kv.1 <> "_replan_count") d
    ∧ events_added w w' 0 0.
Proof.
  intros Hmax. unfold RetryEngine.execute_with_retry.
  replace (Z.to_nat (max_retries step + 1)) with (S (Z.to_nat (max_retries step)))
    by lia.
  cbn [RetryEngine.retry_loop].
  destruct (CircuitBreaker.is_open _ _ _) as [b cb].
  unfold ExecutorEngine.execute_step.
  cbn [action_type parameters step_set_status step_set_retry_count id].
  match goal with
  | |- context [tool env ?a ?p ?t] =>
      destruct (Htool a p t) as (res & d & Hres & Hd & Hkeys)
  end.
  rewrite Hres. unfold updates_dict in Hd. rewrite Hd.
  eexists res, d, _, _. split; [reflexivity |].
  split; [reflexivity |]. split; [exact Hkeys |].
  unfold events_added. destruct b; split; count_events.
Qed.

(** One iteration of the driver loop on a step of the plan. *)
Lemma driver_step (n : Z) (w : World) (task : TaskState) (step : ExecutionStep) :
  rework_state n task ->
  plan task !! current_step_index task = Some step ->
  ∃ w' task',
    runs_to env w task w' task'
    ∧ rework_state n task'
    ∧ outcome task' = outcome task
    ∧ current_step_index task' = S (current_step_index task)
    ∧ length (plan task') = length (plan task)
    ∧ events_added w w' 0 0.
Proof.
  intros (Hst & Hmr & Hcount) Hstep.
  destruct (decide (status step = STEP_COMPLETED)) as [Hdone | Hnot].
  - exists w, (set_index task (S (current_step_index task))).
    split.
    { exists 1%nat. intros fuel. cbn [Nat.add _execute_plan].
      rewrite Hstep, bool_decide_eq_true_2 by exact Hdone. reflexivity. }
    split; [repeat split; assumption |].
    split; [reflexivity |].
    split; [reflexivity |]. split; [reflexivity | apply events_added_refl].
  - assert (Hmax : 0 <= max_retries step).
    { rewrite Forall_forall in Hmr. apply Hmr.
      eapply list_elem_of_lookup_2; exact Hstep. }
    destruct (retry_first_attempt_succeeds step (context task) w Hmax)
      as (res & d & step' & w' & Hrun & Hmax' & Hkeys & Hev).
    eexists _, _. split.
    { exists 1%nat. intros fuel. cbn [Nat.add _execute_plan].
      rewrite Hstep, bool_decide_eq_false_2 by exact Hnot.
      rewrite Hrun. cbn [er_context_updates dict_update context set_plan].
      reflexivity. }
    split; [| split; [reflexivity | split; [reflexivity | split]]].
    + split; [exact Hst |]. split.
      * cbn [plan set_index set_history set_context set_plan].
        apply Forall_insert; [exact Hmr | rewrite Hmax'; exact Hmax].
      * cbn [context set_index set_history set_context set_plan].
        rewrite (ctx_update_lookup_ne _ _ _ Hkeys). exact Hcount.
    + cbn [plan set_index set_history set_context set_plan].
      apply length_insert.
    + destruct Hev as [H1 H2]. unfold events_added in *.
      split; count_events.
Qed.

(** The loop runs through the remaining steps of the plan. *)
Lemma driver_runs_to_end (n : Z) (m : nat) : ∀ (w : World) (task : TaskState),
  rework_state n task ->
  (length (plan task) - current_step_index task = m)%nat ->
  ∃ w' task',
    runs_to env w task w' task'
    ∧ rework_state n task'
    ∧ outcome task' = outcome task
    ∧ plan task' !! current_step_index task' = None
    ∧ events_added w w' 0 0.
Proof.
  induction m as [|m IH]; intros w task Hrs Hm.
  - exists w, task. split; [apply runs_to_refl |]. split; [exact Hrs |].
    split; [reflexivity |].
    split; [apply lookup_ge_None; lia | apply events_added_refl].
  - destruct (lookup_lt_is_Some_2 (plan task) (current_step_index task))
      as [step Hstep]; [lia |].
    destruct (driver_step n w task step Hrs Hstep)
      as (w1 & task1 & Hrun1 & Hrs1 & Ho1 & Hidx & Hlen & Hev1).
    destruct (IH w1 task1 Hrs1 ltac:(lia))
      as (w2 & task2 & Hrun2 & Hrs2 & Ho2 & Hend & Hev2).
    exists w2, task2. split; [eapply runs_to_trans; eassumption |].
    split; [exact Hrs2 |]. split; [rewrite Ho2; exact Ho1 |]. split; [exact Hend |].
    exact (events_added_trans _ _ _ _ _ _ _ Hev1 Hev2).
Qed.

(** A validation below the ceiling: the counter goes up by one, the
    planner is asked once and the loop resumes. *)
Lemma validation_replans (n : Z) (w : World) (task : TaskState) :
  rework_state n task ->
  plan task !! current_step_index task = None ->
  n < 3 ->
  ∃ w' task',
    runs_to env w task w' task'
    ∧ rework_state (n + 1) task'
    ∧ outcome task' = outcome task
    ∧ events_added w w' 1 1.
Proof.
  intros (Hst & Hmr & Hcount) Hend Hlt.
  assert (Hrc : replan_count_of (context task) = Some n).
  { unfold replan_count_of. destruct Hcount as [-> | [-> ->]]; reflexivity. }
  destruct (Hval (outcome task) (context task) (history task) (tick w))
    as (v & Hv & Hcompleted & Hmore & Hconf).
  destruct (Hplan (outcome task)
              (<["_replan_count" := VInt (n + 1)]> (context task)) (tick w + 1)%nat)
    as (steps & Hsteps & Hsmr).
  eexists _, _. split.
  { exists 1%nat. intros fuel. cbn [Nat.add _execute_plan]. rewrite Hend.
    unfold _validate_and_complete.
    rewrite transition_allowed
      by (rewrite Hst; apply (bool_decide_eq_true_1 _); reflexivity).
    cbn [set_status context outcome history task_status tick log _broadcast_update
         next_tick].
    rewrite Hv, Hconf, Hcompleted, Hrc.
    destruct (Z.leb_spec 3 n) as [Hge | _]; [lia |].
    rewrite Hmore.
    cbn [set_context set_status context outcome tick log next_tick].
    replace (S (tick w)) with (tick w + 1)%nat by lia.
    rewrite Hsteps. reflexivity. }
  split; [| split; [reflexivity |]].
  - split; [reflexivity |]. split.
    + cbn [plan set_status set_plan set_context]. apply Forall_app. auto.
    + left. cbn [context set_status set_plan set_context].
      apply lookup_insert_eq.
  - unfold events_added. split; count_events.
Qed.

(** One full cycle: the rest of the plan, then a validation that
    asks for more work. *)
Lemma rework_cycle (n : Z) (w : World) (task : TaskState) :
  rework_state n task -> n < 3 ->
  ∃ w' task',
    runs_to env w task w' task'
    ∧ rework_state (n + 1) task'
    ∧ outcome task' = outcome task
    ∧ events_added w w' 1 1.
Proof.
  intros Hrs Hlt.
  destruct (driver_runs_to_end n _ w task Hrs eq_refl)
    as (w1 & task1 & Hrun1 & Hrs1 & Ho1 & Hend & Hev1).
  destruct (validation_replans n w1 task1 Hrs1 Hend Hlt)
    as (w2 & task2 & Hrun2 & Hrs2 & Ho2 & Hev2).
  exists w2, task2. split; [eapply runs_to_trans; eassumption |].
  split; [exact Hrs2 |]. split; [rewrite Ho2; exact Ho1 |].
  exact (events_added_trans _ _ _ _ _ _ _ Hev1 Hev2).
Qed.

(** The scenario: four validations in a row ask for more work; the
    fourth one, with the counter at 3, forces completion. The call ends
    normally with the annotated verdict stored, unless the result summary
    of a healthcare task cannot be built. *)
Lemma rework_scenario (w : World) (task : TaskState) :
  task_status task = EXECUTING ->
  Forall (fun s => 0 <= max_retries s) (plan task) ->
  context task !! "_replan_count" = None ->
  ∃ fuel0, ∀ fuel, (fuel0 <= fuel)%nat ->
    ∃ res w' task',
      _execute_plan fuel env w task = Some (res, w', task')
      ∧ task_status task' = COMPLETED
      ∧ events_added w w' 4 3
      ∧ context task' !! "_replan_count" = Some (VInt 3)
      ∧ ((res = Ok tt
          ∧ ∃ v, context task' !! "validation_result" = Some (VDict (annotated v))
                 ∧ dict_get (annotated v) "note" = Some (VStr forced_note))
         ∨ (res = Raise (OtherError "AttributeError")
            ∧ ∃ o, outcome task = Some o ∧ domain o = "healthcare")).
Proof.
  intros Hst Hmr Hnone.
  assert (Hrs0 : rework_state 0 task) by (repeat split; auto).
  destruct (rework_cycle 0 w task Hrs0 ltac:(lia))
    as (w1 & t1 & Hrun1 & Hrs1 & Ho1 & Hev1).
  destruct (rework_cycle 1 w1 t1 Hrs1 ltac:(lia))
    as (w2 & t2 & Hrun2 & Hrs2 & Ho2 & Hev2).
  destruct (rework_cycle 2 w2 t2 Hrs2 ltac:(lia))
    as (w3 & t3 & Hrun3 & Hrs3 & Ho3 & Hev3).
  destruct (driver_runs_to_end 3 _ w3 t3 Hrs3 eq_refl)
    as (w4 & t4 & Hrun4 & (Hst4 & _ & Hc4) & Ho4 & Hend & Hev4).
  destruct Hc4 as [Hc4 | [Hc4 _]]; [| discriminate].
  pose proof (runs_to_trans _ _ _ _ _ _ _ Hrun1
                (runs_to_trans _ _ _ _ _ _ _ Hrun2
                   (runs_to_trans _ _ _ _ _ _ _ Hrun3 Hrun4))) as [k Hk].
  pose proof (events_added_trans _ _ _ _ _ _ _ Hev1
                (events_added_trans _ _ _ _ _ _ _ Hev2
                   (events_added_trans _ _ _ _ _ _ _ Hev3 Hev4))) as Hev.
  destruct (Hval (outcome t4) (context t4) (history t4) (tick w4))
    as (v & Hv & Hcompleted & _ & Hconf).
  exists (k + 1)%nat. intros fuel Hfuel.
  replace fuel with (k + S (fuel - k - 1))%nat by lia.
  rewrite Hk. cbn [_execute_plan]. rewrite Hend.
  destruct (validate_forces_completion (_execute_plan (fuel - k - 1) env) env w4 t4
              v 3 Hst4 Hv Hconf Hcompleted Hc4 ltac:(lia))
    as (res & w' & task' & Hrun & Hdone & _ & _ & Hpl & Hvl & Hcount & Hnote & Hsum).
  exists res, w', task'. split; [exact Hrun |]. split; [exact Hdone |].
  split.
  { destruct Hev as [He1 He2]. unfold events_added in *. lia. }
  split; [exact Hcount |].
  destruct (_build_result_summary t4) as [summary | e] eqn:Hb.
  - left. destruct Hsum as (Hres & Hctx & _). split; [exact Hres |].
    exists v. split; [rewrite Hctx; apply lookup_insert_eq | exact Hnote].
  - right. destruct Hsum as (Hres & _).
    destruct (build_result_summary_raises t4 e Hb) as [-> (o & Ho & Hd)].
    split; [exact Hres |]. exists o. split; [| exact Hd]. congruence.
Qed.

End Rework.



End Replanning.

(* ===================================================================== *)
(** * Further properties of the code *)
(* ===================================================================== *)

(** ** Circuit breaker: independence of services and invariants *)

Section BreakerMore.

Import CircuitBreaker.

Implicit Types (cb : CircuitBreaker.t) (a b service : string) (now : Q).

(** What the breaker knows about one service. *)
Lemma is_open_answer_local cb cb' now b :
  state cb' !! b = state cb !! b ->
  last_failure_time cb' !! b = last_failure_time cb !! b ->
  recovery_timeout cb' = recovery_timeout cb ->
  (is_open cb' now b).1 = (is_open cb now b).1.
Proof.
  intros Hs Hl Hr. unfold is_open. rewrite Hs, Hl, Hr.
  destruct (state cb !! b) as [[]|]; try reflexivity.
  destruct (Qlt_le_dec _ _); reflexivity.
Qed.

(** X1. The three operations on one service leave every other service as
    it was: its failure count, its state, its last failure time and the
    answer [is_open] gives for it. *)
Theorem breaker_services_independent cb a b now now' :
  a <> b ->
  (count (record_failure cb now a) b = count cb b
   ∧ state (record_failure cb now a) !! b = state cb !! b
   ∧ last_failure_time (record_failure cb now a) !! b = last_failure_time cb !! b
   ∧ (is_open (record_failure cb now a) now' b).1 = (is_open cb now' b).1)
  ∧ (count (record_success cb a) b = count cb b
     ∧ state (record_success cb a) !! b = state cb !! b
     ∧ last_failure_time (record_success cb a) !! b = last_failure_time cb !! b
     ∧ (is_open (record_success cb a) now' b).1 = (is_open cb now' b).1)
  ∧ (count (is_open cb now a).2 b = count cb b
     ∧ state (is_open cb now a).2 !! b = state cb !! b
     ∧ last_failure_time (is_open cb now a).2 !! b = last_failure_time cb !! b
     ∧ (is_open (is_open cb now a).2 now' b).1 = (is_open cb now' b).1).
Proof.
  intros Hab.
  assert (Hf : count (record_failure cb now a) b = count cb b
               ∧ state (record_failure cb now a) !! b = state cb !! b
               ∧ last_failure_time (record_failure cb now a) !! b
                 = last_failure_time cb !! b
               ∧ recovery_timeout (record_failure cb now a) = recovery_timeout cb).
  { unfold record_failure, count. cbn.
    destruct (Z_le_gt_dec _ _); cbn; rewrite ?lookup_insert_ne by exact Hab; auto. }
  assert (Hs : count (record_success cb a) b = count cb b
               ∧ state (record_success cb a) !! b = state cb !! b
               ∧ last_failure_time (record_success cb a) !! b
                 = last_failure_time cb !! b
               ∧ recovery_timeout (record_success cb a) = recovery_timeout cb).
  { unfold record_success, count. cbn.
    destruct (state cb !! a) as [[]|]; cbn; rewrite ?lookup_insert_ne by exact Hab; auto. }
  assert (Ho : count (is_open cb now a).2 b = count cb b
               ∧ state (is_open cb now a).2 !! b = state cb !! b
               ∧ last_failure_time (is_open cb now a).2 !! b
                 = last_failure_time cb !! b
               ∧ recovery_timeout (is_open cb now a).2 = recovery_timeout cb).
  { unfold is_open, count.
    destruct (state cb !! a) as [[]|]; cbn; auto.
    destruct (Qlt_le_dec _ _); cbn; rewrite ?lookup_insert_ne by exact Hab; auto. }
  destruct Hf as (F1 & F2 & F3 & F4), Hs as (S1 & S2 & S3 & S4),
    Ho as (O1 & O2 & O3 & O4).
  repeat split; try assumption; apply is_open_answer_local; assumption.
Qed.

Lemma breaker_services_independent_witness :
  count (record_failure cb_opened 7 "book_flight") "search_flights" = 5
  ∧ (is_open (record_success cb_opened "book_flight") 10 "search_flights").1 = true.
Proof.
  pose proof (breaker_services_independent cb_opened "book_flight" "search_flights"
                7 10 ltac:(discriminate)) as ((H1 & _) & (_ & _ & _ & H2) & _).
  split; [rewrite H1 | rewrite H2]; vm_compute; reflexivity.
Defined.

(** X2. Every breaker an engine can hold keeps the default settings, never
    has a negative failure count, and has a state entry only for a service
    for which a failure was recorded (so a count and a last failure time
    exist for it). *)
Theorem breaker_reachable_invariant cb :
  breaker_reachable cb ->
  failure_threshold cb = 5
  ∧ recovery_timeout cb = 300%Q
  ∧ ∀ service,
      0 <= count cb service
      ∧ (is_Some (state cb !! service) ->
         is_Some (failures cb !! service)
         ∧ is_Some (last_failure_time cb !! service)).
Proof.
  induction 1 as [| cb now a _ IH | cb a _ IH | cb now a _ IH].
  - split; [reflexivity |]. split; [reflexivity |]. intros service.
    split; [unfold count; cbn; rewrite lookup_empty; cbn; lia |].
    cbn. rewrite lookup_empty. intros [x Hx]. discriminate.
  - destruct IH as (Ht & Hr & IH).
    destruct (is_open_failures cb now a) as (Hf & Hl & Ht' & Hr').
    split; [congruence |]. split; [congruence |]. intros service.
    destruct (IH service) as [Hc Hs].
    split; [unfold count in *; rewrite Hf; exact Hc |].
    rewrite Hf, Hl. intros Hst. apply Hs.
    unfold is_open in Hst. destruct (state cb !! a) as [[]|] eqn:Ea; try exact Hst.
    destruct (Qlt_le_dec _ _); [| exact Hst]. cbn in Hst.
    destruct (decide (a = service)) as [<- | Hne].
    + rewrite Ea. eauto.
    + rewrite lookup_insert_ne in Hst by exact Hne. exact Hst.
  - destruct IH as (Ht & Hr & IH).
    split; [unfold record_success; cbn; destruct (state cb !! a) as [[]|]; exact Ht |].
    split; [unfold record_success; cbn; destruct (state cb !! a) as [[]|]; exact Hr |].
    intros service. destruct (IH service) as [Hc Hs].
    destruct (decide (a = service)) as [<- | Hne].
    + split; [rewrite record_success_count; lia |].
      intros Hst. rewrite record_success_state in Hst.
      assert (Hsome : is_Some (state cb !! a))
        by (destruct (state cb !! a) as [[]|]; eauto; destruct Hst; discriminate).
      destruct (Hs Hsome) as [_ Hlast]. split.
      * unfold record_success. cbn.
        destruct (state cb !! a) as [[]|]; cbn; rewrite lookup_insert_eq; eauto.
      * unfold record_success. cbn.
        destruct (state cb !! a) as [[]|]; cbn; exact Hlast.
    + unfold count in *. unfold record_success. cbn.
      destruct (state cb !! a) as [[]|]; cbn;
        rewrite ?lookup_insert_ne by exact Hne; auto.
  - destruct IH as (Ht & Hr & IH).
    split; [rewrite record_failure_threshold; exact Ht |].
    split; [unfold record_failure; cbn; destruct (Z_le_gt_dec _ _); exact Hr |].
    intros service. destruct (IH service) as [Hc Hs].
    destruct (decide (a = service)) as [<- | Hne].
    + split; [rewrite record_failure_count; lia |]. intros _.
      unfold record_failure. cbn.
      destruct (Z_le_gt_dec _ _); cbn; rewrite !lookup_insert_eq; eauto.
    + unfold count in *. unfold record_failure. cbn.
      destruct (Z_le_gt_dec _ _); cbn; rewrite ?lookup_insert_ne by exact Hne; auto.
Qed.

Lemma breaker_reachable_invariant_witness :
  failure_threshold cb_flapped = 5 ∧ 0 <= count cb_flapped "search_flights".
Proof.
  assert (Hreach : breaker_reachable cb_flapped).
  { unfold cb_flapped, cb_opened. cbn [Nat.iter]. repeat constructor. }
  destruct (breaker_reachable_invariant cb_flapped Hreach) as (H1 & _ & H2).
  split; [exact H1 | exact (proj1 (H2 "search_flights"))].
Defined.

End BreakerMore.

(** ** Retry engine: exhaustion and escalation *)

Section RetryMore.

Import RetryEngine.

(** One iteration of the retry loop on a failing tool: the failure is
    recorded, and the strategy decides how the loop goes on. *)
Lemma retry_iteration_fails (env : Env) (service : string) (ctx : gmap string PyVal)
    (n attempt : nat) (last_error : option Exn) (step : ExecutionStep) (w : World)
    (msg : string) :
  tools_always_fail env msg ->
  ∃ step1 w1,
    step_shape step1 = step_shape step
    ∧ max_retries step1 = max_retries step
    ∧ status step1 = STEP_FAILED
    ∧ error step1 = Some msg
    ∧ retry_count step1 = Z.of_nat attempt
    ∧ CircuitBreaker.count (breaker w1) service
      = CircuitBreaker.count (breaker w) service + 1
    ∧ count_attempts (trace w1) = S (count_attempts (trace w))
    ∧ count_handler_calls (trace w1) = S (count_handler_calls (trace w))
    ∧ count_retry_sleeps (trace w1) = count_retry_sleeps (trace w)
    ∧ retry_loop env (ExecutorEngine.execute_step env) service ctx (S n) attempt
                 last_error step w
      = let e := ExecutionError (step_failure_message step msg) in
        let strategy := _select_strategy (step_failure_message step msg) attempt in
        match strategy with
        | HUMAN_ESCALATE => (Raise (escalation step1 attempt e ctx), step1, w1)
        | ALTERNATIVE =>
            (Ok (NeedsReplan (step_failure_message step msg) (Z.of_nat attempt + 1)),
             step1, w1)
        | _ =>
            retry_loop env (ExecutorEngine.execute_step env) service ctx n (S attempt)
              (Some e) step1
              (if Z.of_nat attempt <? max_retries step
               then log (next_tick w1)
                        (EvRetrySleep strategy attempt
                           (_calculate_delay env (breaker w1) strategy attempt (tick w1)))
               else w1)
        end.
Proof.
  intros Hfail. cbn [retry_loop].
  pose proof (is_open_failures (breaker w) (clock env (tick w)) service)
    as (Hf & _).
  destruct (CircuitBreaker.is_open (breaker w) (clock env (tick w)) service)
    as [b cb] eqn:Hopen.
  cbn [snd] in Hf.
  unfold ExecutorEngine.execute_step.
  cbn [action_type parameters step_set_status step_set_retry_count id].
  rewrite Hfail.
  cbn [exn_str step_set_error step_set_status id max_retries].
  change (id (step_set_retry_count step (Z.of_nat attempt))) with (id step).
  fold (step_failure_message step msg).
  eexists _, _.
  repeat match goal with |- _ ∧ _ => split end; cycle 9.
  - cbn zeta.
    destruct (_select_strategy (step_failure_message step msg) attempt) eqn:E;
      cycle 5.
    + reflexivity.
    + reflexivity.
    + reflexivity.
    + reflexivity.
    + reflexivity.
    + reflexivity.
  - reflexivity.
  - reflexivity.
  - reflexivity.
  - reflexivity.
  - reflexivity.
  - cbn [breaker next_tick set_breaker].
    rewrite record_failure_count. unfold CircuitBreaker.count.
    destruct b; cbn [breaker log next_tick set_breaker]; rewrite Hf; reflexivity.
  - destruct b; unfold log, next_tick, set_breaker; cbn [trace];
      rewrite ?count_attempts_app; cbn; lia.
  - destruct b; unfold log, next_tick, set_breaker; cbn [trace];
      rewrite ?count_handler_calls_app; cbn; lia.
  - destruct b; unfold log, next_tick, set_breaker; cbn [trace];
      rewrite ?count_retry_sleeps_app; cbn; lia.
Qed.

Lemma step_shape_id (s s' : ExecutionStep) :
  step_shape s = step_shape s' -> id s = id s'.
Proof. unfold step_shape. congruence. Qed.

(** The loop on a tool that keeps failing with errors the engine retries:
    from iteration [attempt] on, with the budget ending after [S n] more
    iterations. *)
Lemma retry_loop_exhausts (env : Env) (service : string) (ctx : gmap string PyVal)
    (msg : string) (step0 : ExecutionStep) :
  tools_always_fail env msg ->
  (∀ a, Z.of_nat a <= max_retries step0 ->
        retryable (_select_strategy (step_failure_message step0 msg) a)) ->
  ∀ (n attempt : nat) (last_error : option Exn) (step : ExecutionStep) (w : World),
    step_shape step = step_shape step0 ->
    max_retries step = max_retries step0 ->
    Z.of_nat attempt + Z.of_nat (S n) = max_retries step0 + 1 ->
    ∃ step' w',
      retry_loop env (ExecutorEngine.execute_step env) service ctx (S n) attempt
                 last_error step w
      = (Ok (Exhausted (step_failure_message step0 msg) (max_retries step0 + 1)),
         step', w')
      ∧ step_shape step' = step_shape step0
      ∧ max_retries step' = max_retries step0
      ∧ status step' = STEP_FAILED
      ∧ error step' = Some msg
      ∧ retry_count step' = max_retries step0
      ∧ CircuitBreaker.count (breaker w') service
        = CircuitBreaker.count (breaker w) service + Z.of_nat (S n)
      ∧ count_attempts (trace w') = (count_attempts (trace w) + S n)%nat
      ∧ count_handler_calls (trace w') = (count_handler_calls (trace w) + S n)%nat
      ∧ count_retry_sleeps (trace w') = (count_retry_sleeps (trace w) + n)%nat.
Proof.
  intros Hfail Hretry. induction n as [| n IH];
    intros attempt last_error step w Hshape Hmax Hbudget.
  - destruct (retry_iteration_fails env service ctx 0 attempt last_error step w msg Hfail)
      as (step1 & w1 & Hs1 & Hm1 & Hst & Herr & Hrc & Hcb & Ha & Hh & Hsl & Heq).
    assert (Hmsg : step_failure_message step msg = step_failure_message step0 msg)
      by (unfold step_failure_message; rewrite (step_shape_id _ _ Hshape); reflexivity).
    rewrite Hmsg in Heq. cbn zeta in Heq.
    assert (Hoff : (Z.of_nat attempt <? max_retries step) = false)
      by (apply Z.ltb_ge; lia).
    rewrite Hoff in Heq.
    exists step1, w1.
    split.
    { rewrite Heq. destruct (Hretry attempt ltac:(lia)) as [Hne1 Hne2].
      destruct (_select_strategy (step_failure_message step0 msg) attempt);
        try congruence; cbn [retry_loop str_last_error exn_str];
        rewrite Hm1, Hmax; reflexivity. }
    repeat split; try congruence; lia.
  - destruct (retry_iteration_fails env service ctx (S n) attempt last_error step w msg
                Hfail)
      as (step1 & w1 & Hs1 & Hm1 & Hst & Herr & Hrc & Hcb & Ha & Hh & Hsl & Heq).
    assert (Hmsg : step_failure_message step msg = step_failure_message step0 msg)
      by (unfold step_failure_message; rewrite (step_shape_id _ _ Hshape); reflexivity).
    rewrite Hmsg in Heq. cbn zeta in Heq.
    assert (Hon : (Z.of_nat attempt <? max_retries step) = true)
      by (apply Z.ltb_lt; lia).
    rewrite Hon in Heq.
    set (strategy := _select_strategy (step_failure_message step0 msg) attempt) in *.
    set (w2 := log (next_tick w1)
                   (EvRetrySleep strategy attempt
                      (_calculate_delay env (breaker w1) strategy attempt (tick w1)))) in *.
    destruct (IH (S attempt)
                 (Some (ExecutionError (step_failure_message step0 msg))) step1 w2)
      as (step' & w' & Hrun & Hs' & Hm' & Hst' & Herr' & Hrc' & Hcb' & Ha' & Hh' & Hsl' );
      [congruence | congruence | lia |].
    exists step', w'.
    split.
    { rewrite Heq. destruct (Hretry attempt ltac:(lia)) as [Hne1 Hne2]. fold strategy in Hne1, Hne2.
      destruct strategy; try congruence; exact Hrun. }
    assert (Hw2a : count_attempts (trace w2) = count_attempts (trace w1))
      by (unfold w2, log, next_tick; cbn [trace]; rewrite count_attempts_app; cbn; lia).
    assert (Hw2h : count_handler_calls (trace w2) = count_handler_calls (trace w1))
      by (unfold w2, log, next_tick; cbn [trace]; rewrite count_handler_calls_app;
          cbn; lia).
    assert (Hw2s : count_retry_sleeps (trace w2) = S (count_retry_sleeps (trace w1)))
      by (unfold w2, log, next_tick; cbn [trace]; rewrite count_retry_sleeps_app;
          cbn; lia).
    assert (Hw2b : breaker w2 = breaker w1) by reflexivity.
    rewrite Hw2b in Hcb'.
    repeat split; try congruence; lia.
Qed.

(** X4. A step whose tool keeps failing with errors the engine retries is
    (at every attempt the budget allows) is executed exactly
    [max_retries + 1] times, with a back-off sleep between
    two executions and none after the last; the engine then reports the
    budget exhausted with the last error, the step is left failed, and the
    breaker has counted every failure. *)
Theorem retries_exhausted (env : Env) (ctx : gmap string PyVal) (msg : string)
    (step : ExecutionStep) (w : World) :
  tools_always_fail env msg ->
  (∀ a, Z.of_nat a <= max_retries step ->
        retryable (_select_strategy (step_failure_message step msg) a)) ->
  0 <= max_retries step ->
  ∃ step' w',
    execute_with_retry env step (ExecutorEngine.execute_step env) ctx w
    = (Ok (Exhausted (step_failure_message step msg) (max_retries step + 1)), step', w')
    ∧ status step' = STEP_FAILED
    ∧ error step' = Some msg
    ∧ retry_count step' = max_retries step
    ∧ Z.of_nat (count_attempts (trace w'))
      = Z.of_nat (count_attempts (trace w)) + max_retries step + 1
    ∧ Z.of_nat (count_handler_calls (trace w'))
      = Z.of_nat (count_handler_calls (trace w)) + max_retries step + 1
    ∧ Z.of_nat (count_retry_sleeps (trace w'))
      = Z.of_nat (count_retry_sleeps (trace w)) + max_retries step
    ∧ CircuitBreaker.count (breaker w') (action_type step)
      = CircuitBreaker.count (breaker w) (action_type step) + max_retries step + 1.
Proof.
  intros Hfail Hretry Hmax. unfold execute_with_retry.
  destruct (Z.to_nat (max_retries step + 1)) as [| n] eqn:En; [lia |].
  destruct (retry_loop_exhausts env (action_type step) ctx msg step Hfail Hretry
              n 0%nat None step w eq_refl eq_refl ltac:(lia))
    as (step' & w' & Hrun & _ & _ & Hst & Herr & Hrc & Hcb & Ha & Hh & Hsl).
  exists step', w'. repeat split; try assumption; lia.
Qed.

Lemma retries_exhausted_witness :
  ∃ step' w',
    execute_with_retry flaky_env flaky_step (ExecutorEngine.execute_step flaky_env) ∅ w0
    = (Ok (Exhausted "Step s1 failed: connection timeout" 4), step', w')
    ∧ count_handler_calls (trace w') = 4%nat
    ∧ count_retry_sleeps (trace w') = 3%nat.
Proof.
  destruct (retries_exhausted flaky_env ∅ "connection timeout" flaky_step w0)
    as (step' & w' & Hrun & _ & _ & _ & _ & Hh & Hsl & _).
  - intros a p t. reflexivity.
  - intros a _. split; vm_compute; discriminate.
  - vm_compute. discriminate.
  - exists step', w'. split; [exact Hrun |].
    cbn in Hh, Hsl. split; lia.
Defined.

(** The loop on a failing tool whose error is retried [j] times and
    escalated at the next attempt. *)
Lemma retry_loop_escalates (env : Env) (service : string) (ctx : gmap string PyVal)
    (msg : string) (step0 : ExecutionStep) :
  tools_always_fail env msg ->
  ∀ (j n attempt : nat) (last_error : option Exn) (step : ExecutionStep) (w : World),
    step_shape step = step_shape step0 ->
    max_retries step = max_retries step0 ->
    (∀ a, (attempt <= a < attempt + j)%nat ->
          retryable (_select_strategy (step_failure_message step0 msg) a)) ->
    _select_strategy (step_failure_message step0 msg) (attempt + j) = HUMAN_ESCALATE ->
    Z.of_nat (attempt + j) <= max_retries step0 ->
    (j < n)%nat ->
    ∃ step' w',
      retry_loop env (ExecutorEngine.execute_step env) service ctx n attempt
                 last_error step w
      = (Raise (escalation step0 (attempt + j)
                  (ExecutionError (step_failure_message step0 msg)) ctx), step', w')
      ∧ status step' = STEP_FAILED
      ∧ error step' = Some msg
      ∧ retry_count step' = Z.of_nat (attempt + j)
      ∧ CircuitBreaker.count (breaker w') service
        = CircuitBreaker.count (breaker w) service + Z.of_nat (S j)
      ∧ count_attempts (trace w') = (count_attempts (trace w) + S j)%nat
      ∧ count_handler_calls (trace w') = (count_handler_calls (trace w) + S j)%nat
      ∧ count_retry_sleeps (trace w') = (count_retry_sleeps (trace w) + j)%nat.
Proof.
  intros Hfail. induction j as [| j IH];
    intros n attempt last_error step w Hshape Hmax Hretry Hesc Hbudget Hn;
    (destruct n as [| n]; [lia |]);
    destruct (retry_iteration_fails env service ctx n attempt last_error step w msg Hfail)
      as (step1 & w1 & Hs1 & Hm1 & Hst & Herr & Hrc & Hcb & Ha & Hh & Hsl & Heq);
    assert (Hmsg : step_failure_message step msg = step_failure_message step0 msg)
      by (unfold step_failure_message; rewrite (step_shape_id _ _ Hshape); reflexivity);
    rewrite Hmsg in Heq; cbn zeta in Heq.
  - rewrite Nat.add_0_r in *. rewrite Hesc in Heq.
    exists step1, w1. split.
    { rewrite Heq. unfold escalation.
      rewrite (step_shape_id _ _ Hs1), (step_shape_id _ _ Hshape). reflexivity. }
    repeat split; try congruence; lia.
  - assert (Hon : (Z.of_nat attempt <? max_retries step) = true)
      by (apply Z.ltb_lt; lia).
    rewrite Hon in Heq.
    set (strategy := _select_strategy (step_failure_message step0 msg) attempt) in *.
    set (w2 := log (next_tick w1)
                   (EvRetrySleep strategy attempt
                      (_calculate_delay env (breaker w1) strategy attempt (tick w1)))) in *.
    replace (attempt + S j)%nat with (S attempt + j)%nat in * by lia.
    destruct (IH n (S attempt)
                 (Some (ExecutionError (step_failure_message step0 msg))) step1 w2)
      as (step' & w' & Hrun & Hst' & Herr' & Hrc' & Hcb' & Ha' & Hh' & Hsl');
      [congruence | congruence | intros a Ha0; apply Hretry; lia | exact Hesc | lia
      | lia |].
    exists step', w'.
    split.
    { rewrite Heq. destruct (Hretry attempt ltac:(lia)) as [Hne1 Hne2].
      fold strategy in Hne1, Hne2.
      destruct strategy; try congruence; exact Hrun. }
    assert (Hw2a : count_attempts (trace w2) = count_attempts (trace w1))
      by (unfold w2, log, next_tick; cbn [trace]; rewrite count_attempts_app; cbn; lia).
    assert (Hw2h : count_handler_calls (trace w2) = count_handler_calls (trace w1))
      by (unfold w2, log, next_tick; cbn [trace]; rewrite count_handler_calls_app;
          cbn; lia).
    assert (Hw2s : count_retry_sleeps (trace w2) = S (count_retry_sleeps (trace w1)))
      by (unfold w2, log, next_tick; cbn [trace]; rewrite count_retry_sleeps_app;
          cbn; lia).
    assert (Hw2b : breaker w2 = breaker w1) by reflexivity.
    rewrite Hw2b in Hcb'.
    repeat split; try congruence; lia.
Qed.

(** Only the authentication rule answers [IMMEDIATE], and it escalates
    from the third attempt on. *)
Lemma select_strategy_immediate (message : string) :
  _select_strategy message 0 = IMMEDIATE ->
  ∀ a, _select_strategy message a
       = if (a <? 2)%nat then IMMEDIATE else HUMAN_ESCALATE.
Proof.
  unfold _select_strategy. intros H a.
  repeat match type of H with
         | (if ?c then _ else _) = _ => destruct c; try discriminate H
         end.
  reflexivity.
Qed.

(** X5. An authentication failure that persists is retried twice, half a
    second apart, and handed to a human at the third attempt: three
    executions, two sleeps, three failures counted by the breaker, and an
    interruption carrying the step id, the error and the context. With a
    budget of fewer than two retries the engine reports exhaustion
    instead. *)
Theorem auth_failure_escalates_on_third_attempt (env : Env) (ctx : gmap string PyVal)
    (msg : string) (step : ExecutionStep) (w : World) :
  tools_always_fail env msg ->
  _select_strategy (step_failure_message step msg) 0 = IMMEDIATE ->
  0 <= max_retries step ->
  ∃ step' w',
    status step' = STEP_FAILED
    ∧ error step' = Some msg
    ∧ if 2 <=? max_retries step
      then
        execute_with_retry env step (ExecutorEngine.execute_step env) ctx w
        = (Raise (HumanInterruptionRequired
                    ("Step failed after 3 attempts: " ++ step_failure_message step msg)
                    [("step", VStr (id step));
                     ("error", VStr (step_failure_message step msg));
                     ("context", VDict (map_to_list ctx))]), step', w')
        ∧ count_handler_calls (trace w') = (count_handler_calls (trace w) + 3)%nat
        ∧ count_retry_sleeps (trace w') = (count_retry_sleeps (trace w) + 2)%nat
        ∧ CircuitBreaker.count (breaker w') (action_type step)
          = CircuitBreaker.count (breaker w) (action_type step) + 3
      else
        execute_with_retry env step (ExecutorEngine.execute_step env) ctx w
        = (Ok (Exhausted (step_failure_message step msg) (max_retries step + 1)),
           step', w').
Proof.
  intros Hfail Himm Hmax.
  pose proof (select_strategy_immediate _ Himm) as Hsel.
  destruct (2 <=? max_retries step) eqn:E.
  - apply Z.leb_le in E. unfold execute_with_retry.
    destruct (retry_loop_escalates env (action_type step) ctx msg step Hfail
                2 (Z.to_nat (max_retries step + 1)) 0 None step w eq_refl eq_refl)
      as (step' & w' & Hrun & Hst & Herr & _ & Hcb & _ & Hh & Hsl).
    + intros a Ha. rewrite Hsel.
      destruct a as [| [| a]]; [| | lia]; split; discriminate.
    + rewrite Hsel. reflexivity.
    + cbn. lia.
    + lia.
    + exists step', w'. split; [exact Hst |]. split; [exact Herr |].
      split; [exact Hrun |]. split; [exact Hh |]. split; [exact Hsl |]. exact Hcb.
  - apply Z.leb_gt in E. unfold execute_with_retry.
    destruct (Z.to_nat (max_retries step + 1)) as [| n] eqn:En; [lia |].
    destruct (retry_loop_exhausts env (action_type step) ctx msg step Hfail) with
      (n := n) (attempt := 0%nat) (last_error := @None Exn) (step := step) (w := w)
      as (step' & w' & Hrun & _ & _ & Hst & Herr & _);
      [| reflexivity | reflexivity | lia | exists step', w'; tauto].
    intros a Ha. rewrite Hsel.
    destruct a as [| [| a]]; [| | lia]; split; discriminate.
Qed.

Lemma auth_failure_escalates_on_third_attempt_witness :
  ∃ step' w',
    execute_with_retry (env_const (HFail "401 unauthorized")) flaky_step
      (ExecutorEngine.execute_step (env_const (HFail "401 unauthorized"))) ∅ w0
    = (Raise (HumanInterruptionRequired
                "Step failed after 3 attempts: Step s1 failed: 401 unauthorized"
                [("step", VStr "s1");
                 ("error", VStr "Step s1 failed: 401 unauthorized");
                 ("context", VDict [])]), step', w')
    ∧ count_handler_calls (trace w') = 3%nat.
Proof.
  destruct (auth_failure_escalates_on_third_attempt
              (env_const (HFail "401 unauthorized")) ∅ "401 unauthorized" flaky_step w0)
    as (step' & w' & _ & _ & H).
  - intros a p t. reflexivity.
  - vm_compute. reflexivity.
  - vm_compute. discriminate.
  - change (2 <=? max_retries flaky_step) with true in H. cbv iota in H.
    destruct H as (Hrun & Hh & _).
    exists step', w'. split; [| exact Hh].
    rewrite Hrun, map_to_list_empty. reflexivity.
Defined.

(** X6. An error the engine classifies for escalation at the first attempt
    (insufficient funds, invalid, rejected, declined) is never retried:
    one execution, no sleep, one failure counted, and an interruption that
    carries the step id, the error text and the whole context. *)
Theorem business_failure_escalates_at_once (env : Env) (ctx : gmap string PyVal)
    (msg : string) (step : ExecutionStep) (w : World) :
  tools_always_fail env msg ->
  _select_strategy (step_failure_message step msg) 0 = HUMAN_ESCALATE ->
  0 <= max_retries step ->
  ∃ step' w',
    execute_with_retry env step (ExecutorEngine.execute_step env) ctx w
    = (Raise (HumanInterruptionRequired
                ("Step failed after 1 attempts: " ++ step_failure_message step msg)
                [("step", VStr (id step));
                 ("error", VStr (step_failure_message step msg));
                 ("context", VDict (map_to_list ctx))]), step', w')
    ∧ status step' = STEP_FAILED
    ∧ error step' = Some msg
    ∧ count_handler_calls (trace w') = S (count_handler_calls (trace w))
    ∧ count_retry_sleeps (trace w') = count_retry_sleeps (trace w)
    ∧ CircuitBreaker.count (breaker w') (action_type step)
      = CircuitBreaker.count (breaker w) (action_type step) + 1.
Proof.
  intros Hfail Hesc Hmax. unfold execute_with_retry.
  destruct (retry_loop_escalates env (action_type step) ctx msg step Hfail
              0 (Z.to_nat (max_retries step + 1)) 0 None step w eq_refl eq_refl)
    as (step' & w' & Hrun & Hst & Herr & _ & Hcb & _ & Hh & Hsl).
  - intros a Ha. lia.
  - exact Hesc.
  - cbn. lia.
  - lia.
  - exists step', w'. split; [exact Hrun |].
    repeat split; try assumption; lia.
Qed.

Lemma business_failure_escalates_at_once_witness :
  ∃ step' w',
    execute_with_retry (env_const (HFail "card declined")) flaky_step
      (ExecutorEngine.execute_step (env_const (HFail "card declined"))) ∅ w0
    = (Raise (HumanInterruptionRequired
                "Step failed after 1 attempts: Step s1 failed: card declined"
                [("step", VStr "s1");
                 ("error", VStr "Step s1 failed: card declined");
                 ("context", VDict [])]), step', w')
    ∧ count_handler_calls (trace w') = 1%nat.
Proof.
  destruct (business_failure_escalates_at_once
              (env_const (HFail "card declined")) ∅ "card declined" flaky_step w0)
    as (step' & w' & Hrun & _ & _ & Hh & _).
  - intros a p t. reflexivity.
  - vm_compute. reflexivity.
  - vm_compute. discriminate.
  - exists step', w'. split; [| exact Hh].
    rewrite Hrun, map_to_list_empty. reflexivity.
Defined.

(** With a negative retry budget the loop body does not run. *)
Lemma execute_with_retry_negative_budget (env : Env) (executor : Executor)
    (ctx : gmap string PyVal) (step : ExecutionStep) (w : World) :
  max_retries step < 0 ->
  execute_with_retry env step executor ctx w
  = (Ok (Exhausted "None" (max_retries step + 1)), step, w).
Proof.
  intros Hneg. unfold execute_with_retry.
  replace (Z.to_nat (max_retries step + 1)) with 0%nat by lia. reflexivity.
Qed.

End RetryMore.

(** ** Driver: failing steps, completed steps, rejected starts *)

Section DriverMore.

Import AgentOrchestrator RetryEngine.

Lemma set_plan_same (task : TaskState) (i : nat) (step : ExecutionStep) :
  plan task !! i = Some step ->
  set_plan task (<[i := step]> (plan task)) = task.
Proof.
  intros H. rewrite list_insert_id by exact H. destruct task. reflexivity.
Qed.

(** The retry engine and the executor never consult the planner. *)
Lemma retry_loop_planner_calls (env : Env) (service : string) (ctx : gmap string PyVal)
    (n : nat) : ∀ (attempt : nat) (last_error : option Exn) (step : ExecutionStep)
                  (w : World),
  count_planner_calls
    (trace (retry_loop env (ExecutorEngine.execute_step env) service ctx n attempt
                       last_error step w).2)
  = count_planner_calls (trace w).
Proof.
  induction n as [| n IH]; intros attempt last_error step w; [reflexivity |].
  cbn [retry_loop].
  destruct (CircuitBreaker.is_open (breaker w) (clock env (tick w)) service)
    as [b cb].
  unfold ExecutorEngine.execute_step.
  match goal with
  | |- context [tool env ?a ?p ?t] => destruct (tool env a p t)
  end.
  - destruct b; unfold log, next_tick, set_breaker; cbn [trace snd];
      rewrite ?count_planner_calls_app; cbn; lia.
  - match goal with
    | |- context [_select_strategy ?m ?a] => destruct (_select_strategy m a)
    end;
    rewrite ?IH;
    repeat match goal with
           | |- context [if ?c then _ else _] => destruct c
           end;
    unfold log, next_tick, set_breaker; cbn [trace snd];
    rewrite ?count_planner_calls_app; cbn; lia.
  - destruct b; unfold log, next_tick, set_breaker; cbn [trace snd];
      rewrite ?count_planner_calls_app; cbn; lia.
  - match goal with
    | |- context [_select_strategy ?m ?a] => destruct (_select_strategy m a)
    end;
    rewrite ?IH;
    repeat match goal with
           | |- context [if ?c then _ else _] => destruct c
           end;
    unfold log, next_tick, set_breaker; cbn [trace snd];
    rewrite ?count_planner_calls_app; cbn; lia.
  - match goal with
    | |- context [_select_strategy ?m ?a] => destruct (_select_strategy m a)
    end;
    rewrite ?IH;
    repeat match goal with
           | |- context [if ?c then _ else _] => destruct c
           end;
    unfold log, next_tick, set_breaker; cbn [trace snd];
    rewrite ?count_planner_calls_app; cbn; lia.
Qed.

(** X7. A pending step with a negative retry budget is never executed:
    the driver raises "exhausted all retries" with the text [None] in place
    of an error, without a handler call and with the task unchanged. *)
Theorem negative_budget_never_executes (env : Env) (fuel : nat) (w : World)
    (task : TaskState) (step : ExecutionStep) :
  plan task !! current_step_index task = Some step ->
  status step <> STEP_COMPLETED ->
  max_retries step < 0 ->
  _execute_plan (S fuel) env w task
  = Some (Raise (OtherError ("Step " ++ str_of_Z (Z.of_nat (current_step_index task) + 1)
                             ++ " exhausted all retries: None")), w, task).
Proof.
  intros Hstep Hst Hneg. cbn [_execute_plan]. rewrite Hstep.
  rewrite bool_decide_false by exact Hst.
  rewrite execute_with_retry_negative_budget by exact Hneg.
  rewrite set_plan_same by exact Hstep. reflexivity.
Qed.

Lemma negative_budget_never_executes_witness :
  _execute_plan 1 flaky_env w0
    (set_plan task_executing [step_without_budget])
  = Some (Raise (OtherError "Step 1 exhausted all retries: None"), w0,
          set_plan task_executing [step_without_budget]).
Proof.
  apply (negative_budget_never_executes flaky_env 0 w0
           (set_plan task_executing [step_without_budget]) step_without_budget).
  - reflexivity.
  - discriminate.
  - vm_compute. reflexivity.
Defined.

(** X8. When the tool of the current step keeps failing with errors the
    engine retries, a resumed task ends [FAILED] at the same step after
    exactly [max_retries + 1] handler calls (none for a negative budget),
    without consulting the planner. *)
Theorem failing_step_fails_task (env : Env) (fuel : nat) (w : World)
    (task : TaskState) (step : ExecutionStep) (msg : string) :
  tools_always_fail env msg ->
  (∀ a, Z.of_nat a <= max_retries step ->
        retryable (_select_strategy (step_failure_message step msg) a)) ->
  plan task !! current_step_index task = Some step ->
  status step <> STEP_COMPLETED ->
  ∃ w' task',
    _resume_execution (S fuel) env w task = Some (w', task')
    ∧ task_status task' = FAILED
    ∧ current_step_index task' = current_step_index task
    ∧ count_handler_calls (trace w')
      = (count_handler_calls (trace w) + Z.to_nat (max_retries step + 1))%nat
    ∧ count_planner_calls (trace w') = count_planner_calls (trace w).
Proof.
  intros Hfail Hretry Hstep Hst. unfold _resume_execution.
  destruct (Z_lt_le_dec (max_retries step) 0) as [Hneg | Hpos].
  - cbn [_execute_plan]. rewrite Hstep. rewrite bool_decide_false by exact Hst.
    rewrite execute_with_retry_negative_budget by exact Hneg.
    rewrite set_plan_same by exact Hstep.
    eexists _, _. split; [reflexivity |]. split; [reflexivity |].
    split; [reflexivity |].
    replace (Z.to_nat (max_retries step + 1)) with 0%nat by lia.
    unfold _notify_failure, save_state, _broadcast_update, log. cbn [trace].
    rewrite !count_handler_calls_app, !count_planner_calls_app. cbn. lia.
  - cbn [_execute_plan]. rewrite Hstep. rewrite bool_decide_false by exact Hst.
    unfold execute_with_retry.
    destruct (Z.to_nat (max_retries step + 1)) as [| n] eqn:En; [lia |].
    destruct (retry_loop_exhausts env (action_type step) (context task) msg step
                Hfail Hretry n 0%nat None step
                (_broadcast_update w "status_change") eq_refl eq_refl ltac:(lia))
      as (step' & w' & Hrun & _ & _ & _ & _ & _ & _ & _ & Hh & _).
    pose proof (retry_loop_planner_calls env
                  (action_type step) (context task) (S n) 0 None step
                  (_broadcast_update w "status_change")) as Hp.
    rewrite Hrun in *. cbn [fst snd] in Hp.
    eexists _, _. split; [reflexivity |]. split; [reflexivity |].
    split; [reflexivity |].
    unfold _notify_failure, save_state, _broadcast_update, log in *. cbn [trace] in *.
    rewrite !count_handler_calls_app, !count_planner_calls_app in *. cbn in *. lia.
Qed.

Lemma failing_step_fails_task_witness :
  ∃ w' task',
    _resume_execution 1 flaky_env w0 task_executing = Some (w', task')
    ∧ task_status task' = FAILED
    ∧ count_handler_calls (trace w') = 4%nat.
Proof.
  destruct (failing_step_fails_task flaky_env 0 w0 task_executing
              (sample_step "s6" "request_payment_approval" []) "connection timeout")
    as (w' & task' & Hrun & Hst & _ & Hh & _).
  - intros a p t. reflexivity.
  - intros a _. split; vm_compute; discriminate.
  - reflexivity.
  - discriminate.
  - exists w', task'. split; [exact Hrun |]. split; [exact Hst | exact Hh].
Defined.

Lemma set_index_same (task : TaskState) :
  set_index task (current_step_index task) = task.
Proof. destruct task. reflexivity. Qed.

(** X9. Steps already marked completed are passed over: when the next [k]
    steps of the plan are completed, the driver goes on from the step after
    them with nothing executed, saved, broadcast or added to the history;
    only the step index moves. *)
Theorem completed_steps_are_skipped (env : Env) (k : nat) :
  ∀ (fuel : nat) (w : World) (task : TaskState),
    (∀ i, (current_step_index task <= i < current_step_index task + k)%nat ->
          ∃ s, plan task !! i = Some s ∧ status s = STEP_COMPLETED) ->
    _execute_plan (k + fuel) env w task
    = _execute_plan fuel env w (set_index task (current_step_index task + k)).
Proof.
  induction k as [| k IH]; intros fuel w task Hdone.
  - rewrite Nat.add_0_r, set_index_same. reflexivity.
  - destruct (Hdone (current_step_index task) ltac:(lia)) as (s & Hs & Hst).
    cbn [Nat.add _execute_plan]. rewrite Hs, bool_decide_true by exact Hst.
    rewrite IH.
    + cbn [set_index current_step_index]. f_equal.
      destruct task; cbn. f_equal. lia.
    + intros i Hi. cbn [set_index current_step_index plan] in *.
      apply Hdone. lia.
Qed.

Lemma completed_steps_are_skipped_witness :
  _execute_plan 2 env_ok w0
    (set_plan task_executing
       [step_set_status (sample_step "s6" "request_payment_approval" []) STEP_COMPLETED])
  = _execute_plan 1 env_ok w0
      (set_index
         (set_plan task_executing
            [step_set_status (sample_step "s6" "request_payment_approval" [])
                             STEP_COMPLETED]) 1).
Proof.
  apply (completed_steps_are_skipped env_ok 1 1 w0
           (set_plan task_executing
              [step_set_status (sample_step "s6" "request_payment_approval" [])
                               STEP_COMPLETED])).
  intros i Hi. cbn in Hi. assert (i = 0%nat) as -> by lia.
  eexists. split; reflexivity.
Defined.

(** X10. Only a [PENDING] task can be processed: in any other status the
    first transition is refused, the failure is broadcast, the task is
    saved as it was, and neither the interpreter nor the planner nor a
    tool is consulted. *)
Theorem process_task_requires_pending (env : Env) (fuel : nat) (w : World)
    (task : TaskState) :
  task_status task <> PENDING ->
  _process_task fuel env w task = Some (save_state (_notify_failure w), task).
Proof.
  intros Hst. unfold _process_task, process_body, _transition_state.
  destruct (task_status task) eqn:E; try congruence; reflexivity.
Qed.

Lemma process_task_requires_pending_witness :
  _process_task 5 env_ok w0 (sample_task COMPLETED)
  = Some (save_state (_notify_failure w0), sample_task COMPLETED).
Proof.
  apply (process_task_requires_pending env_ok 5 w0 (sample_task COMPLETED)).
  discriminate.
Defined.

(** X11. When the interpreted outcome asks for clarification, processing
    stops there: the task is [INTERRUPTED] with reason
    [clarification_needed] and the question as its data, the outcome is
    stored, the plan is untouched and the planner is never called. *)
Theorem clarification_stops_before_planning (env : Env) (fuel : nat) (w : World)
    (task : TaskState) (goal : PyVal) (oc : OutcomeDefinition) :
  task_status task = PENDING ->
  context task !! "goal" = Some goal ->
  (∀ t, interpret env goal (context task) t = Ok oc) ->
  truthy (opt_val (dict_get (constraints oc) "needs_clarification")) = true ->
  ∃ w' task',
    _process_task fuel env w task = Some (w', task')
    ∧ task_status task' = INTERRUPTED
    ∧ interrupt_reason task' = Some "clarification_needed"
    ∧ interrupt_data task'
      = Some [("question", opt_val (dict_get (constraints oc) "clarification_question"))]
    ∧ outcome task' = Some oc
    ∧ plan task' = plan task
    ∧ context task' = context task
    ∧ count_planner_calls (trace w') = count_planner_calls (trace w)
    ∧ count_handler_calls (trace w') = count_handler_calls (trace w).
Proof.
  intros Hst Hgoal Hint Hclar.
  unfold _process_task, process_body.
  rewrite transition_allowed by (rewrite Hst; apply (bool_decide_eq_true_1 _); reflexivity).
  cbn [context set_status]. rewrite Hgoal, Hint, Hclar.
  cbn [fmap option_fmap option_map process_handlers _request_clarification].
  eexists _, _. split; [reflexivity |].
  repeat split.
  - unfold save_state, _broadcast_update, log, next_tick. cbn [trace].
    rewrite ?count_planner_calls_app. cbn. lia.
  - unfold save_state, _broadcast_update, log, next_tick. cbn [trace].
    rewrite ?count_handler_calls_app. cbn. lia.
Qed.

Lemma clarification_stops_before_planning_witness :
  ∃ w' task',
    _process_task 5 env_unclear w0 task_pending = Some (w', task')
    ∧ task_status task' = INTERRUPTED
    ∧ interrupt_data task' = Some [("question", VStr "Which city are you flying to?")].
Proof.
  destruct (clarification_stops_before_planning env_unclear 5 w0 task_pending
              (VStr "Book a flight to Tokyo next week under $800") outcome_unclear)
    as (w' & task' & Hrun & Hst & _ & Hdata & _).
  - reflexivity.
  - reflexivity.
  - intros t. reflexivity.
  - reflexivity.
  - exists w', task'. split; [exact Hrun |]. split; [exact Hst | exact Hdata].
Defined.

(** X12. An error raised by the interpreter (other than the interruption
    signal or a transition error) fails the task during analysis: the
    status becomes [FAILED], no outcome is stored, the failure is broadcast
    and the task saved, and the planner is never consulted. *)
Theorem analysis_error_fails_task (env : Env) (fuel : nat) (w : World)
    (task : TaskState) (goal : PyVal) (e : Exn) :
  task_status task = PENDING ->
  context task !! "goal" = Some goal ->
  (∀ t, interpret env goal (context task) t = Raise e) ->
  (∀ reason data, e <> HumanInterruptionRequired reason data) ->
  (∀ m, e <> StateTransitionError m) ->
  ∃ w',
    _process_task fuel env w task = Some (w', set_status task FAILED)
    ∧ trace w'
      = (trace w ++ [EvBroadcast "status_change"; EvInterpret; EvBroadcast "failed";
                     EvSave])%list.
Proof.
  intros Hst Hgoal Hint Hne1 Hne2.
  unfold _process_task, process_body.
  rewrite transition_allowed by (rewrite Hst; apply (bool_decide_eq_true_1 _); reflexivity).
  cbn [context set_status]. rewrite Hgoal, Hint.
  cbn [fmap option_fmap option_map process_handlers].
  assert (Hfailed : _transition_state (set_status task ANALYZING) FAILED
                    = (Ok tt, set_status task FAILED)).
  { rewrite transition_allowed by (apply (bool_decide_eq_true_1 _); reflexivity).
    destruct task; reflexivity. }
  destruct e as [reason data | m | m | m];
    [exfalso; eapply Hne1; reflexivity | | exfalso; eapply Hne2; reflexivity |];
    rewrite Hfailed; eexists; (split; [reflexivity |]);
    unfold save_state, _notify_failure, _broadcast_update, log, next_tick; cbn [trace];
    rewrite <- !app_assoc; reflexivity.
Qed.

Lemma analysis_error_fails_task_witness :
  ∃ w', _process_task 5 env_ok w0 task_pending = Some (w', set_status task_pending FAILED).
Proof.
  destruct (analysis_error_fails_task env_ok 5 w0 task_pending
              (VStr "Book a flight to Tokyo next week under $800")
              (OtherError "no interpreter"))
    as (w' & Hrun & _).
  - reflexivity.
  - reflexivity.
  - intros t. reflexivity.
  - discriminate.
  - discriminate.
  - exists w'. exact Hrun.
Defined.

(** X13. A task whose context has no ["goal"] entry fails at analysis with
    the interpreter never consulted. *)
Theorem missing_goal_fails_task (env : Env) (fuel : nat) (w : World)
    (task : TaskState) :
  task_status task = PENDING ->
  context task !! "goal" = None ->
  _process_task fuel env w task
  = Some (save_state (_notify_failure (_broadcast_update w "status_change")),
          set_status task FAILED).
Proof.
  intros Hst Hgoal.
  unfold _process_task, process_body.
  rewrite transition_allowed by (rewrite Hst; apply (bool_decide_eq_true_1 _); reflexivity).
  cbn [context set_status]. rewrite Hgoal.
  cbn [fmap option_fmap option_map process_handlers].
  rewrite transition_allowed by (apply (bool_decide_eq_true_1 _); reflexivity).
  destruct task; reflexivity.
Qed.

Lemma missing_goal_fails_task_witness :
  _process_task 5 env_ok w0 (sample_task PENDING)
  = Some (save_state (_notify_failure (_broadcast_update w0 "status_change")),
          set_status (sample_task PENDING) FAILED).
Proof.
  apply (missing_goal_fails_task env_ok 5 w0 (sample_task PENDING)); reflexivity.
Defined.

End DriverMore.

(** ** Resuming an interrupted task *)

Section ResumeMore.

Import AgentOrchestrator.

Lemma complete_current_step_length (task : TaskState) (res : PyDict) :
  length (plan (complete_current_step task res)) = length (plan task).
Proof.
  unfold complete_current_step.
  destruct (plan task !! current_step_index task); [| reflexivity].
  cbn. apply length_insert.
Qed.

Lemma complete_current_step_fields (task : TaskState) (res : PyDict) :
  context (complete_current_step task res) = context task
  ∧ task_status (complete_current_step task res) = task_status task.
Proof.
  unfold complete_current_step.
  destruct (plan task !! current_step_index task); split; reflexivity.
Qed.

Lemma context_maybe_complete (o : option ExecutionStep) (t0 : TaskState) (r : PyDict) :
  context (match o with
           | Some cs =>
               if String.eqb (action_type cs) "request_user_help"
               then complete_current_step t0 r else t0
           | None => t0
           end) = context t0.
Proof.
  destruct o as [cs |]; [| reflexivity].
  destruct (String.eqb (action_type cs) "request_user_help"); [| reflexivity].
  apply complete_current_step_fields.
Qed.

Lemma resume_tail_spec (w : World) (task : TaskState) :
  ∃ task',
    resume_tail w task
    = (Resumed,
       if bool_decide (plan task = []) then ScheduledProcessTask
       else ScheduledResumeExecution,
       save_state w, task')
    ∧ task_status task'
      = (if bool_decide (plan task = []) then PENDING else EXECUTING)
    ∧ interrupt_reason task' = None
    ∧ interrupt_data task' = None
    ∧ plan task' = plan task
    ∧ context task' = context task
    ∧ current_step_index task' = current_step_index task.
Proof.
  unfold resume_tail. cbn [plan set_interrupt].
  destruct (plan task) eqn:E; eexists; (split; [reflexivity |]);
    cbn; rewrite ?E; repeat split; reflexivity.
Qed.

(** The ways a resume request ends once its task has been loaded. *)
Lemma resume_loaded_outcomes (w : World) (task : TaskState) (user_response : PyDict) :
  let '(response, scheduled, w', task') :=
    resume_after_interruption w task user_response in
  match response with
  | ResumeError _ =>
      scheduled = NothingScheduled
      ∧ ((task_status task <> INTERRUPTED ∧ task' = task ∧ w' = w)
         ∨ (task_status task = INTERRUPTED
            ∧ task_status task' = FAILED
            ∧ truthy (opt_val (dict_get user_response "approved")) = false
            ∧ (interrupt_reason task = Some "payment_required"
               ∨ interrupt_reason task = Some "approval_needed")
            ∧ w' = _notify_failure (save_state w)))
  | Resumed =>
      task_status task = INTERRUPTED
      ∧ context task' !! "user_response" = Some (VDict user_response)
      ∧ interrupt_reason task' = None
      ∧ interrupt_data task' = None
      ∧ length (plan task') = length (plan task)
      ∧ w' = save_state w
      ∧ ((plan task <> [] ∧ task_status task' = EXECUTING
          ∧ scheduled = ScheduledResumeExecution)
         ∨ (plan task = [] ∧ task_status task' = PENDING
            ∧ scheduled = ScheduledProcessTask))
  end.
Proof.
  unfold resume_after_interruption.
  destruct (bool_decide (task_status task = INTERRUPTED)) eqn:Hint; cbn [negb].
  2: { apply bool_decide_eq_false in Hint. split; [reflexivity |]. left. auto. }
  apply bool_decide_eq_true in Hint.
  cbn [ctx_set interrupt_reason set_context].
  assert (Htail : ∀ t : TaskState,
             length (plan t) = length (plan task) ->
             context t !! "user_response" = Some (VDict user_response) ->
             ∃ scheduled task',
               resume_tail w t = (Resumed, scheduled, save_state w, task')
               ∧ context task' !! "user_response" = Some (VDict user_response)
               ∧ interrupt_reason task' = None
               ∧ interrupt_data task' = None
               ∧ length (plan task') = length (plan task)
               ∧ ((plan task <> [] ∧ task_status task' = EXECUTING
                   ∧ scheduled = ScheduledResumeExecution)
                  ∨ (plan task = [] ∧ task_status task' = PENDING
                     ∧ scheduled = ScheduledProcessTask))).
  { intros t Hlen Hctx.
    destruct (resume_tail_spec w t) as (t' & Heq & Hst & Hr & Hd & Hp & Hc & _).
    eexists _, t'. split; [exact Heq |].
    split; [rewrite Hc; exact Hctx |].
    split; [exact Hr |]. split; [exact Hd |]. split; [rewrite Hp; exact Hlen |].
    destruct (plan t) as [| s0 l0] eqn:Et.
    - right. rewrite bool_decide_true in * by reflexivity.
      split; [| auto]. destruct (plan task); [reflexivity | discriminate Hlen].
    - left. rewrite bool_decide_false in * by discriminate.
      split; [| auto]. intros Hnil. rewrite Hnil in Hlen. discriminate Hlen. }
  assert (Hdone : ∀ t : TaskState,
             length (plan t) = length (plan task) ->
             context t !! "user_response" = Some (VDict user_response) ->
             let '(response, scheduled, w', task') := resume_tail w t in
             match response with
             | ResumeError _ =>
                 scheduled = NothingScheduled
                 ∧ ((task_status task <> INTERRUPTED ∧ task' = task ∧ w' = w)
                    ∨ (task_status task = INTERRUPTED
                       ∧ task_status task' = FAILED
                       ∧ truthy (opt_val (dict_get user_response "approved")) = false
                       ∧ (interrupt_reason task = Some "payment_required"
                          ∨ interrupt_reason task = Some "approval_needed")
                       ∧ w' = _notify_failure (save_state w)))
             | Resumed =>
                 task_status task = INTERRUPTED
                 ∧ context task' !! "user_response" = Some (VDict user_response)
                 ∧ interrupt_reason task' = None
                 ∧ interrupt_data task' = None
                 ∧ length (plan task') = length (plan task)
                 ∧ w' = save_state w
                 ∧ ((plan task <> [] ∧ task_status task' = EXECUTING
                     ∧ scheduled = ScheduledResumeExecution)
                    ∨ (plan task = [] ∧ task_status task' = PENDING
                       ∧ scheduled = ScheduledProcessTask))
             end).
  { intros t Hlen Hctx.
    destruct (Htail t Hlen Hctx) as (sched & t' & -> & H1 & H2 & H3 & H4 & H5).
    auto 10. }
  clear Htail.
  destruct (bool_decide (interrupt_reason task = Some "payment_required")) eqn:Hpay.
  { apply bool_decide_eq_true in Hpay.
    destruct (truthy (opt_val (dict_get user_response "approved"))) eqn:Happ.
    - apply Hdone.
      + rewrite complete_current_step_length. reflexivity.
      + rewrite (proj1 (complete_current_step_fields _ _)). unfold ctx_set; cbn [context set_context].
        rewrite !lookup_insert_ne by discriminate. apply lookup_insert_eq.
    - split; [reflexivity |]. right. auto 10. }
  destruct (bool_decide (interrupt_reason task = Some "approval_needed")) eqn:Happr.
  { apply bool_decide_eq_true in Happr.
    destruct (truthy (opt_val (dict_get user_response "approved"))) eqn:Happ.
    - apply Hdone.
      + rewrite complete_current_step_length. reflexivity.
      + rewrite (proj1 (complete_current_step_fields _ _)). unfold ctx_set; cbn [context set_context].
        rewrite !lookup_insert_ne by discriminate. apply lookup_insert_eq.
    - split; [reflexivity |]. right. auto 10. }
  destruct (bool_decide (interrupt_reason task = Some "clarification_needed")) eqn:Hcl.
  { apply Hdone.
    - unfold ctx_set; cbn [plan set_context current_step_index].
      destruct (plan task !! current_step_index task) as [cs |] eqn:Ecs;
        [| reflexivity].
      destruct (String.eqb (action_type cs) "request_user_help"); [| reflexivity].
      rewrite complete_current_step_length. reflexivity.
    - unfold ctx_set; cbn [plan set_context current_step_index].
      rewrite context_maybe_complete. unfold ctx_set; cbn [context set_context].
      rewrite !lookup_insert_ne by discriminate. apply lookup_insert_eq. }
  apply Hdone; [reflexivity |]. unfold ctx_set; cbn [context set_context]. apply lookup_insert_eq.
Qed.


(** X15. An approved payment completes the step the task is paused at:
    that step is marked [COMPLETED] with the approval as its result, the
    step index moves past it, the approval and the payment method (the
    text ["default"] when none was given) are written to the context, the
    interruption fields are cleared, and execution is scheduled to resume
    with the task [EXECUTING]. *)
Theorem approved_payment_completes_step (w : World) (task : TaskState)
    (user_response : PyDict) (step : ExecutionStep) :
  task_status task = INTERRUPTED ->
  interrupt_reason task = Some "payment_required" ->
  truthy (opt_val (dict_get user_response "approved")) = true ->
  plan task !! current_step_index task = Some step ->
  ∃ task',
    resume_after_interruption w task user_response
    = (Resumed, ScheduledResumeExecution, save_state w, task')
    ∧ task_status task' = EXECUTING
    ∧ current_step_index task' = S (current_step_index task)
    ∧ plan task'
      = <[current_step_index task :=
            step_set_result (step_set_status step STEP_COMPLETED)
              (Some (VDict [("approved", VBool true);
                            ("method", opt_val (dict_get user_response "payment_method"))]))]>
          (plan task)
    ∧ context task' !! "payment_approved" = Some (VBool true)
    ∧ context task' !! "user_payment_method"
      = Some (default (VStr "default") (dict_get user_response "payment_method"))
    ∧ interrupt_reason task' = None
    ∧ interrupt_data task' = None.
Proof.
  intros Hint Hpay Happ Hstep. unfold resume_after_interruption.
  rewrite bool_decide_true by exact Hint. cbn [negb].
  unfold ctx_set at 3. cbn [interrupt_reason set_context].
  rewrite bool_decide_true by exact Hpay. rewrite Happ.
  unfold complete_current_step, ctx_set.
  cbn [plan set_context current_step_index context]. rewrite Hstep.
  unfold resume_tail. cbn [plan set_interrupt set_index set_plan].
  destruct (plan task) as [| s0 l0] eqn:Eplan; [discriminate Hstep |].
  destruct (current_step_index task) as [| n] eqn:Eidx;
    cbn [list_insert insert];
    (eexists; split; [reflexivity |]); cbn;
    rewrite ?lookup_insert_eq, ?lookup_insert_ne by discriminate;
    rewrite ?lookup_insert_eq; repeat split; reflexivity.
Qed.

Lemma approved_payment_completes_step_witness :
  ∃ task',
    resume_after_interruption w0 (task_awaiting "payment_required")
                              [("approved", VBool true)]
    = (Resumed, ScheduledResumeExecution, save_state w0, task')
    ∧ current_step_index task' = 1%nat
    ∧ context task' !! "user_payment_method" = Some (VStr "default").
Proof.
  destruct (approved_payment_completes_step w0 (task_awaiting "payment_required")
              [("approved", VBool true)]
              (sample_step "s6" "request_payment_approval" []))
    as (task' & Hrun & _ & Hidx & _ & _ & Hm & _).
  - reflexivity.
  - reflexivity.
  - reflexivity.
  - reflexivity.
  - exists task'. split; [exact Hrun |]. split; [exact Hidx | exact Hm].
Defined.

(** X16. Answering a clarification question before any plan exists
    restarts the task: the answer is appended to the goal after the text
    [" - Additional info: "], it is also stored as [clarification_answer],
    the interruption fields are cleared, and the task goes back to
    [PENDING] with processing scheduled from the start. *)
Theorem clarification_answer_restarts_task (w : World) (task : TaskState)
    (user_response : PyDict) :
  task_status task = INTERRUPTED ->
  interrupt_reason task = Some "clarification_needed" ->
  plan task = [] ->
  ∃ task',
    resume_after_interruption w task user_response
    = (Resumed, ScheduledProcessTask, save_state w, task')
    ∧ task_status task' = PENDING
    ∧ context task' !! "goal"
      = Some (VStr (py_str (default (VStr EmptyString) (context task !! "goal"))
                    ++ " - Additional info: "
                    ++ py_str (default (VStr EmptyString)
                                       (dict_get user_response "answer"))))
    ∧ context task' !! "clarification_answer"
      = Some (opt_val (dict_get user_response "answer"))
    ∧ interrupt_reason task' = None
    ∧ interrupt_data task' = None
    ∧ plan task' = [].
Proof.
  intros Hint Hcl Hplan. unfold resume_after_interruption.
  rewrite bool_decide_true by exact Hint. cbn [negb].
  unfold ctx_set. cbn [interrupt_reason set_context context plan current_step_index].
  rewrite Hcl.
  rewrite bool_decide_false by discriminate.
  rewrite bool_decide_false by discriminate.
  rewrite bool_decide_true by reflexivity.
  rewrite Hplan. cbn [lookup list_lookup].
  assert (Hnone : (@nil ExecutionStep) !! current_step_index task = None)
    by (destruct (current_step_index task); reflexivity).
  rewrite Hnone. unfold resume_tail. cbn [plan set_interrupt set_context]. rewrite Hplan.
  eexists. split; [reflexivity |].
  cbn [task_status set_status context set_interrupt set_context interrupt_reason
       interrupt_data plan].
  split; [reflexivity |].
  split; [rewrite lookup_insert_eq, !lookup_insert_ne by discriminate; reflexivity |].
  split; [rewrite lookup_insert_ne by discriminate; apply lookup_insert_eq |].
  split; [reflexivity |]. split; [reflexivity | exact Hplan].
Qed.

Lemma clarification_answer_restarts_task_witness :
  ∃ task',
    resume_after_interruption w0 task_unclear [("answer", VStr "Tokyo")]
    = (Resumed, ScheduledProcessTask, save_state w0, task')
    ∧ task_status task' = PENDING
    ∧ context task' !! "goal" = Some (VStr "Book it - Additional info: Tokyo").
Proof.
  destruct (clarification_answer_restarts_task w0 task_unclear [("answer", VStr "Tokyo")])
    as (task' & Hrun & Hst & Hgoal & _).
  - reflexivity.
  - reflexivity.
  - reflexivity.
  - exists task'. split; [exact Hrun |]. split; [exact Hst |].
    rewrite Hgoal. reflexivity.
Defined.

End ResumeMore.

(** ** The scheduler: termination and dependency order *)

Section SchedulerMore.

Import ExecutorEngine.

Implicit Types (plan : list ExecutionStep) (st : PlanState) (done : gset string).

Lemma process_results_failure cbk results : ∀ st i e k,
  (process_results cbk results st).1 = Some (Ok (PlanFailure i e k)) ->
  ∃ s, ps_plan (process_results cbk results st).2 !! i = Some s
       ∧ status s = STEP_FAILED ∧ error s = Some (exn_str e).
Proof.
  induction results as [| [j r] results IH]; intros st i e k H; [discriminate |].
  cbn [process_results] in *.
  destruct (ps_plan st !! j) as [s |] eqn:Hs; [| apply (IH _ _ _ _ H)].
  destruct r as [res | e0].
  { destruct (dict_update (ps_context st) (er_context_updates res)) as [[u | e1] c'];
      [apply (IH _ _ _ _ H) | discriminate]. }
  cbn [fst snd ps_plan] in *. inversion H; subst.
  eexists. split; [apply list_lookup_insert_eq; eapply lookup_lt_Some; exact Hs |].
  split; reflexivity.
Qed.

Lemma pending_nil plan done (s : ExecutionStep) :
  pending plan done = [] -> s ∈ plan -> id s ∈ done.
Proof.
  intros Hnil Hs. destruct (decide (id s ∈ done)) as [Hin | Hnot]; [exact Hin |].
  assert (Hp : s ∈ pending plan done) by (apply list_elem_of_filter; auto).
  rewrite Hnil in Hp. inversion Hp.
Qed.

Lemma shape_ids plan plan0 :
  step_shape <$> plan = step_shape <$> plan0 -> id <$> plan = id <$> plan0.
Proof.
  intros H.
  assert (Hf : ∀ l : list ExecutionStep,
             id <$> l = (fun sh => sh.1.1.1) <$> (step_shape <$> l)).
  { intros l. rewrite <- list_fmap_compose. reflexivity. }
  rewrite !Hf, H. reflexivity.
Qed.

Lemma shape_step plan plan0 i (s : ExecutionStep) :
  step_shape <$> plan = step_shape <$> plan0 -> plan !! i = Some s ->
  ∃ s0, s0 ∈ plan0 ∧ id s0 = id s ∧ dependencies s0 = dependencies s.
Proof.
  intros Hsh Hs.
  pose proof (lookup_same_shape plan0 plan i Hsh) as Hi.
  rewrite Hs in Hi. destruct (plan0 !! i) as [s0|] eqn:H0; [| discriminate].
  exists s0. split; [eapply list_elem_of_lookup_2; exact H0 |].
  destruct (step_shape_inv _ _ Hi). auto.
Qed.

Lemma all_ids_completed plan0 done :
  (∀ x, x ∈ done -> x ∈ (id <$> plan0)) ->
  (length plan0 <= size done)%nat ->
  ∀ s, s ∈ plan0 -> id s ∈ done.
Proof.
  intros Hsub Hsize s Hs.
  assert (Hincl : done ⊆ (list_to_set (id <$> plan0) : gset string)).
  { intros x Hx. apply elem_of_list_to_set. apply Hsub. exact Hx. }
  pose proof (size_list_to_set_le (id <$> plan0)) as Hle.
  rewrite length_fmap in Hle.
  assert (Heq : done ≡ (list_to_set (id <$> plan0) : gset string)).
  { apply set_subseteq_size_equiv; [exact Hincl | lia]. }
  apply Heq, elem_of_list_to_set, list_elem_of_fmap. eauto.
Qed.

(** The scheduler loop from any state that respects the dependencies. *)
Lemma plan_loop_respects_dependencies env cbk plan0 fuel : ∀ st,
  step_shape <$> ps_plan st = step_shape <$> plan0 ->
  dependency_closed plan0 (ps_completed st) ->
  (length plan0 - size (ps_completed st) < fuel)%nat ->
  ∃ r st',
    plan_loop fuel env cbk st = Some (r, st')
    ∧ step_shape <$> ps_plan st' = step_shape <$> plan0
    ∧ dependency_closed plan0 (ps_completed st')
    ∧ ps_completed st ⊆ ps_completed st'
    ∧ (∀ n, r = Ok (PlanSuccess n) ->
            n = size (ps_completed st') ∧ ∀ s, s ∈ plan0 -> id s ∈ ps_completed st')
    ∧ (∀ i e k, r = Ok (PlanFailure i e k) ->
                ∃ s, ps_plan st' !! i = Some s
                     ∧ status s = STEP_FAILED ∧ error s = Some (exn_str e)).
Proof.
  induction fuel as [|fuel IH]; intros st Hsh Hdone Hfuel; [lia |].
  assert (Hlen : length (ps_plan st) = length plan0).
  { rewrite <- (length_fmap step_shape (ps_plan st)), Hsh, length_fmap. reflexivity. }
  assert (Hids : ∀ x, x ∈ ps_completed st -> x ∈ (id <$> plan0)).
  { intros x Hx. destruct (Hdone x Hx) as (s & Hs & <- & _).
    apply list_elem_of_fmap. eauto. }
  cbn [plan_loop]. rewrite Hlen.
  destruct (Nat.ltb_spec (size (ps_completed st)) (length plan0)) as [Hlt | Hge].
  2: { eexists _, st. split; [reflexivity |]. split; [exact Hsh |].
       split; [exact Hdone |]. split; [reflexivity |]. split.
       - intros n Hn. inversion Hn; subst. split; [reflexivity |].
         apply all_ids_completed; assumption.
       - intros i e k Hr. discriminate. }
  pose proof (positions_valid (is_ready (ps_completed st)) (ps_plan st)) as Hready.
  fold (ready_steps (ps_plan st) (ps_completed st)) in Hready.
  destruct (ready_steps (ps_plan st) (ps_completed st)) as [|i0 ready] eqn:Er.
  - destruct (pending (ps_plan st) (ps_completed st)) as [|p pend] eqn:Ep.
    + eexists _, st. split; [reflexivity |]. split; [exact Hsh |].
      split; [exact Hdone |]. split; [reflexivity |]. split.
      * intros n Hn. inversion Hn; subst. split; [reflexivity |].
        intros s Hs.
        assert (Hin : id s ∈ id <$> ps_plan st).
        { rewrite (shape_ids _ _ Hsh). apply list_elem_of_fmap. eauto. }
        apply list_elem_of_fmap in Hin as (s' & Heq & Hs').
        rewrite Heq. eapply pending_nil; eassumption.
      * intros i e k Hr. discriminate.
    + eexists _, st. split; [reflexivity |]. split; [exact Hsh |].
      split; [exact Hdone |]. split; [reflexivity |].
      split; intros; discriminate.
  - assert (Hvalid : Forall (fun i => is_Some (ps_plan st !! i)) (i0 :: ready)).
    { eapply Forall_impl; [exact Hready |]. intros i (s & Hs & _). eauto. }
    destruct (gather_spec env (ps_context st) (i0 :: ready) (ps_plan st)
                (ps_world st) Hvalid) as (Hfst & Hsh1 & _).
    destruct (gather env (ps_context st) (i0 :: ready) (ps_plan st) (ps_world st))
      as [[results plan1] w1].
    cbn [fst snd] in Hfst, Hsh1.
    set (st1 := mkPlanState plan1 (ps_context st) (ps_completed st) w1).
    set (P := fun x : string =>
                ∃ s, s ∈ plan0 ∧ id s = x
                     ∧ ∀ d, d ∈ dependencies s -> d ∈ ps_completed st).
    assert (Hok : Forall (fun ir => ∀ s, ps_plan st1 !! ir.1 = Some s -> P (id s))
                         results).
    { apply Forall_forall. intros [i r] Hir s Hs. cbn [fst ps_plan st1] in Hs.
      assert (Hi : i ∈ i0 :: ready).
      { rewrite <- Hfst. apply list_elem_of_fmap. exists (i, r). auto. }
      rewrite Forall_forall in Hready.
      destruct (Hready i Hi) as (s' & Hs' & Hrdy).
      pose proof (lookup_same_shape (ps_plan st) plan1 i Hsh1) as Hii.
      rewrite Hs, Hs' in Hii. destruct (step_shape_inv _ _ Hii) as [Hid _].
      destruct (shape_step _ _ _ _ Hsh Hs') as (s0 & Hin0 & Hid0 & Hdeps0).
      apply is_ready_true in Hrdy as [_ Hall].
      exists s0. split; [exact Hin0 |]. split; [congruence |].
      intros d Hd. apply Hall. rewrite <- Hdeps0. exact Hd. }
    destruct (process_results_spec cbk P results st1 Hdone Hok)
      as (Hp1 & Hp2 & Hp3 & Hp4 & Hp5).
    pose proof (process_results_failure cbk results st1) as Hp6.
    destruct (process_results cbk results st1) as [[failure|] st2] eqn:Ep;
      cbn [fst snd] in Hp1, Hp2, Hp3, Hp4, Hp5, Hp6.
    + assert (Hsh2 : step_shape <$> ps_plan st2 = step_shape <$> plan0)
        by (rewrite Hp1; cbn [ps_plan st1]; rewrite Hsh1; exact Hsh).
      assert (Hdone2 : dependency_closed plan0 (ps_completed st2)).
      { intros x Hx. destruct (Hp2 x Hx) as (s & Hs & Hid & Hd).
        exists s. split; [exact Hs |]. split; [exact Hid |].
        intros d Hdd. apply Hp3. cbn [ps_completed st1]. apply Hd. exact Hdd. }
      eexists _, st2. split; [reflexivity |]. split; [exact Hsh2 |].
      split; [exact Hdone2 |]. split; [exact Hp3 |]. split.
      * intros n Hn.
        destruct (Hp5 failure eq_refl) as [(i & e & k & -> & _)
                                          | (i & res & c & e & -> & _)];
          discriminate.
      * intros i e k Hr. inversion Hr; subst. apply (Hp6 i e k eq_refl).
    + assert (Hsh2 : step_shape <$> ps_plan st2 = step_shape <$> plan0)
        by (rewrite Hp1; cbn [ps_plan st1]; rewrite Hsh1; exact Hsh).
      assert (Hdone2 : dependency_closed plan0 (ps_completed st2)).
      { intros x Hx. destruct (Hp2 x Hx) as (s & Hs & Hid & Hd).
        exists s. split; [exact Hs |]. split; [exact Hid |].
        intros d Hdd. apply Hp3. cbn [ps_completed st1]. apply Hd. exact Hdd. }
      assert (Hgrow : (size (ps_completed st) < size (ps_completed st2))%nat).
      { apply subset_size. split; [exact Hp3 |].
        intros Hsup.
        rewrite Forall_forall in Hready.
        destruct (Hready i0 ltac:(left)) as (s0 & Hs0 & Hrdy).
        apply is_ready_true in Hrdy as [Hnot _].
        assert (Hin0 : i0 ∈ results.*1) by (rewrite Hfst; left).
        apply list_elem_of_fmap in Hin0 as ([j r] & Hj & Hin0). cbn in Hj. subst j.
        specialize (Hp4 eq_refl). rewrite Forall_forall in Hp4.
        pose proof (lookup_same_shape (ps_plan st) plan1 i0 Hsh1) as Hii.
        rewrite Hs0 in Hii. destruct (plan1 !! i0) as [s1|] eqn:Hs1; [| discriminate].
        destruct (step_shape_inv _ _ Hii) as [Hid _].
        specialize (Hp4 _ Hin0 s1 Hs1). rewrite Hid in Hp4.
        apply Hnot, Hsup, Hp4. }
      destruct (IH st2 Hsh2 Hdone2 ltac:(lia))
        as (r & st' & Hrun & Hsh' & Hdone' & Hsub' & Hsucc & Hfailed).
      exists r, st'. split; [exact Hrun |]. split; [exact Hsh' |].
      split; [exact Hdone' |]. split; [| split; assumption].
      etrans; [exact Hp3 | exact Hsub'].
Qed.

(** X17. [execute_plan] always returns when given more fuel than the plan
    has steps, whatever the plan and the tools do. The steps keep their
    ids, actions, parameters and dependencies, and the ids it marked
    completed respect the dependencies: each is the id of a step all of
    whose dependencies were completed as well. When it reports success
    every step id of the plan is completed and the reported count is the
    number of completed ids; when it reports a failed step, that step is
    left [FAILED] with the error text. *)
Theorem execute_plan_respects_dependencies env plan ctx cbk (w : World) fuel :
  (length plan < fuel)%nat ->
  ∃ r st,
    execute_plan fuel env plan ctx cbk w = Some (r, st)
    ∧ step_shape <$> ps_plan st = step_shape <$> plan
    ∧ dependency_closed plan (ps_completed st)
    ∧ (∀ n, r = Ok (PlanSuccess n) ->
            n = size (ps_completed st) ∧ ∀ s, s ∈ plan -> id s ∈ ps_completed st)
    ∧ (∀ i e k, r = Ok (PlanFailure i e k) ->
                ∃ s, ps_plan st !! i = Some s
                     ∧ status s = STEP_FAILED ∧ error s = Some (exn_str e)).
Proof.
  intros Hfuel. unfold execute_plan.
  destruct (plan_loop_respects_dependencies env cbk plan fuel
              (mkPlanState plan ctx ∅ w))
    as (r & st & Hrun & Hsh & Hdone & _ & Hsucc & Hfailed).
  - reflexivity.
  - intros x Hx. cbn in Hx. set_solver.
  - cbn [ps_completed]. rewrite size_empty. lia.
  - exists r, st. auto.
Qed.

Lemma execute_plan_respects_dependencies_witness :
  ∃ r st,
    execute_plan 3 env_ok plan_dangling ∅ false w0 = Some (r, st)
    ∧ dependency_closed plan_dangling (ps_completed st).
Proof.
  destruct (execute_plan_respects_dependencies env_ok plan_dangling ∅ false w0 3)
    as (r & st & Hrun & _ & Hdone & _).
  - cbn. lia.
  - exists r, st. split; [exact Hrun | exact Hdone].
Defined.

Lemma gather_frame env ctx ready : ∀ plan (w : World) j,
  j ∉ ready -> (gather env ctx ready plan w).1.2 !! j = plan !! j.
Proof.
  induction ready as [| i ready IH]; intros plan w j Hj; [reflexivity |].
  apply not_elem_of_cons in Hj as [Hne Hj].
  cbn [gather]. destruct (plan !! i) as [s |] eqn:Hs; [| apply IH; exact Hj].
  destruct (execute_step env s ctx w) as [[r s'] w1].
  specialize (IH (<[i := s']> plan) w1 j Hj).
  destruct (gather env ctx ready (<[i := s']> plan) w1) as [[rs plan'] w2].
  cbn [fst snd] in *. rewrite IH. apply list_lookup_insert_ne. congruence.
Qed.

Lemma process_results_keeps_plan cbk results : ∀ st,
  (process_results cbk results st).1 = None ->
  ps_plan (process_results cbk results st).2 = ps_plan st.
Proof.
  induction results as [| [i r] results IH]; intros st H; [reflexivity |].
  cbn [process_results] in *.
  destruct (ps_plan st !! i) as [s |]; [| apply IH; exact H].
  destruct r as [res | e]; [| discriminate].
  destruct (dict_update (ps_context st) (er_context_updates res)) as [[u | e] c'];
    [| discriminate].
  rewrite IH by exact H. reflexivity.
Qed.

Lemma positions_complete (p : ExecutionStep -> bool) plan i (s : ExecutionStep) :
  plan !! i = Some s -> p s = true -> i ∈ positions p plan.
Proof.
  intros Hs Hp. unfold positions. apply list_elem_of_fmap.
  exists (i, s). split; [reflexivity |].
  apply list_elem_of_filter. split; [exact Hp |].
  apply elem_of_lookup_imap. eauto.
Qed.

Lemma is_ready_intro done (s : ExecutionStep) :
  id s ∉ done -> status s <> STEP_COMPLETED ->
  (∀ d, d ∈ dependencies s -> d ∈ done) ->
  is_ready done s = true.
Proof.
  intros Hid Hst Hdeps. unfold is_ready.
  rewrite (bool_decide_false _ Hid), (bool_decide_false _ Hst). cbn.
  apply forallb_forall. intros d Hd. apply bool_decide_eq_true.
  apply Hdeps, list_elem_of_In. exact Hd.
Qed.

(** In a dependency-ordered plan whose tools return well-formed results,
    the loop cannot stall: as long as a step is pending, one is ready. *)
Lemma plan_loop_succeeds env cbk plan0 fuel :
  tools_never_raise env ->
  dependency_ordered plan0 ->
  ∀ st,
    step_shape <$> ps_plan st = step_shape <$> plan0 ->
    (∀ s, s ∈ ps_plan st -> id s ∉ ps_completed st -> status s <> STEP_COMPLETED) ->
    (length plan0 - size (ps_completed st) < fuel)%nat ->
    ∃ n st', plan_loop fuel env cbk st = Some (Ok (PlanSuccess n), st').
Proof.
  intros Htools Hord. induction fuel as [|fuel IH]; intros st Hsh Hstat Hfuel; [lia |].
  assert (Hlen : length (ps_plan st) = length plan0).
  { rewrite <- (length_fmap step_shape (ps_plan st)), Hsh, length_fmap. reflexivity. }
  cbn [plan_loop]. rewrite Hlen.
  destruct (Nat.ltb_spec (size (ps_completed st)) (length plan0)) as [Hlt | Hge];
    [| eauto].
  pose proof (positions_valid (is_ready (ps_completed st)) (ps_plan st)) as Hready.
  fold (ready_steps (ps_plan st) (ps_completed st)) in Hready.
  destruct (ready_steps (ps_plan st) (ps_completed st)) as [|i0 ready] eqn:Er.
  - assert (Hall : ∀ i s, ps_plan st !! i = Some s -> id s ∈ ps_completed st).
    { intros i. induction i as [i IHi] using lt_wf_ind. intros s Hs.
      destruct (decide (id s ∈ ps_completed st)) as [Hin | Hnot]; [exact Hin |].
      exfalso.
      assert (Hrdy : is_ready (ps_completed st) s = true).
      { apply is_ready_intro; [exact Hnot | |].
        - apply Hstat; [eapply list_elem_of_lookup_2; exact Hs | exact Hnot].
        - intros d Hd.
          pose proof (lookup_same_shape (ps_plan st) plan0 i) as Hi.
          rewrite Hs in Hi. specialize (Hi (eq_sym Hsh)).
          destruct (plan0 !! i) as [s0 |] eqn:Hs0; [| discriminate].
          destruct (step_shape_inv _ _ Hi) as [_ Hdeps].
          destruct (Hord i s0 d Hs0 ltac:(rewrite Hdeps; exact Hd))
            as (j & s' & Hj & Hs' & Hid').
          pose proof (lookup_same_shape plan0 (ps_plan st) j Hsh) as Hjj.
          rewrite Hs' in Hjj.
          destruct (ps_plan st !! j) as [sj |] eqn:Hsj; [| discriminate].
          destruct (step_shape_inv _ _ Hjj) as [Hidj _].
          rewrite <- Hid', <- Hidj. apply (IHi j Hj sj Hsj). }
      pose proof (positions_complete (is_ready (ps_completed st)) _ _ _ Hs Hrdy) as Hin.
      fold (ready_steps (ps_plan st) (ps_completed st)) in Hin.
      rewrite Er in Hin. inversion Hin. }
    destruct (pending (ps_plan st) (ps_completed st)) as [|p pend] eqn:Ep; [eauto |].
    exfalso.
    assert (Hp : p ∈ pending (ps_plan st) (ps_completed st)) by (rewrite Ep; left).
    apply list_elem_of_filter in Hp as [Hnot Hp].
    apply list_elem_of_lookup in Hp as [i Hi]. apply Hnot. eapply Hall; exact Hi.
  - assert (Hvalid : Forall (fun i => is_Some (ps_plan st !! i)) (i0 :: ready)).
    { eapply Forall_impl; [exact Hready |]. intros i (s & Hs & _). eauto. }
    destruct (gather_spec env (ps_context st) (i0 :: ready) (ps_plan st)
                (ps_world st) Hvalid) as (Hfst & Hsh1 & _).
    pose proof (gather_results env (ps_context st) (i0 :: ready) (ps_plan st)
                  (ps_world st)) as Hres.
    pose proof (gather_frame env (ps_context st) (i0 :: ready) (ps_plan st)
                  (ps_world st)) as Hframe.
    destruct (gather env (ps_context st) (i0 :: ready) (ps_plan st) (ps_world st))
      as [[results plan1] w1].
    cbn [fst snd] in Hfst, Hsh1, Hres, Hframe.
    set (st1 := mkPlanState plan1 (ps_context st) (ps_completed st) w1).
    destruct (process_results_spec cbk (fun _ => True) results st1)
      as (Hp1 & _ & Hp3 & Hp4 & Hp5); [auto | apply Forall_forall; auto |].
    pose proof (process_results_keeps_plan cbk results st1) as Hkeep.
    destruct (process_results cbk results st1) as [[failure|] st2] eqn:Ep;
      cbn [fst snd] in Hp1, Hp3, Hp4, Hp5, Hkeep.
    + exfalso. rewrite Forall_forall in Hres.
      destruct (Hp5 failure eq_refl) as [(i & e & k & _ & Hin)
                                        | (i & res & c & e & _ & Hin & Hraise)];
        destruct (Hres _ Hin) as (s & w' & Hexec); cbn [snd] in Hexec;
        destruct (execute_step_returns env s (ps_context st) w' Htools)
          as (res' & d & Hr & Hd).
      * congruence.
      * rewrite Hr in Hexec. inversion Hexec; subst res'.
        rewrite Hd in Hraise. discriminate.
    + specialize (Hp4 eq_refl). specialize (Hkeep eq_refl).
      cbn [ps_plan ps_completed st1] in Hp3, Hp4, Hkeep.
      assert (Hsh2 : step_shape <$> ps_plan st2 = step_shape <$> plan0)
        by (rewrite Hp1; cbn [ps_plan st1]; rewrite Hsh1; exact Hsh).
      assert (Hstat2 : ∀ s, s ∈ ps_plan st2 -> id s ∉ ps_completed st2 ->
                            status s <> STEP_COMPLETED).
      { intros s Hs Hnot. rewrite Hkeep in Hs.
        apply list_elem_of_lookup in Hs as [j Hj].
        destruct (decide (j ∈ i0 :: ready)) as [Hin | Hout].
        - exfalso. rewrite <- Hfst in Hin.
          apply list_elem_of_fmap in Hin as ([j' r] & Hjj & Hin). cbn in Hjj. subst j'.
          rewrite Forall_forall in Hp4. apply Hnot. apply (Hp4 _ Hin s Hj).
        - rewrite (Hframe j Hout) in Hj.
          apply Hstat; [eapply list_elem_of_lookup_2; exact Hj |].
          intros Hc. apply Hnot, Hp3, Hc. }
      assert (Hgrow : (size (ps_completed st) < size (ps_completed st2))%nat).
      { apply subset_size. split; [exact Hp3 |].
        intros Hsup.
        rewrite Forall_forall in Hready.
        destruct (Hready i0 ltac:(left)) as (s0 & Hs0 & Hrdy).
        apply is_ready_true in Hrdy as [Hnot _].
        assert (Hin0 : i0 ∈ results.*1) by (rewrite Hfst; left).
        apply list_elem_of_fmap in Hin0 as ([j r] & Hj & Hin0). cbn in Hj. subst j.
        rewrite Forall_forall in Hp4.
        pose proof (lookup_same_shape (ps_plan st) plan1 i0 Hsh1) as Hii.
        rewrite Hs0 in Hii. destruct (plan1 !! i0) as [s1|] eqn:Hs1; [| discriminate].
        destruct (step_shape_inv _ _ Hii) as [Hid _].
        specialize (Hp4 _ Hin0 s1 Hs1). rewrite Hid in Hp4.
        apply Hnot, Hsup, Hp4. }
      apply (IH st2 Hsh2 Hstat2). lia.
Qed.



End SchedulerMore.

(** ** Parameter resolution *)

Section ResolveMore.

Implicit Types (s pre post var : string) (ctx : gmap string PyVal).

Lemma resolve_str_inert ctx s : str_in "{{" s = false -> resolve_str ctx s = VStr s.
Proof.
  intros H. unfold resolve_str, startswith.
  destruct (String.prefix "{{" s) eqn:Hp;
    [apply str_in_prefix in Hp; congruence |].
  rewrite H. reflexivity.
Qed.

Lemma resolve_value_inert ctx :
  ∀ v, resolution_inert v = true -> resolve_value ctx v = v.
Proof.
  fix IH 1. intros [| b | z | s | l | d] H; try reflexivity.
  - cbn in *. apply resolve_str_inert. apply negb_true_iff. exact H.
  - cbn in *. f_equal. induction l as [| item l IHl]; [reflexivity |].
    cbn in H. apply andb_true_iff in H as [H1 H2].
    cbn [map]. rewrite IHl by exact H2. f_equal.
    destruct item as [| | | s | |]; try reflexivity.
    cbn. unfold whole_template in H1. apply negb_true_iff in H1. rewrite H1.
    reflexivity.
  - cbn [resolve_value]. f_equal. cbn [resolution_inert] in H.
    revert H. induction d as [| [k x] d IHd]; intros H; [reflexivity |].
    apply andb_true_iff in H as [H1 H2].
    rewrite (IH x H1), (IHd H2). reflexivity.
Qed.

(** X19. Parameters with nothing to resolve come back unchanged, whatever
    the context holds: strings without an opening ["{{"], numbers,
    booleans, and lists and nested dictionaries of such values. Inside a
    list only a string that is one whole template is replaced, so a string
    with an embedded template or a dictionary nested in a list is returned
    as it is. *)
Theorem inert_parameters_unchanged ctx (params : PyDict) :
  Forall (fun kv => resolution_inert kv.2 = true) params ->
  _resolve_parameters ctx params = params.
Proof.
  intros H. unfold _resolve_parameters.
  induction H as [| [k v] params Hv _ IH]; [reflexivity |].
  cbn [map fst snd] in *. rewrite IH, (resolve_value_inert ctx v Hv). reflexivity.
Qed.

Lemma inert_parameters_unchanged_witness :
  _resolve_parameters (<["traveller" := VStr "Ada"]> (<["note" := VStr "n"]> ∅))
                      params_nested
  = params_nested.
Proof.
  apply (inert_parameters_unchanged
           (<["traveller" := VStr "Ada"]> (<["note" := VStr "n"]> ∅)) params_nested).
  repeat constructor.
Defined.

(** X20. A template whose variable is in the context. As the whole
    string it yields the stored value itself, with its type (a number
    stays a number); embedded in a longer string it is replaced by the
    text [str(value)], the rest of the string being kept. *)
Theorem resolved_template_substitution ctx pre var post (v : PyVal) :
  ctx !! var = Some v ->
  is_var_name var = true ->
  str_in "{{" pre = false ->
  str_in "{{" post = false ->
  whole_template (pre ++ "{{" ++ var ++ "}}" ++ post) = false ->
  resolve_str ctx ("{{" ++ var ++ "}}") = v
  ∧ resolve_str ctx (pre ++ "{{" ++ var ++ "}}" ++ post)
    = VStr (pre ++ py_str v ++ post).
Proof.
  intros Hctx Hvar Hpre Hpost Hwhole. split.
  - rewrite resolve_exact_template, Hctx. reflexivity.
  - unfold resolve_str. unfold whole_template in Hwhole. rewrite Hwhole.
    rewrite str_in_app.
    assert (Hclose : str_in "}}" (pre ++ "{{" ++ var ++ "}}" ++ post) = true).
    { replace (pre ++ "{{" ++ var ++ "}}" ++ post)
        with ((pre ++ "{{" ++ var) ++ "}}" ++ post)
        by (rewrite !append_assoc; reflexivity).
      apply str_in_app. }
    rewrite Hclose. cbn [andb]. f_equal.
    rewrite re_sub_app_template, (re_sub_no_open ctx pre Hpre).
    apply andb_true_iff in Hvar as [Hne Hw].
    assert (Hm : match_template ("{{" ++ var ++ "}}" ++ post) = Some (var, post)).
    { apply match_template_intro.
      - apply span_word_all_word; [exact Hw | reflexivity].
      - intros ->. discriminate. }
    rewrite (re_sub_match _ _ _ _ Hm), (re_sub_no_open ctx post Hpost).
    unfold replace_var. rewrite Hctx. reflexivity.
Qed.

Lemma resolved_template_substitution_witness :
  resolve_str (<["budget" := VInt 800]> ∅) "{{budget}}" = VInt 800
  ∧ resolve_str (<["budget" := VInt 800]> ∅) "under ${{budget}} total"
    = VStr "under $800 total".
Proof.
  apply (resolved_template_substitution (<["budget" := VInt 800]> ∅)
           "under $" "budget" " total" (VInt 800)); reflexivity.
Defined.

End ResolveMore.

(** ** The tool registry *)

Section RegistryMore.

Import ToolRegistry.

Variable Handler : Type.

Implicit Types (tools : ToolRegistry.t Handler) (name : string) (h : Handler).

Lemma get_register tools name h other :
  get Handler (register Handler tools name h) other
  = if String.eqb name other then Some h else get Handler tools other.
Proof.
  induction tools as [| [n h'] tools IH]; cbn [register get].
  - reflexivity.
  - destruct (String.eqb n name) eqn:En; cbn [get].
    + apply String.eqb_eq in En. subst n. destruct (String.eqb name other); reflexivity.
    + rewrite IH. destruct (String.eqb n other) eqn:Eo; [| reflexivity].
      apply String.eqb_eq in Eo. subst n.
      rewrite String.eqb_sym, En. reflexivity.
Qed.

Lemma register_names tools name h :
  (register Handler tools name h).*1
  = if bool_decide (name ∈ tools.*1) then tools.*1 else (tools.*1 ++ [name])%list.
Proof.
  induction tools as [| [n h'] tools IH]; cbn [register fmap list_fmap fst].
  - rewrite bool_decide_false by (intros H; inversion H). reflexivity.
  - destruct (String.eqb n name) eqn:En.
    + apply String.eqb_eq in En. subst n.
      rewrite bool_decide_true by left. reflexivity.
    + apply String.eqb_neq in En. cbn [fmap list_fmap fst]. fold (tools.*1).
      change (list_fmap _ _ fst (register Handler tools name h))
        with ((register Handler tools name h).*1).
      rewrite IH. destruct (bool_decide (name ∈ tools.*1)) eqn:Ein.
      * apply bool_decide_eq_true in Ein.
        rewrite bool_decide_true by (right; exact Ein). reflexivity.
      * apply bool_decide_eq_false in Ein.
        rewrite bool_decide_false; [reflexivity |].
        intros Hc. apply elem_of_cons in Hc as [Hc | Hc]; congruence.
Qed.

(** X21. Registering a tool and asking for its handler gives that tool
    back, replacing a tool registered earlier under the same name; the
    entries of all other names are as before, and the registration order
    (which the fallback search follows) is kept, a new name going last. *)
Theorem register_then_get_handler tools name h :
  get_handler Handler (register Handler tools name h) name = Ok h
  ∧ (∀ other, other <> name ->
       get Handler (register Handler tools name h) other = get Handler tools other)
  ∧ (register Handler tools name h).*1
    = (if bool_decide (name ∈ tools.*1) then tools.*1 else (tools.*1 ++ [name])%list).
Proof.
  split; [| split].
  - unfold get_handler. rewrite get_register, String.eqb_refl. reflexivity.
  - intros other Hne. rewrite get_register.
    destruct (String.eqb name other) eqn:E; [| reflexivity].
    apply String.eqb_eq in E. congruence.
  - apply register_names.
Qed.

Lemma str_in_refl x : str_in x x = true.
Proof.
  apply str_in_prefix. rewrite <- (append_nil_r x) at 2. apply prefix_refl_app.
Qed.

Lemma get_Some_elem tools name h :
  get Handler tools name = Some h -> (name, h) ∈ tools.
Proof.
  induction tools as [| [n h'] tools IH]; cbn [get]; [discriminate |].
  destruct (String.eqb n name) eqn:E.
  - apply String.eqb_eq in E. subst n. intros H; inversion H; subst. left.
  - intros H. right. apply IH, H.
Qed.

(** X22. [get_handler] raises exactly when no registered name is similar
    to the requested one (equal to it, containing it or contained in it),
    and then with the message [Tool '<name>' not found]; otherwise an
    exact entry wins over the fallback search. In particular the empty
    name, contained in every name, is answered with the first registered
    tool. *)
Theorem get_handler_not_found_iff tools name :
  (get_handler Handler tools name
   = Raise (OtherError ("Tool '" ++ name ++ "' not found"))
   ↔ ∀ n h, (n, h) ∈ tools -> similar name n = false)
  ∧ (∀ e, get_handler Handler tools name = Raise e ->
          e = OtherError ("Tool '" ++ name ++ "' not found"))
  ∧ (∀ h, get Handler tools name = Some h -> get_handler Handler tools name = Ok h)
  ∧ (∀ n h rest, tools = (n, h) :: rest -> get Handler tools EmptyString = None ->
                 get_handler Handler tools EmptyString = Ok h).
Proof.
  split; [| split; [| split]].
  - unfold get_handler. split.
    + intros H n h Hin.
      destruct (get Handler tools name) as [h0 |]; [discriminate |].
      destruct (find (fun entry => similar name entry.1) tools) as [e |] eqn:Ef;
        [discriminate |].
      apply (find_none _ _ Ef (n, h)). apply list_elem_of_In. exact Hin.
    + intros Hall.
      destruct (get Handler tools name) as [h0 |] eqn:Eg.
      * apply get_Some_elem in Eg. specialize (Hall _ _ Eg).
        unfold similar in Hall. rewrite str_in_refl in Hall. discriminate.
      * destruct (find (fun entry => similar name entry.1) tools) as [[n h] |] eqn:Ef;
          [| reflexivity].
        apply find_some in Ef as [Hin Hs]. apply list_elem_of_In in Hin.
        cbn in Hs. rewrite (Hall _ _ Hin) in Hs. discriminate.
  - unfold get_handler. intros e H.
    destruct (get Handler tools name); [discriminate |].
    destruct (find _ tools); [discriminate |]. inversion H. reflexivity.
  - unfold get_handler. intros h ->. reflexivity.
  - intros n h rest -> Hnone. unfold get_handler. rewrite Hnone.
    cbn [find fst snd]. unfold similar. cbn. destruct n; reflexivity.
Qed.

End RegistryMore.

Lemma get_handler_not_found_iff_witness :
  ToolRegistry.get_handler nat sample_registry "book" = Ok 2%nat
  ∧ ToolRegistry.get_handler nat sample_registry EmptyString = Ok 1%nat
  ∧ ToolRegistry.get_handler nat sample_registry "pay"
    = Raise (OtherError "Tool 'pay' not found").
Proof.
  split; [reflexivity |]. split.
  - apply (proj2 (proj2 (proj2 (get_handler_not_found_iff nat sample_registry
                                   EmptyString)))
             "search_flights" 1%nat
             [("book_flight", 2%nat); ("send_notification", 3%nat)]); reflexivity.
  - apply (proj1 (get_handler_not_found_iff nat sample_registry "pay")).
    intros n h Hin. repeat (apply elem_of_cons in Hin as [Hin | Hin];
                            [inversion Hin; subst; reflexivity |]).
    inversion Hin.
Defined.

Lemma register_then_get_handler_witness :
  ToolRegistry.get_handler nat (ToolRegistry.register nat sample_registry "book_flight" 7%nat)
                           "book_flight" = Ok 7%nat
  ∧ (ToolRegistry.register nat sample_registry "book_flight" 7%nat).*1
    = ["search_flights"; "book_flight"; "send_notification"].
Proof.
  destruct (register_then_get_handler nat sample_registry "book_flight" 7%nat)
    as (H1 & _ & H3).
  split; [exact H1 |]. rewrite H3. reflexivity.
Defined.

(** ** Replanning after a failed step *)

Section ReplanMore.

Import PlannerEngine.

Lemma rewire_dependencies (old new : string) (s : ExecutionStep) :
  dependencies (rewire old new s)
  = (fun d => if String.eqb d old then new else d) <$> dependencies s.
Proof.
  unfold rewire. cbn [dependencies].
  destruct (bool_decide (old ∈ dependencies s)) eqn:E; [reflexivity |].
  apply bool_decide_eq_false in E.
  induction (dependencies s) as [| d l IH]; [reflexivity |].
  cbn. apply not_elem_of_cons in E as [Hne Hl].
  destruct (String.eqb d old) eqn:Ed; [apply String.eqb_eq in Ed; congruence |].
  rewrite <- IH by exact Hl. reflexivity.
Qed.

(** A step after the failure point is carried over re-wired. *)
Lemma replan_later_step (new_id : string) (task : TaskState) (failure_point : nat)
    (error : string) (failed : ExecutionStep) (i : nat) (new_plan : list ExecutionStep) :
  plan task !! failure_point = Some failed ->
  (failure_point < i)%nat ->
  replan new_id task failure_point error = Ok new_plan ->
  new_plan !! i = rewire (id failed) new_id <$> (plan task !! i).
Proof.
  intros Hf Hi Hrun. unfold replan in Hrun. rewrite Hf in Hrun.
  inversion Hrun; subst new_plan.
  pose proof (lookup_lt_Some _ _ _ Hf) as Hlt.
  assert (Hpre : length (take failure_point (plan task)) = failure_point)
    by (apply length_take_le; lia).
  rewrite lookup_app_r by lia. rewrite Hpre.
  destruct (i - failure_point)%nat as [| k] eqn:Ek; [lia |].
  rewrite lookup_cons, list_lookup_fmap, lookup_drop.
  replace (S failure_point + k)%nat with i by lia. reflexivity.
Qed.

(** X23. What [replan] builds when there is a step at the failure point.
    The new plan has as many steps as the old one; the steps before the
    failure point are kept as they are; the failed step is replaced by a
    pending [request_user_help] step with the fresh id, a budget of two
    retries and the failed step's parameters attached, depending on at
    most one step, which is a completed step from before the failure
    point; every later step keeps its id and everything else but its
    dependencies, in which the failed step's id is replaced by the new
    one. *)
Theorem replan_structure (new_id : string) (task : TaskState) (failure_point : nat)
    (error : string) (failed : ExecutionStep) :
  plan task !! failure_point = Some failed ->
  ∃ new_plan help,
    replan new_id task failure_point error = Ok new_plan
    ∧ length new_plan = length (plan task)
    ∧ id <$> new_plan = <[failure_point := new_id]> (id <$> plan task)
    ∧ take failure_point new_plan = take failure_point (plan task)
    ∧ new_plan !! failure_point = Some help
    ∧ action_type help = "request_user_help"
    ∧ status help = STEP_PENDING
    ∧ max_retries help = 2
    ∧ dict_get (parameters help) "original_params" = Some (VDict (parameters failed))
    ∧ (length (dependencies help) <= 1)%nat
    ∧ (∀ d, d ∈ dependencies help ->
            ∃ s, s ∈ take failure_point (plan task) ∧ id s = d
                 ∧ status s = STEP_COMPLETED)
    ∧ (∀ i s, (failure_point < i)%nat -> plan task !! i = Some s ->
              ∃ s', new_plan !! i = Some s'
                    ∧ (id s', description s', action_type s', parameters s',
                       status s', result s', retry_count s', max_retries s')
                      = (id s, description s, action_type s, parameters s,
                         status s, result s, retry_count s, max_retries s)
                    ∧ dependencies s'
                      = (fun d => if String.eqb d (id failed) then new_id else d)
                          <$> dependencies s).
Proof.
  intros Hf. unfold replan. rewrite Hf.
  pose proof (lookup_lt_Some _ _ _ Hf) as Hlt.
  set (pre := take failure_point (plan task)).
  set (help := alternative_step new_id pre failed error).
  assert (Hpre : length pre = failure_point) by (apply length_take_le; lia).
  eexists _, help. split; [reflexivity |].
  split; [| split; [| split; [| split; [| split; [| split; [| split;
    [| split; [| split; [| split]]]]]]]]].
  - rewrite !length_app, length_fmap, length_drop, Hpre. cbn. lia.
  - assert (Hsplit : plan task = (pre ++ failed :: drop (S failure_point) (plan task))%list)
      by (symmetry; apply take_drop_middle; exact Hf).
    set (post := drop (S failure_point) (plan task)) in *.
    rewrite Hsplit. rewrite !fmap_app.
    rewrite insert_app_r_alt by (rewrite length_fmap; lia).
    rewrite length_fmap, Hpre, Nat.sub_diag. cbn.
    f_equal. f_equal. rewrite <- list_fmap_compose.
    apply list_fmap_ext. intros. reflexivity.
  - rewrite take_app_le by lia. rewrite take_ge by lia. reflexivity.
  - rewrite lookup_app_r by lia. rewrite Hpre, Nat.sub_diag. reflexivity.
  - reflexivity.
  - reflexivity.
  - reflexivity.
  - reflexivity.
  - cbn [help alternative_step dependencies].
    destruct (reverse _) as [| a l]; cbn; lia.
  - intros d Hd. cbn [help alternative_step dependencies] in Hd.
    destruct (reverse (id <$> filter (fun s => status s = STEP_COMPLETED) pre))
      as [| a l] eqn:Er; [inversion Hd |].
    apply list_elem_of_singleton in Hd as ->.
    assert (Ha : a ∈ reverse (id <$> filter (fun s => status s = STEP_COMPLETED) pre))
      by (rewrite Er; left).
    apply elem_of_reverse, list_elem_of_fmap in Ha as (s & -> & Hs).
    apply list_elem_of_filter in Hs as [Hst Hs]. eauto.
  - intros i s Hi Hs.
    exists (rewire (id failed) new_id s). split; [| split].
    + rewrite (replan_later_step new_id task failure_point error failed i); [| | | ];
        [rewrite Hs; reflexivity | exact Hf | exact Hi |].
      unfold replan. rewrite Hf. reflexivity.
    + reflexivity.
    + apply rewire_dependencies.
Qed.

Lemma replan_structure_witness :
  ∃ new_plan help,
    replan "H" task_failed_booking 1 "seat unavailable" = Ok new_plan
    ∧ id <$> new_plan = ["A"; "H"; "C"]
    ∧ new_plan !! 1%nat = Some help
    ∧ action_type help = "request_user_help".
Proof.
  destruct (replan_structure "H" task_failed_booking 1 "seat unavailable"
              (step_set_status (sample_step "B" "book_flight" ["A"]) STEP_FAILED))
    as (new_plan & help & Hrun & _ & Hids & _ & Hhelp & Hact & _).
  - reflexivity.
  - exists new_plan, help. split; [exact Hrun |]. split; [rewrite Hids; reflexivity |].
    split; [exact Hhelp | exact Hact].
Defined.

(** X24. After replanning with a fresh id that differs from the failed
    step's, no later step depends on the failed step any more, and a later
    step that did depend on it now depends on the help step; without a
    step at the failure point [replan] raises an index error. *)
Theorem replan_rewires_dependants (new_id : string) (task : TaskState)
    (failure_point : nat) (error : string) :
  match plan task !! failure_point with
  | None =>
      replan new_id task failure_point error
      = Raise (OtherError "list index out of range")
  | Some failed =>
      ∃ new_plan,
        replan new_id task failure_point error = Ok new_plan
        ∧ ∀ i s', (failure_point < i)%nat -> new_plan !! i = Some s' ->
                  (new_id <> id failed -> id failed ∉ dependencies s')
                  ∧ ∀ s, plan task !! i = Some s ->
                         id failed ∈ dependencies s -> new_id ∈ dependencies s'
  end.
Proof.
  destruct (plan task !! failure_point) as [failed |] eqn:Hf.
  2: { unfold replan. rewrite Hf. reflexivity. }
  assert (Hrun : ∃ new_plan, replan new_id task failure_point error = Ok new_plan)
    by (unfold replan; rewrite Hf; eauto).
  destruct Hrun as [new_plan Hrun].
  exists new_plan. split; [exact Hrun |].
  intros i s' Hi Hs'.
  rewrite (replan_later_step _ _ _ _ _ _ _ Hf Hi Hrun) in Hs'.
  destruct (plan task !! i) as [s |] eqn:Hs; [| discriminate].
  cbn in Hs'. inversion Hs'; subst s'. rewrite rewire_dependencies.
  split.
  - intros Hne Hin. apply list_elem_of_fmap in Hin as (d & Hd & _).
    destruct (String.eqb d (id failed)) eqn:E; [congruence |].
    apply String.eqb_neq in E. congruence.
  - intros s0 Hs0 Hin. inversion Hs0; subst s0.
    apply list_elem_of_fmap. exists (id failed).
    rewrite String.eqb_refl. auto.
Qed.

End ReplanMore.

(** ** Creating a task *)

Section CreateMore.

Import AgentOrchestrator.

Lemma rstrip_cons (c : ascii) (s : string) :
  rstrip (String c s)
  = match rstrip s with
    | EmptyString => if is_space_char c then EmptyString else String c EmptyString
    | r => String c r
    end.
Proof. reflexivity. Qed.

Lemma rstrip_idempotent (s : string) : rstrip (rstrip s) = rstrip s.
Proof.
  induction s as [| c s IH]; [reflexivity |].
  rewrite rstrip_cons. destruct (rstrip s) as [| c' r] eqn:E.
  - destruct (is_space_char c) eqn:Ec; [reflexivity |].
    rewrite rstrip_cons. change (rstrip EmptyString) with EmptyString.
    rewrite Ec. reflexivity.
  - rewrite rstrip_cons, IH. reflexivity.
Qed.

Lemma lstrip_head (s : string) (c : ascii) (r : string) :
  lstrip s = String c r -> is_space_char c = false.
Proof.
  induction s as [| c0 s IH]; cbn [lstrip]; [discriminate |].
  destruct (is_space_char c0) eqn:E; [exact IH |].
  intros H. inversion H; subst. exact E.
Qed.

Lemma lstrip_strip (s : string) : lstrip (strip s) = strip s.
Proof.
  unfold strip. destruct (lstrip s) as [| c r] eqn:E; [reflexivity |].
  apply lstrip_head in E. rewrite rstrip_cons.
  destruct (rstrip r); [rewrite E |]; cbn [lstrip]; rewrite E; reflexivity.
Qed.

(** X25. [create_task] validates the goal after trimming white space
    (goals are taken as ASCII text): an empty or blank goal and a goal
    shorter than ten characters are refused, each with its own message,
    and nothing is saved; any other goal creates a [PENDING] task without
    a plan, saved once, whose context is the given one (none is an empty
    one) with the trimmed goal, free of leading and trailing white space,
    stored under ["goal"]. *)
Theorem create_task_validates_goal (new_id uid goal : string)
    (ctx : option (gmap string PyVal)) (w : World) :
  if String.eqb (strip goal) EmptyString
  then create_task new_id uid goal ctx w
       = (Raise (OtherError "Goal cannot be empty. Please describe what you need done."),
          w)
  else if (String.length (strip goal) <? 10)%nat
  then create_task new_id uid goal ctx w
       = (Raise (OtherError "Please provide more details about what you need done."), w)
  else
    ∃ task,
      create_task new_id uid goal ctx w = (Ok task, save_state w)
      ∧ task_id task = new_id
      ∧ user_id task = uid
      ∧ task_status task = PENDING
      ∧ plan task = []
      ∧ interrupt_reason task = None
      ∧ context task = <["goal" := VStr (strip goal)]> (default ∅ ctx)
      ∧ lstrip (strip goal) = strip goal
      ∧ rstrip (strip goal) = strip goal.
Proof.
  unfold create_task.
  assert (Hempty : (String.eqb goal EmptyString
                    || String.eqb (strip goal) EmptyString)%bool
                   = String.eqb (strip goal) EmptyString).
  { destruct goal; [reflexivity |]. reflexivity. }
  rewrite Hempty.
  destruct (String.eqb (strip goal) EmptyString); [reflexivity |].
  destruct (String.length (strip goal) <? 10)%nat; [reflexivity |].
  eexists. split; [reflexivity |].
  repeat split; [apply lstrip_strip | apply rstrip_idempotent].
Qed.

End CreateMore.

(** ** Executing one step by index *)

Section AtIndexMore.

Import ExecutorEngine.

(** X26. The index accepted by [execute_step_at_index]. An index at or
    beyond the end of the plan is answered with the error
    [Step index out of range], nothing being executed or changed; a
    negative index counts from the end, as Python's indexing does, so
    [-1] executes the last step; an index below minus the length raises
    an index error. *)
Theorem step_at_index_bounds (env : Env) (task : TaskState) (step_index : Z)
    (cbk : bool) (w : World) :
  let len := Z.of_nat (length (plan task)) in
  (len <= step_index ->
   execute_step_at_index env task step_index cbk w
   = (Ok (AtIndexError "Step index out of range"), task, w))
  ∧ (step_index < - len ->
     execute_step_at_index env task step_index cbk w
     = (Raise (OtherError "list index out of range"), task, w))
  ∧ (- len <= step_index < 0 ->
     execute_step_at_index env task step_index cbk w
     = execute_step_at_index env task (len + step_index) cbk w).
Proof.
  intros len. unfold execute_step_at_index, plan_position. fold len.
  split; [| split]; intros H.
  - rewrite (proj2 (Z.leb_le _ _)) by exact H. reflexivity.
  - rewrite (proj2 (Z.leb_gt _ _)) by lia.
    rewrite (proj2 (Z.ltb_lt _ _)) by lia.
    rewrite (proj2 (Z.leb_gt _ _)) by lia. reflexivity.
  - rewrite (proj2 (Z.leb_gt len step_index)) by lia.
    rewrite (proj2 (Z.ltb_lt step_index 0)) by lia.
    rewrite (proj2 (Z.leb_le 0 (len + step_index))) by lia.
    rewrite (proj2 (Z.leb_gt len (len + step_index))) by lia.
    rewrite (proj2 (Z.ltb_ge (len + step_index) 0)) by lia.
    reflexivity.
Qed.

Lemma step_at_index_bounds_witness :
  execute_step_at_index env_ok task_executing 1 false w0
  = (Ok (AtIndexError "Step index out of range"), task_executing, w0)
  ∧ execute_step_at_index env_ok task_executing (-1) false w0
    = execute_step_at_index env_ok task_executing 0 false w0.
Proof.
  destruct (step_at_index_bounds env_ok task_executing 1 false w0) as (H1 & _).
  destruct (step_at_index_bounds env_ok task_executing (-1) false w0) as (_ & _ & H3).
  split; [apply H1; vm_compute; discriminate |].
  apply H3. vm_compute. split; [discriminate | reflexivity].
Defined.

(** X27. [execute_step_at_index] turns every exception of the step into
    an error answer, the interruption signal included: when the handler
    asks for a human, the caller gets [success: False] with the reason as
    the error text, the task is not interrupted (status and interruption
    fields as before) and the step is left [IN_PROGRESS]. *)
Theorem step_at_index_swallows_interruption (env : Env) (task : TaskState)
    (pos : nat) (cbk : bool) (w : World) (step : ExecutionStep)
    (reason : string) (data : PyDict) :
  plan task !! pos = Some step ->
  tool env (action_type step) (_resolve_parameters (context task) (parameters step))
       (tick w)
  = HInterrupt reason data ->
  ∃ task' w',
    execute_step_at_index env task (Z.of_nat pos) cbk w
    = (Ok (AtIndexError reason), task', w')
    ∧ task_status task' = task_status task
    ∧ interrupt_reason task' = interrupt_reason task
    ∧ interrupt_data task' = interrupt_data task
    ∧ context task' = context task
    ∧ plan task' = <[pos := step_set_status step STEP_IN_PROGRESS]> (plan task)
    ∧ trace w'
      = (trace w ++ handler_event (context task) step
                 :: (if cbk then [EvBroadcast "step_failed"] else []))%list.
Proof.
  intros Hstep Htool. unfold execute_step_at_index, plan_position.
  pose proof (lookup_lt_Some _ _ _ Hstep) as Hlt.
  rewrite (proj2 (Z.leb_gt _ _)) by lia.
  rewrite (proj2 (Z.ltb_ge _ _)) by lia.
  rewrite Nat2Z.id, Hstep.
  unfold execute_step. cbn [action_type parameters step_set_status log tick].
  rewrite Htool. cbn [exn_str].
  eexists _, _. split; [reflexivity |].
  repeat split.
  unfold callback, handler_event, log, next_tick. destruct cbk; cbn [trace].
  - rewrite <- app_assoc. reflexivity.
  - reflexivity.
Qed.

Lemma step_at_index_swallows_interruption_witness :
  ∃ task' w',
    execute_step_at_index (env_const payment_signal) task_executing 0 true w0
    = (Ok (AtIndexError "payment_required"), task', w')
    ∧ task_status task' = EXECUTING
    ∧ interrupt_reason task' = None.
Proof.
  destruct (step_at_index_swallows_interruption (env_const payment_signal)
              task_executing 0 true w0
              (sample_step "s6" "request_payment_approval" [])
              "payment_required" [("amount", VInt 680)])
    as (task' & w' & Hrun & Hst & Hr & _).
  - reflexivity.
  - reflexivity.
  - exists task', w'. split; [exact Hrun |]. split; [exact Hst | exact Hr].
Defined.

End AtIndexMore.

(** ** A plan with a step completed beforehand *)

Section Resubmitted.

Import ExecutorEngine.

Implicit Types (plan : list ExecutionStep) (st : PlanState).

Lemma is_ready_not_completed (done : gset string) (s : ExecutionStep) :
  is_ready done s = true -> status s <> STEP_COMPLETED.
Proof.
  unfold is_ready. intros H.
  apply andb_true_iff in H as [H _]. apply andb_true_iff in H as [_ H].
  apply negb_true_iff, bool_decide_eq_false in H. exact H.
Qed.

(** The loop never completes the id of a step that was marked completed
    beforehand, and so never reports success. *)
Lemma plan_loop_resubmitted env cbk plan0 (c : nat) (sc : ExecutionStep) fuel :
  NoDup (id <$> plan0) ->
  plan0 !! c = Some sc ->
  ∀ st r st',
    step_shape <$> ps_plan st = step_shape <$> plan0 ->
    (∃ s, ps_plan st !! c = Some s ∧ status s = STEP_COMPLETED) ->
    (∀ x, x ∈ ps_completed st -> x <> id sc ∧ x ∈ (id <$> plan0)) ->
    plan_loop fuel env cbk st = Some (r, st') ->
    (∀ n, r <> Ok (PlanSuccess n)) ∧ id sc ∉ ps_completed st'.
Proof.
  intros Hnd Hc. induction fuel as [| fuel IH];
    intros st r st' Hsh (s_c & Hsc & Hstat) Hdone Hrun; [discriminate |].
  assert (Hlen : length (ps_plan st) = length plan0).
  { rewrite <- (length_fmap step_shape (ps_plan st)), Hsh, length_fmap. reflexivity. }
  assert (Hidc : id s_c = id sc).
  { pose proof (lookup_same_shape plan0 (ps_plan st) c Hsh) as Hi.
    rewrite Hsc, Hc in Hi. destruct (step_shape_inv _ _ Hi). assumption. }
  assert (Hnot : id sc ∉ ps_completed st).
  { intros Hin. destruct (Hdone _ Hin). congruence. }
  cbn [plan_loop] in Hrun. rewrite Hlen in Hrun.
  destruct (Nat.ltb_spec (size (ps_completed st)) (length plan0)) as [Hlt | Hge].
  2: { exfalso.
       assert (Hall : ∀ s, s ∈ plan0 -> id s ∈ ps_completed st).
       { apply all_ids_completed; [| exact Hge]. intros x Hx. apply Hdone, Hx. }
       apply Hnot, Hall. eapply list_elem_of_lookup_2; exact Hc. }
  pose proof (positions_valid (is_ready (ps_completed st)) (ps_plan st)) as Hready.
  fold (ready_steps (ps_plan st) (ps_completed st)) in Hready.
  destruct (ready_steps (ps_plan st) (ps_completed st)) as [|i0 ready] eqn:Er.
  - destruct (pending (ps_plan st) (ps_completed st)) as [|p pend] eqn:Ep.
    + exfalso. apply Hnot. rewrite <- Hidc.
      eapply pending_nil; [exact Ep |]. eapply list_elem_of_lookup_2; exact Hsc.
    + inversion Hrun; subst. split; [intros n; discriminate | exact Hnot].
  - assert (Hvalid : Forall (fun i => is_Some (ps_plan st !! i)) (i0 :: ready)).
    { eapply Forall_impl; [exact Hready |]. intros i (s & Hs & _). eauto. }
    assert (Hcout : c ∉ i0 :: ready).
    { intros Hin. rewrite Forall_forall in Hready.
      destruct (Hready c Hin) as (s & Hs & Hrdy).
      rewrite Hsc in Hs. inversion Hs; subst s.
      apply is_ready_not_completed in Hrdy. contradiction. }
    destruct (gather_spec env (ps_context st) (i0 :: ready) (ps_plan st)
                (ps_world st) Hvalid) as (Hfst & Hsh1 & _).
    pose proof (gather_frame env (ps_context st) (i0 :: ready) (ps_plan st)
                  (ps_world st) c Hcout) as Hframe.
    destruct (gather env (ps_context st) (i0 :: ready) (ps_plan st) (ps_world st))
      as [[results plan1] w1].
    cbn [fst snd] in Hfst, Hsh1, Hframe.
    set (st1 := mkPlanState plan1 (ps_context st) (ps_completed st) w1) in *.
    assert (Hok : Forall (fun ir => ∀ s, ps_plan st1 !! ir.1 = Some s ->
                            id s <> id sc ∧ id s ∈ (id <$> plan0)) results).
    { apply Forall_forall. intros [i r0] Hir s Hs. cbn [fst ps_plan st1] in Hs.
      assert (Hi : i ∈ i0 :: ready).
      { rewrite <- Hfst. apply list_elem_of_fmap. exists (i, r0). auto. }
      assert (Hne : i <> c) by (intros ->; contradiction).
      assert (Hsh01 : step_shape <$> plan1 = step_shape <$> plan0)
        by (rewrite Hsh1; exact Hsh).
      assert (Hids : (id <$> plan0) !! i = Some (id s)).
      { rewrite <- (shape_ids _ _ Hsh01), list_lookup_fmap, Hs. reflexivity. }
      split.
      - intros Heq.
        assert (Hidsc : (id <$> plan0) !! c = Some (id s))
          by (rewrite list_lookup_fmap, Hc, Heq; reflexivity).
        apply Hne. eapply NoDup_lookup; eassumption.
      - eapply list_elem_of_lookup_2; exact Hids. }
    destruct (process_results_spec cbk
                (fun x => x <> id sc ∧ x ∈ (id <$> plan0)) results st1 Hdone Hok)
      as (Hp1 & Hp2 & Hp3 & Hp4 & Hp5).
    pose proof (process_results_keeps_plan cbk results st1) as Hkeep.
    destruct (process_results cbk results st1) as [[failure|] st2] eqn:Ep;
      cbn [fst snd] in Hp1, Hp2, Hp3, Hp4, Hp5, Hkeep.
    + inversion Hrun; subst.
      split.
      * intros n Hn.
        destruct (Hp5 _ eq_refl) as [(i & e & k & Heq & _)
                                    | (i & res & c0 & e & Heq & _)]; congruence.
      * intros Hin. destruct (Hp2 _ Hin). congruence.
    + apply (IH st2 r st'); [| | exact Hp2 | exact Hrun].
      * rewrite Hp1. cbn [ps_plan st1]. rewrite Hsh1. exact Hsh.
      * rewrite (Hkeep eq_refl). cbn [ps_plan st1]. rewrite Hframe. eauto.
Qed.



End Resubmitted.

(** ** Validation verdicts *)

Section ValidationMore.

Import AgentOrchestrator.



(** X30. A healthcare task whose context holds truthy appointment details
    that are not a dictionary ends [FAILED] even though the validator
    found it completed: building the result summary raises after the
    status was set to [COMPLETED], and the resuming driver then forces
    [FAILED]. *)
Theorem healthcare_summary_error_fails_completed_task (env : Env) (fuel : nat)
    (w : World) (task : TaskState) (o : OutcomeDefinition) (details : PyVal)
    (v : Validation) :
  task_status task = EXECUTING ->
  plan task !! current_step_index task = None ->
  outcome task = Some o ->
  domain o = "healthcare" ->
  context task !! "appointment_details" = Some details ->
  truthy details = true ->
  (∀ d, details <> VDict d) ->
  (∀ t, validate_completion env (outcome task) (context task) (history task) t = Ok v) ->
  completed v = true ->
  ∃ w',
    _resume_execution (S fuel) env w task = Some (w', set_status task FAILED)
    ∧ count_validations (trace w') = S (count_validations (trace w)).
Proof.
  intros Hst Hend Ho Hdom Hdet Htruthy Hnd Hval Hc.
  unfold _resume_execution. cbn [_execute_plan]. rewrite Hend.
  unfold _validate_and_complete.
  rewrite transition_allowed
    by (rewrite Hst; apply (bool_decide_eq_true_1 _); reflexivity).
  cbn [outcome context history set_status]. rewrite Hval.
  assert (Hcases : format_confidence v = Ok tt
                   ∨ ∃ m, format_confidence v = Raise (OtherError m)).
  { unfold format_confidence.
    destruct (dict_get (v_rest v) "confidence") as [[] |]; eauto. }
  destruct Hcases as [Hconf | [m Hconf]]; rewrite Hconf.
  2: { eexists. split; [destruct task; reflexivity |].
       unfold save_state, _notify_failure, _broadcast_update, log, next_tick.
       cbn [trace]. rewrite !count_validations_app. cbn. lia. }
  rewrite Hc.
  rewrite transition_allowed by (apply (bool_decide_eq_true_1 _); reflexivity).
  unfold _notify_completion, _build_result_summary.
  cbn [outcome context set_status]. rewrite Ho, Hdom. cbn [String.eqb Ascii.eqb].
  cbn [opt_val]. rewrite Hdet. cbn [opt_val]. rewrite Htruthy.
  destruct details as [| b | z | s | l | d];
    try (eexists; split;
         [destruct task; reflexivity
         | unfold save_state, _notify_failure, _broadcast_update, log, next_tick;
           cbn [trace]; rewrite !count_validations_app; cbn; lia]).
  exfalso. eapply Hnd. reflexivity.
Qed.

Lemma healthcare_summary_error_fails_completed_task_witness :
  ∃ w', _resume_execution 1 env_ok w0 task_healthcare
        = Some (w', set_status task_healthcare FAILED).
Proof.
  destruct (healthcare_summary_error_fails_completed_task env_ok 0 w0 task_healthcare
              (mkOutcome "Book a dentist appointment" [] "healthcare" [])
              (VStr "Dr. Rao, Monday 10:00") verdict_done)
    as (w' & Hrun & _).
  - reflexivity.
  - reflexivity.
  - reflexivity.
  - reflexivity.
  - reflexivity.
  - reflexivity.
  - discriminate.
  - intros t. reflexivity.
  - reflexivity.
  - exists w'. exact Hrun.
Defined.

End ValidationMore.
